(** * todo-plus: the task / category model, the reducer, the stores,
      the derived view and the share formatter

    A shallow embedding of the TypeScript sources

      - [src/types/index.ts]           (data model, [createTask])
      - [src/context/TodoContext.tsx]  ([appReducer])
      - [src/hooks/useStorage.ts]      (the local-storage stores)
      - [src/hooks/useTasks.ts]        ([useFilteredTasks], [useCategories])
      - [src/hooks/useTwitterShare.ts] (the share formatter)

    followed by the properties the specification states about them.

    Conventions.
      - A JavaScript [Date] is the number of milliseconds since the epoch
        ([getTime()]), an integer.
      - [new Date()], [Date.now()] and [crypto.randomUUID()] read the
        outside world.  The world is threaded explicitly: a [World] holds
        the sequence of clock readings and of drawn tokens still to come,
        and how many of each were consumed.
      - [Partial<T>] is a record of options: [None] is an absent key.
      - A union with ['all'] over an enumeration is an option ([None] is
        ['all']). *)

From Stdlib Require Import ZArith List String Ascii Bool Lia DecimalString.
From Stdlib Require Import Floats.SpecFloat.
From stdpp Require Import base tactics option list.

Import ListNotations.
Local Open Scope string_scope.
Local Open Scope list_scope.
Local Open Scope Z_scope.

(** ** The outside world: clock and token generator *)

Definition Date := Z.

Record World := mkWorld {
  clock : nat -> Date;      (* the n-th reading of the wall clock *)
  reads : nat;              (* readings consumed so far *)
  tokens : nat -> string;   (* the n-th result of crypto.randomUUID() *)
  draws : nat               (* tokens consumed so far *)
}.

Definition IO (A : Type) : Type := World -> A * World.

Definition ret {A} (a : A) : IO A := fun w => (a, w).

Definition bind {A B} (m : IO A) (k : A -> IO B) : IO B :=
  fun w => let (a, w') := m w in k a w'.

Notation "'let!' x ':=' m 'in' k" := (bind m (fun x => k))
  (at level 10, x name, m at level 100, k at level 200).

(** [new Date()] *)
Definition new_Date : IO Date :=
  fun w => (clock w (reads w),
            mkWorld (clock w) (S (reads w)) (tokens w) (draws w)).

(** [Date.now()] *)
Definition Date_now : IO Z := new_Date.

(** [crypto.randomUUID()] *)
Definition randomUUID : IO string :=
  fun w => (tokens w (draws w),
            mkWorld (clock w) (reads w) (tokens w) (S (draws w))).

(** [Array.prototype.map] with an effectful callback: the callback runs on
    the elements from left to right. *)
Fixpoint mapM {A B} (f : A -> IO B) (l : list A) : IO (list B) :=
  match l with
  | [] => ret []
  | x :: xs =>
      let! y := f x in
      let! ys := mapM f xs in
      ret (y :: ys)
  end.

(** The same with the index passed to the callback, counted from [i]. *)
Fixpoint imapM_from {A B} (i : nat) (f : A -> nat -> IO B) (l : list A)
  : IO (list B) :=
  match l with
  | [] => ret []
  | x :: xs =>
      let! y := f x i in
      let! ys := imapM_from (S i) f xs in
      ret (y :: ys)
  end.

Definition imapM {A B} (f : A -> nat -> IO B) (l : list A) : IO (list B) :=
  imapM_from 0 f l.

(** ** Data model ([src/types/index.ts]) *)

Inductive Priority := high | medium | low.
Inductive Status := todo | in_progress | completed.

Definition Priority_eqb (a b : Priority) : bool :=
  match a, b with
  | high, high | medium, medium | low, low => true
  | _, _ => false
  end.

Definition Status_eqb (a b : Status) : bool :=
  match a, b with
  | todo, todo | in_progress, in_progress | completed, completed => true
  | _, _ => false
  end.

Module Task.
Record t := mk {
  id : string;
  title : string;
  description : string;
  priority : Priority;
  category : string;
  status : Status;
  completionComment : string;
  createdAt : Date;
  updatedAt : Date;
  completedAt : option Date;   (* Date | null *)
  order : Z;
  tags : list string
}.
End Task.
Abbreviation Task := Task.t.

(** [Omit<Task, 'id' | 'createdAt' | 'updatedAt' | 'completedAt' | 'order'>] *)
Module CreateTaskInput.
Record t := mk {
  title : string;
  description : string;
  priority : Priority;
  category : string;
  status : Status;
  completionComment : string;
  tags : list string
}.
End CreateTaskInput.
Abbreviation CreateTaskInput := CreateTaskInput.t.

(** [Partial<Omit<Task, 'id' | 'createdAt'>>] *)
Module UpdateTaskInput.
Record t := mk {
  title : option string;
  description : option string;
  priority : option Priority;
  category : option string;
  status : option Status;
  completionComment : option string;
  updatedAt : option Date;
  completedAt : option (option Date);
  order : option Z;
  tags : option (list string)
}.
End UpdateTaskInput.
Abbreviation UpdateTaskInput := UpdateTaskInput.t.

Module Category.
Record t := mk {
  id : string;
  name : string;
  color : string;
  description : option string;   (* description?: string *)
  createdAt : Date;
  taskCount : Z
}.
End Category.
Abbreviation Category := Category.t.

Inductive Theme := light | dark.
Inductive SortBy := by_createdAt | by_priority | by_title | by_dueDate.
Inductive SortOrder := asc | desc.

Record Notifications := mkNotifications {
  enabled : bool;
  reminderTime : Z
}.

Module Settings.
Record t := mk {
  theme : Theme;
  defaultPriority : Priority;
  sortBy : SortBy;
  sortOrder : SortOrder;
  showCompleted : bool;
  autoSave : bool;
  notifications : Notifications
}.
End Settings.
Abbreviation Settings := Settings.t.

Module PartialSettings.
Record t := mk {
  theme : option Theme;
  defaultPriority : option Priority;
  sortBy : option SortBy;
  sortOrder : option SortOrder;
  showCompleted : option bool;
  autoSave : option bool;
  notifications : option Notifications
}.
End PartialSettings.

Definition defaultSettings : Settings :=
  Settings.mk light medium by_createdAt desc true true
    (mkNotifications false 60).

Module Filter.
Record t := mk {
  status : option Status;       (* Task['status'] | 'all' *)
  category : string;            (* string | 'all' *)
  priority : option Priority;   (* Task['priority'] | 'all' *)
  searchQuery : string
}.
End Filter.
Abbreviation Filter := Filter.t.

Module PartialFilter.
Record t := mk {
  status : option (option Status);
  category : option string;
  priority : option (option Priority);
  searchQuery : option string
}.
End PartialFilter.

Module UIState.
Record t := mk {
  isTaskFormOpen : bool;
  isCategoryManagerOpen : bool;
  editingTask : option Task;    (* Task | null *)
  filter : Filter
}.
End UIState.
Abbreviation UIState := UIState.t.

Module PartialUIState.
Record t := mk {
  isTaskFormOpen : option bool;
  isCategoryManagerOpen : option bool;
  editingTask : option (option Task);
  filter : option Filter
}.
End PartialUIState.

(** [{ ...task, ...updates }]: a key present in [updates] wins. *)
Definition spread {A} (old : A) (new : option A) : A :=
  match new with
  | Some v => v
  | None => old
  end.

(** [createTask] *)
Definition createTask (input : CreateTaskInput) : IO Task :=
  let! uuid := randomUUID in
  let! created := new_Date in
  let! updated := new_Date in
  let! ord := Date_now in
  ret (Task.mk uuid
         (CreateTaskInput.title input)
         (CreateTaskInput.description input)
         (CreateTaskInput.priority input)
         (CreateTaskInput.category input)
         (CreateTaskInput.status input)
         (CreateTaskInput.completionComment input)
         created updated None ord
         (CreateTaskInput.tags input)).

(** ** Application state and reducer ([src/context/TodoContext.tsx]) *)

Module AppState.
Record t := mk {
  tasks : list Task;
  categories : list Category;
  settings : Settings;
  ui : UIState
}.
End AppState.
Abbreviation AppState := AppState.t.

Inductive AppAction :=
  | SET_TASKS (payload : list Task)
  | ADD_TASK (payload : Task)
  | UPDATE_TASK (id : string) (updates : UpdateTaskInput)
  | DELETE_TASK (payload : string)
  | REORDER_TASKS (payload : list Task)
  | UPDATE_TASK_STATUS (id : string) (status : Status)
                       (completionComment : option string)
  | SET_CATEGORIES (payload : list Category)
  | ADD_CATEGORY (payload : Category)
  | UPDATE_CATEGORY (payload : Category)
  | DELETE_CATEGORY (payload : string)
  | SET_SETTINGS (payload : Settings)
  | UPDATE_SETTINGS (payload : PartialSettings.t)
  | SET_UI_STATE (payload : PartialUIState.t)
  | OPEN_TASK_FORM (payload : option Task)
  | CLOSE_TASK_FORM
  | OPEN_CATEGORY_MANAGER
  | CLOSE_CATEGORY_MANAGER
  | SET_FILTER (payload : PartialFilter.t).

Definition initialUIState : UIState :=
  UIState.mk false false None (Filter.mk None "all" None "").

Definition initialState : AppState :=
  AppState.mk [] [] defaultSettings initialUIState.

(** [{ ...task, ...updates, updatedAt: new Date() }] *)
Definition patchTask (task : Task) (u : UpdateTaskInput) : IO Task :=
  let! now := new_Date in
  ret (Task.mk (Task.id task)
         (spread (Task.title task) (UpdateTaskInput.title u))
         (spread (Task.description task) (UpdateTaskInput.description u))
         (spread (Task.priority task) (UpdateTaskInput.priority u))
         (spread (Task.category task) (UpdateTaskInput.category u))
         (spread (Task.status task) (UpdateTaskInput.status u))
         (spread (Task.completionComment task)
                 (UpdateTaskInput.completionComment u))
         (Task.createdAt task)
         now
         (spread (Task.completedAt task) (UpdateTaskInput.completedAt u))
         (spread (Task.order task) (UpdateTaskInput.order u))
         (spread (Task.tags task) (UpdateTaskInput.tags u))).

(** [x || ''] on an optional string: [undefined] and the empty string are
    both falsy, and both give the empty string. *)
Definition or_empty (x : option string) : string :=
  match x with
  | Some s => s
  | None => ""
  end.

(** The object literal of the UPDATE_TASK_STATUS case; its properties are
    evaluated in source order, [completedAt] before [updatedAt]. *)
Definition stampStatus (task : Task) (status : Status) (comment : string)
  : IO Task :=
  let! done_at :=
    (if Status_eqb status completed
     then (let! d := new_Date in ret (Some d))
     else ret None) in
  let! now := new_Date in
  ret (Task.mk (Task.id task) (Task.title task) (Task.description task)
         (Task.priority task) (Task.category task)
         status
         (if Status_eqb status completed
          then comment
          else Task.completionComment task)
         (Task.createdAt task)
         now
         done_at
         (Task.order task) (Task.tags task)).

Definition with_tasks (s : AppState) (ts : list Task) : AppState :=
  AppState.mk ts (AppState.categories s) (AppState.settings s) (AppState.ui s).

Definition with_categories (s : AppState) (cs : list Category) : AppState :=
  AppState.mk (AppState.tasks s) cs (AppState.settings s) (AppState.ui s).

Definition with_settings (s : AppState) (x : Settings) : AppState :=
  AppState.mk (AppState.tasks s) (AppState.categories s) x (AppState.ui s).

Definition with_ui (s : AppState) (x : UIState) : AppState :=
  AppState.mk (AppState.tasks s) (AppState.categories s) (AppState.settings s) x.

Definition patchSettings (s : Settings) (p : PartialSettings.t) : Settings :=
  Settings.mk
    (spread (Settings.theme s) (PartialSettings.theme p))
    (spread (Settings.defaultPriority s) (PartialSettings.defaultPriority p))
    (spread (Settings.sortBy s) (PartialSettings.sortBy p))
    (spread (Settings.sortOrder s) (PartialSettings.sortOrder p))
    (spread (Settings.showCompleted s) (PartialSettings.showCompleted p))
    (spread (Settings.autoSave s) (PartialSettings.autoSave p))
    (spread (Settings.notifications s) (PartialSettings.notifications p)).

Definition patchUI (u : UIState) (p : PartialUIState.t) : UIState :=
  UIState.mk
    (spread (UIState.isTaskFormOpen u) (PartialUIState.isTaskFormOpen p))
    (spread (UIState.isCategoryManagerOpen u)
            (PartialUIState.isCategoryManagerOpen p))
    (spread (UIState.editingTask u) (PartialUIState.editingTask p))
    (spread (UIState.filter u) (PartialUIState.filter p)).

Definition patchFilter (f : Filter) (p : PartialFilter.t) : Filter :=
  Filter.mk
    (spread (Filter.status f) (PartialFilter.status p))
    (spread (Filter.category f) (PartialFilter.category p))
    (spread (Filter.priority f) (PartialFilter.priority p))
    (spread (Filter.searchQuery f) (PartialFilter.searchQuery p)).

(** [appReducer].  The action type is closed, so the [default] branch of
    the source's [switch] has no action to receive. *)
Definition appReducer (state : AppState) (action : AppAction) : IO AppState :=
  match action with
  | SET_TASKS payload =>
      ret (with_tasks state payload)
  | ADD_TASK payload =>
      ret (with_tasks state (AppState.tasks state ++ [payload]))
  | UPDATE_TASK id updates =>
      let! ts := mapM (fun task =>
                         if String.eqb (Task.id task) id
                         then patchTask task updates
                         else ret task)
                      (AppState.tasks state) in
      ret (with_tasks state ts)
  | DELETE_TASK payload =>
      ret (with_tasks state
             (List.filter (fun task => negb (String.eqb (Task.id task) payload))
                          (AppState.tasks state)))
  | REORDER_TASKS payload =>
      ret (with_tasks state payload)
  | UPDATE_TASK_STATUS id status completionComment =>
      let! ts := mapM (fun task =>
                         if String.eqb (Task.id task) id
                         then stampStatus task status
                                (or_empty completionComment)
                         else ret task)
                      (AppState.tasks state) in
      ret (with_tasks state ts)
  | SET_CATEGORIES payload =>
      ret (with_categories state payload)
  | ADD_CATEGORY payload =>
      ret (with_categories state (AppState.categories state ++ [payload]))
  | UPDATE_CATEGORY payload =>
      ret (with_categories state
             (List.map (fun c =>
                          if String.eqb (Category.id c) (Category.id payload)
                          then payload else c)
                       (AppState.categories state)))
  | DELETE_CATEGORY payload =>
      ret (with_categories state
             (List.filter
                (fun c => negb (String.eqb (Category.id c) payload))
                (AppState.categories state)))
  | SET_SETTINGS payload =>
      ret (with_settings state payload)
  | UPDATE_SETTINGS payload =>
      ret (with_settings state (patchSettings (AppState.settings state) payload))
  | SET_UI_STATE payload =>
      ret (with_ui state (patchUI (AppState.ui state) payload))
  | OPEN_TASK_FORM payload =>
      ret (with_ui state
             (UIState.mk true
                (UIState.isCategoryManagerOpen (AppState.ui state))
                payload
                (UIState.filter (AppState.ui state))))
  | CLOSE_TASK_FORM =>
      ret (with_ui state
             (UIState.mk false
                (UIState.isCategoryManagerOpen (AppState.ui state))
                None
                (UIState.filter (AppState.ui state))))
  | OPEN_CATEGORY_MANAGER =>
      ret (with_ui state
             (UIState.mk (UIState.isTaskFormOpen (AppState.ui state))
                true
                (UIState.editingTask (AppState.ui state))
                (UIState.filter (AppState.ui state))))
  | CLOSE_CATEGORY_MANAGER =>
      ret (with_ui state
             (UIState.mk (UIState.isTaskFormOpen (AppState.ui state))
                false
                (UIState.editingTask (AppState.ui state))
                (UIState.filter (AppState.ui state))))
  | SET_FILTER payload =>
      ret (with_ui state
             (UIState.mk (UIState.isTaskFormOpen (AppState.ui state))
                (UIState.isCategoryManagerOpen (AppState.ui state))
                (UIState.editingTask (AppState.ui state))
                (patchFilter (UIState.filter (AppState.ui state)) payload)))
  end.

(** ** The local-storage stores ([src/hooks/useStorage.ts])

    [useLocalStorage] keeps a value in component state and writes its JSON
    text under a key; a failed write is logged and ignored.  A store is
    modelled by the value it holds, and an updater passed to the setter by
    the function it applies to that value. *)

(** [Array.prototype.findIndex]; [None] is the source's [-1]. *)
Fixpoint findIndex {A} (p : A -> bool) (l : list A) : option nat :=
  match l with
  | [] => None
  | x :: xs => if p x then Some 0%nat else S <$> findIndex p xs
  end.

Module TaskStorage.

Definition saveTask (task : Task) (currentTasks : list Task)
  : IO (list Task) :=
  match findIndex (fun t => String.eqb (Task.id t) (Task.id task))
                  currentTasks with
  | Some existingIndex =>
      let! now := new_Date in
      ret (<[existingIndex :=
               Task.mk (Task.id task) (Task.title task)
                 (Task.description task) (Task.priority task)
                 (Task.category task) (Task.status task)
                 (Task.completionComment task) (Task.createdAt task)
                 now (Task.completedAt task) (Task.order task)
                 (Task.tags task)]> currentTasks)
  | None => ret (currentTasks ++ [task])
  end.

Definition deleteTask (taskId : string) (currentTasks : list Task)
  : list Task :=
  List.filter (fun task => negb (String.eqb (Task.id task) taskId))
              currentTasks.

(** [completionComment = ''] is a default parameter: an omitted argument
    is the empty string. *)
Definition updateTaskStatus (taskId : string) (status : Status)
    (completionComment : option string) (currentTasks : list Task)
  : IO (list Task) :=
  mapM (fun task =>
          if String.eqb (Task.id task) taskId
          then stampStatus task status (or_empty completionComment)
          else ret task)
       currentTasks.

(** The store is replaced by the renumbered list, whatever it held. *)
Definition reorderTasks (reorderedTasks : list Task) : IO (list Task) :=
  imapM (fun task index =>
           let! now := new_Date in
           ret (Task.mk (Task.id task) (Task.title task)
                  (Task.description task) (Task.priority task)
                  (Task.category task) (Task.status task)
                  (Task.completionComment task) (Task.createdAt task)
                  now (Task.completedAt task) (Z.of_nat index)
                  (Task.tags task)))
        reorderedTasks.

End TaskStorage.

Module CategoryStorage.

(** The stored list when the key is absent. *)
Definition initialCategories : IO (list Category) :=
  let! now := new_Date in
  ret [Category.mk "default" "未分類" "#a4b0be"
         (Some "デフォルトカテゴリー") now 0].

Definition saveCategory (category : Category)
    (currentCategories : list Category) : list Category :=
  match findIndex (fun c => String.eqb (Category.id c) (Category.id category))
                  currentCategories with
  | Some existingIndex => <[existingIndex := category]> currentCategories
  | None => currentCategories ++ [category]
  end.

(** The default category is refused: a warning is logged and the store
    is left as it is. *)
Definition deleteCategory (categoryId : string)
    (currentCategories : list Category) : list Category :=
  if String.eqb categoryId "default"
  then currentCategories
  else List.filter (fun c => negb (String.eqb (Category.id c) categoryId))
                   currentCategories.

End CategoryStorage.

(** ** The task and category hooks ([src/hooks/useTasks.ts])

    A hook call acts on the application state (through [dispatch]) and on
    the stores.  [dispatch] queues an action; React runs the reducer on the
    queued actions in order, so a sequence of dispatches is a left fold of
    [appReducer].  The state a hook reads ([state.tasks]) is the state the
    queued actions are applied to.  A hook's effects are run here in source
    order; nothing below depends on which of a dispatch and a store update
    reads the clock first.

    The application state is shared through the context.  The stores are
    not: every component that calls [useTasks] or [useCategories] has its
    own [useLocalStorage] value, read from localStorage when the component
    mounted and changed afterwards by that component's writes only.  A
    [System] is what one call of a hook sees and changes: the shared state,
    the calling component's two values, and what localStorage holds under
    the two keys.  The setter applies an updater to the component's value
    and writes the result over whatever localStorage held; localStorage is
    taken to accept the write. *)

Record System := mkSystem {
  appState : AppState;
  taskStore : list Task;           (* the calling component's [tasks] *)
  categoryStore : list Category;   (* the calling component's [categories] *)
  savedTasks : list Task;          (* localStorage, key 'todo-tasks' *)
  savedCategories : list Category  (* localStorage, key 'todo-categories' *)
}.

(** [setStoredValue] of the component's [useLocalStorage('todo-tasks')]:
    the value becomes the component's own and its text replaces the stored
    one. *)
Definition setTasks (valueToStore : list Task) (sys : System) : System :=
  mkSystem (appState sys) valueToStore (categoryStore sys)
           valueToStore (savedCategories sys).

(** The same for [useLocalStorage('todo-categories')]. *)
Definition setCategories (valueToStore : list Category) (sys : System)
  : System :=
  mkSystem (appState sys) (taskStore sys) valueToStore
           (savedTasks sys) valueToStore.


Inductive Outcome := Resolved | Rejected (message : string).

Definition dispatch (action : AppAction) (sys : System) : IO System :=
  let! st := appReducer (appState sys) action in
  ret (mkSystem st (taskStore sys) (categoryStore sys)
                 (savedTasks sys) (savedCategories sys)).

Fixpoint dispatchAll (actions : list AppAction) (sys : System) : IO System :=
  match actions with
  | [] => ret sys
  | a :: rest => let! sys' := dispatch a sys in dispatchAll rest sys'
  end.

Module useTasks.

Definition addTask (input : CreateTaskInput) (sys : System)
  : IO (Task * System) :=
  let! newTask := createTask input in
  let! stored := TaskStorage.saveTask newTask (taskStore sys) in
  let! sys' := dispatch (ADD_TASK newTask) (setTasks stored sys) in
  ret (newTask, sys').

(** The task handed to the store is the one of the state the hook was
    rendered with, patched once more. *)
Definition updateTask (id : string) (updates : UpdateTaskInput) (sys : System)
  : IO System :=
  let! sys' := dispatch (UPDATE_TASK id updates) sys in
  match List.find (fun task => String.eqb (Task.id task) id)
                  (AppState.tasks (appState sys)) with
  | Some updatedTask =>
      let! patched := patchTask updatedTask updates in
      let! stored := TaskStorage.saveTask patched (taskStore sys') in
      ret (setTasks stored sys')
  | None => ret sys'
  end.

Definition deleteTask (id : string) (sys : System) : IO System :=
  dispatch (DELETE_TASK id)
           (setTasks (TaskStorage.deleteTask id (taskStore sys)) sys).

(** [completionComment = ''] is a default parameter here too. *)
Definition updateTaskStatus (id : string) (status : Status)
    (completionComment : option string) (sys : System) : IO System :=
  let comment := or_empty completionComment in
  let! stored := TaskStorage.updateTaskStatus id status (Some comment)
                   (taskStore sys) in
  dispatch (UPDATE_TASK_STATUS id status (Some comment))
           (setTasks stored sys).

Definition reorderTaskList (reorderedTasks : list Task) (sys : System)
  : IO System :=
  let! stored := TaskStorage.reorderTasks reorderedTasks in
  dispatch (REORDER_TASKS reorderedTasks) (setTasks stored sys).

End useTasks.

Module useCategories.

Definition moveToDefault : UpdateTaskInput :=
  UpdateTaskInput.mk None None None (Some "default") None None None None
                     None None.

(** [deleteCategory].  The [throw] for the default category happens
    before any dispatch; the [catch] logs and rethrows, so the promise is
    rejected and nothing was touched. *)
Definition deleteCategory (id : string) (sys : System)
  : IO (Outcome * System) :=
  if String.eqb id "default"
  then ret (Rejected "デフォルトカテゴリーは削除できません", sys)
  else
    let tasksToUpdate :=
      List.filter (fun task => String.eqb (Task.category task) id)
                  (AppState.tasks (appState sys)) in
    let! sys1 := dispatchAll
                   (List.map (fun task =>
                                UPDATE_TASK (Task.id task) moveToDefault)
                             tasksToUpdate)
                   sys in
    let sys2 := setCategories
                  (CategoryStorage.deleteCategory id (categoryStore sys1))
                  sys1 in
    let! sys3 := dispatch (DELETE_CATEGORY id) sys2 in
    ret (Resolved, sys3).

End useCategories.

(** ** Strings of the JavaScript runtime

    A string is held as the bytes of its UTF-8 text.  [includes] and
    [trim] are computed on those bytes; since UTF-8 is self-synchronising
    this is the substring test, and the white-space stripping, on the
    characters.  [toLowerCase] and [localeCompare] depend on the Unicode
    tables and the locale of the runtime and are taken as parameters
    further down. *)

Definition truthy (s : string) : bool := negb (String.eqb s "").

(** [s.includes(q)] *)
Fixpoint includes (s q : string) : bool :=
  String.prefix q s ||
  match s with
  | EmptyString => false
  | String _ s' => includes s' q
  end.

Definition utf8 (bytes : list nat) : string :=
  string_of_list_ascii (List.map ascii_of_nat bytes).

(** WhiteSpace and LineTerminator of ECMAScript: TAB, LF, VT, FF, CR, SP,
    U+00A0, U+1680, U+2000..U+200A, U+2028, U+2029, U+202F, U+205F, U+3000,
    U+FEFF. *)
Definition whiteSpace : list string :=
  List.map utf8
    [ [9]; [10]; [11]; [12]; [13]; [32]; [194; 160]; [225; 154; 128];
      [226; 128; 128]; [226; 128; 129]; [226; 128; 130]; [226; 128; 131];
      [226; 128; 132]; [226; 128; 133]; [226; 128; 134]; [226; 128; 135];
      [226; 128; 136]; [226; 128; 137]; [226; 128; 138];
      [226; 128; 168]; [226; 128; 169]; [226; 128; 175]; [226; 129; 159];
      [227; 128; 128]; [239; 187; 191] ]%nat.

Fixpoint dropPrefix (p s : string) : option string :=
  match p, s with
  | EmptyString, _ => Some s
  | String a p', String b s' => if Ascii.eqb a b then dropPrefix p' s' else None
  | String _ _, EmptyString => None
  end.

Definition dropOne (toks : list string) (s : string) : option string :=
  List.fold_right
    (fun t acc => match dropPrefix t s with Some r => Some r | None => acc end)
    None toks.

Fixpoint dropLeading (fuel : nat) (toks : list string) (s : string) : string :=
  match fuel with
  | O => s
  | S fuel' =>
      match dropOne toks s with
      | Some r => dropLeading fuel' toks r
      | None => s
      end
  end.

Definition reverseString (s : string) : string :=
  string_of_list_ascii (List.rev (list_ascii_of_string s)).

Definition trimStart (s : string) : string :=
  dropLeading (String.length s) whiteSpace s.

Definition trimEnd (s : string) : string :=
  reverseString (dropLeading (String.length s) (List.map reverseString whiteSpace)
                       (reverseString s)).

(** [s.trim()] *)
Definition trim (s : string) : string := trimEnd (trimStart s).

(** ** [Array.prototype.sort]

    The sort is stable (ECMAScript 2019), and an element [a] comes before
    [b] when [comparefn(a, b) < 0].  For a consistent comparator the result
    is fixed by that contract, whatever algorithm the engine runs; it is
    computed here by stable insertion. *)
Section Sort.
Context {A : Type}.
Variable comparefn : A -> A -> Z.

Fixpoint insertSorted (x : A) (l : list A) : list A :=
  match l with
  | [] => [x]
  | y :: l' => if comparefn x y <=? 0 then x :: y :: l' else y :: insertSorted x l'
  end.

Fixpoint sort (l : list A) : list A :=
  match l with
  | [] => []
  | x :: l' => insertSorted x (sort l')
  end.

(** Neighbours are in order: no element is strictly after its successor. *)
Fixpoint ordered (l : list A) : Prop :=
  match l with
  | [] => True
  | x :: l' =>
      match l' with
      | [] => True
      | y :: _ => comparefn x y <= 0
      end /\ ordered l'
  end.
End Sort.

(** ** The derived view ([useFilteredTasks] in [src/hooks/useTasks.ts]) *)

Section DerivedView.

(** [String.prototype.toLowerCase] and [String.prototype.localeCompare] *)
Variable toLowerCase : string -> string.
Variable localeCompare : string -> string -> Z.

Definition priorityOrder (p : Priority) : Z :=
  match p with
  | high => 3
  | medium => 2
  | low => 1
  end.

(** The comparator handed to [sort].  ['dueDate'] falls to the [default]
    branch of the [switch]. *)
Definition compareTasks (settings : Settings) (a b : Task) : Z :=
  let comparison :=
    match Settings.sortBy settings with
    | by_title => localeCompare (Task.title a) (Task.title b)
    | by_priority =>
        priorityOrder (Task.priority b) - priorityOrder (Task.priority a)
    | by_createdAt => Task.createdAt b - Task.createdAt a
    | by_dueDate => Task.order a - Task.order b
    end in
  match Settings.sortOrder settings with
  | desc => comparison
  | asc => - comparison
  end.

Definition matchesQuery (query : string) (task : Task) : bool :=
  includes (toLowerCase (Task.title task)) query
  || includes (toLowerCase (Task.description task)) query
  || List.existsb (fun tag => includes (toLowerCase tag) query)
                  (Task.tags task).

Definition filteredTasks (state : AppState) : list Task :=
  let tasks := AppState.tasks state in
  let filter := UIState.filter (AppState.ui state) in
  let settings := AppState.settings state in
  let filtered := tasks in
  let filtered :=
    match Filter.status filter with
    | Some s =>
        List.filter (fun task => Status_eqb (Task.status task) s) filtered
    | None => filtered
    end in
  let filtered :=
    if negb (String.eqb (Filter.category filter) "all")
    then List.filter (fun task => String.eqb (Task.category task)
                                             (Filter.category filter))
                     filtered
    else filtered in
  let filtered :=
    match Filter.priority filter with
    | Some p =>
        List.filter (fun task => Priority_eqb (Task.priority task) p) filtered
    | None => filtered
    end in
  let filtered :=
    if truthy (trim (Filter.searchQuery filter))
    then let query := toLowerCase (Filter.searchQuery filter) in
         List.filter (matchesQuery query) filtered
    else filtered in
  let filtered :=
    if negb (Settings.showCompleted settings)
    then List.filter (fun task => negb (Status_eqb (Task.status task) completed))
                     filtered
    else filtered in
  sort (compareTasks settings) filtered.

(** A task passes every active criterion. *)
Definition visible (filter : Filter) (settings : Settings) (task : Task)
  : bool :=
  match Filter.status filter with
  | Some s => Status_eqb (Task.status task) s
  | None => true
  end
  && (if negb (String.eqb (Filter.category filter) "all")
      then String.eqb (Task.category task) (Filter.category filter)
      else true)
  && match Filter.priority filter with
     | Some p => Priority_eqb (Task.priority task) p
     | None => true
     end
  && (if truthy (trim (Filter.searchQuery filter))
      then matchesQuery (toLowerCase (Filter.searchQuery filter)) task
      else true)
  && (if negb (Settings.showCompleted settings)
      then negb (Status_eqb (Task.status task) completed)
      else true).

End DerivedView.

(** ** JavaScript numbers

    A [number] is an IEEE-754 binary64 value; the operations are those of
    the Rocq standard library's executable specification of floating-point
    arithmetic. *)

Module Number.

Definition prec : Z := 53.
Definition emax : Z := 1024.

(** The number denoted by a natural number (exact below [2^53]). *)
Definition of_N (n : N) : spec_float :=
  binary_normalize prec emax (Z.of_N n) 0 false.

Definition div : spec_float -> spec_float -> spec_float := SFdiv prec emax.
Definition mul : spec_float -> spec_float -> spec_float := SFmul prec emax.

(** [Math.round]: the nearest integer, a tie going up; the sign of a zero
    result is the sign of the argument. *)
Definition round (x : spec_float) : spec_float :=
  match x with
  | S754_finite s m e =>
      if 0 <=? e then x
      else
        let k := - e in
        let n := if s then Z.neg m else Z.pos m in
        let r := (2 * n + 2 ^ k) / 2 ^ (k + 1) in
        if r =? 0 then S754_zero s
        else binary_normalize prec emax r 0 false
  | _ => x
  end.

(** The integer a finite number denotes when it denotes one. *)
Definition to_Z (x : spec_float) : option Z :=
  match x with
  | S754_zero _ => Some 0
  | S754_finite s m e =>
      let sign := fun v => if s then - v else v in
      if 0 <=? e then Some (sign (Z.pos m * 2 ^ e))
      else if Z.pos m mod 2 ^ (- e) =? 0
           then Some (sign (Z.pos m / 2 ^ (- e)))
           else None
  | _ => None
  end.

(** [x > y]; false when either is NaN. *)
Definition gt (x y : spec_float) : bool := SFltb y x.

(** The decimal numeral of a natural number: what [Number::toString]
    gives for the length of an array. *)
Definition decimal (n : N) : string :=
  DecimalString.NilZero.string_of_uint (N.to_uint n).

End Number.

(** ** The share formatter ([src/hooks/useTwitterShare.ts]) *)

Module statusConfig.
Definition label (s : Status) : string :=
  match s with
  | todo => "未実行"
  | in_progress => "実行中"
  | completed => "完了"
  end.
Definition emoji (s : Status) : string :=
  match s with
  | todo => "📝"
  | in_progress => "⚡"
  | completed => "✅"
  end.
End statusConfig.

(** The line feed of a template literal's [\n]. *)
Definition LF : string := String (ascii_of_nat 10) EmptyString.

(** [Array.prototype.join] *)
Definition join (sep : string) (l : list string) : string :=
  String.concat sep l.

Definition appHashtags : string := " #TodoApp #生産性向上".

Definition formatTaskForShare (task : Task) : string :=
  let statusEmoji := statusConfig.emoji (Task.status task) in
  let statusText := statusConfig.label (Task.status task) in
  let text :=
    (statusEmoji ++ " " ++ Task.title task ++ " - " ++ statusText)%string in
  let text :=
    if (0 <? length (Task.tags task))%nat
    then let hashtags :=
           join " " (List.map (fun tag => ("#" ++ tag)%string) (Task.tags task)) in
         (text ++ LF ++ LF ++ hashtags)%string
    else text in
  let text :=
    if Status_eqb (Task.status task) completed
       && truthy (Task.completionComment task)
    then (text ++ LF ++ LF ++ "💭 " ++ Task.completionComment task)%string
    else text in
  (text ++ appHashtags)%string.

(** The rate computed by [formatProgressReport]; its arguments are
    numbers. *)
Definition completionRate (totalTasks completedTasks : spec_float)
  : spec_float :=
  if Number.gt totalTasks (Number.of_N 0)
  then Number.round
         (Number.mul (Number.div completedTasks totalTasks) (Number.of_N 100))
  else Number.of_N 0.

Section ProgressReport.

(** [Number::toString], which the template literal applies to each number
    it prints: the shortest decimal text that reads back as the number, in
    exponent notation from [10^21] on.  It is a parameter. *)
Variable Number_toString : spec_float -> string.

Definition formatProgressReport
    (totalTasks completedTasks inProgressTasks : spec_float) : string :=
  ("📊 今日の進捗報告" ++ LF ++
   "✅ 完了: " ++ Number_toString completedTasks ++ "件" ++ LF ++
   "⚡ 実行中: " ++ Number_toString inProgressTasks ++ "件" ++ LF ++
   "📝 全体: " ++ Number_toString totalTasks ++ "件" ++ LF ++
   "🎯 達成率: "
     ++ Number_toString (completionRate totalTasks completedTasks) ++ "%" ++ LF ++
   LF ++
   "#TodoApp #生産性向上 #進捗報告")%string.

End ProgressReport.

(** * The rest of the code *)

(** ** Categories: creation and the category hooks *)

(** [Omit<Category, 'id' | 'createdAt' | 'taskCount'>] *)
Module CreateCategoryInput.
Record t := mk {
  name : string;
  color : string;
  description : option string
}.
End CreateCategoryInput.
Abbreviation CreateCategoryInput := CreateCategoryInput.t.

(** [createCategory] ([src/types/index.ts]) *)
Definition createCategory (input : CreateCategoryInput) : IO Category :=
  let! uuid := randomUUID in
  let! created := new_Date in
  ret (Category.mk uuid
         (CreateCategoryInput.name input)
         (CreateCategoryInput.color input)
         (CreateCategoryInput.description input)
         created 0).

(** [getCategoryById] of the category store; [None] is [undefined]. *)
Definition CategoryStorage_getCategoryById (categories : list Category)
    (categoryId : string) : option Category :=
  List.find (fun category => String.eqb (Category.id category) categoryId)
            categories.

(** [addCategory] of [useCategories]: the object literal is that of
    [createCategory]. *)
Definition useCategories_addCategory (categoryData : CreateCategoryInput)
    (sys : System) : IO (Category * System) :=
  let! newCategory := createCategory categoryData in
  let stored := CategoryStorage.saveCategory newCategory (categoryStore sys) in
  let! sys' := dispatch (ADD_CATEGORY newCategory)
                 (setCategories stored sys) in
  ret (newCategory, sys').

(** [updateCategory] of [useCategories] *)
Definition useCategories_updateCategory (updatedCategory : Category)
    (sys : System) : IO System :=
  let stored := CategoryStorage.saveCategory updatedCategory (categoryStore sys) in
  dispatch (UPDATE_CATEGORY updatedCategory) (setCategories stored sys).

(** ** The task counts of the provider ([TodoProvider], the effect on
       [state.tasks] and [state.categories]) *)

Module TodoProvider.

Definition taskCountOf (tasks : list Task) (categoryId : string) : Z :=
  Z.of_nat (length (List.filter
                      (fun task => String.eqb (Task.category task) categoryId)
                      tasks)).

Definition updatedCategories (state : AppState) : list Category :=
  List.map (fun category =>
              let taskCount :=
                taskCountOf (AppState.tasks state) (Category.id category) in
              Category.mk (Category.id category) (Category.name category)
                (Category.color category) (Category.description category)
                (Category.createdAt category) taskCount)
           (AppState.categories state).

(** [Array.prototype.some] with the index passed to the callback, counted
    from [i]. *)
Fixpoint somei_from {A} (i : nat) (p : A -> nat -> bool) (l : list A) : bool :=
  match l with
  | [] => false
  | x :: xs => p x i || somei_from (S i) p xs
  end.

(** [state.categories[index]?.taskCount] is [undefined] out of range, and
    [undefined] differs from every number. *)
Definition hasChanges (state : AppState) : bool :=
  somei_from 0
    (fun category index =>
       match AppState.categories state !! index with
       | Some old => negb (Category.taskCount category =? Category.taskCount old)
       | None => true
       end)
    (updatedCategories state).

(** One run of the effect. *)
Definition syncTaskCounts (state : AppState) : IO AppState :=
  if hasChanges state
  then appReducer state (SET_CATEGORIES (updatedCategories state))
  else ret state.

End TodoProvider.

(** ** The counts of [useFilteredTasks] and the filter hook [useUI] *)

Module useFilteredTasks.

Definition countStatus (s : Status) (tasks : list Task) : nat :=
  length (List.filter (fun task => Status_eqb (Task.status task) s) tasks).

Definition totalTasks (state : AppState) : nat :=
  length (AppState.tasks state).

Definition completedTasks (state : AppState) : nat :=
  countStatus completed (AppState.tasks state).

Definition inProgressTasks (state : AppState) : nat :=
  countStatus in_progress (AppState.tasks state).

Definition todoTasks (state : AppState) : nat :=
  countStatus todo (AppState.tasks state).

End useFilteredTasks.

Module useUI.

Definition setFilter (filterUpdates : PartialFilter.t) (sys : System)
  : IO System :=
  dispatch (SET_FILTER filterUpdates) sys.

Definition clearFilters (sys : System) : IO System :=
  dispatch (SET_FILTER
              (PartialFilter.mk (Some None) (Some "all") (Some None) (Some "")))
           sys.

Definition closeTaskForm (sys : System) : IO System :=
  dispatch CLOSE_TASK_FORM sys.

End useUI.

(** ** The persistent store ([useLocalStorage], [useDataManagement])

    [localStorage] maps keys to texts.  The values written are JSON texts;
    what [JSON.parse] returns is untyped, and the hooks use it as it comes.
    [JSON.parse], [JSON.stringify], [Date.prototype.toISOString] and the
    browser's decision to take or refuse a write (it throws when the quota
    is exceeded) are parameters. *)

#[local] Set Warnings "-register-all".
Inductive JSON :=
  | JNull
  | JBool (b : bool)
  | JNumber (x : spec_float)
  | JString (s : string)
  | JArray (items : list JSON)
  | JObject (fields : list (string * JSON)).
#[local] Set Warnings "register-all".

(** Truthiness of a value; [None] is [undefined]. *)
Definition JSON_truthy (v : option JSON) : bool :=
  match v with
  | None | Some JNull => false
  | Some (JBool b) => b
  | Some (JNumber (S754_zero _)) | Some (JNumber S754_nan) => false
  | Some (JNumber _) => true
  | Some (JString s) => truthy s
  | Some (JArray _) | Some (JObject _) => true
  end.

(** [Array.isArray] *)
Definition isArray (v : option JSON) : bool :=
  match v with
  | Some (JArray _) => true
  | _ => false
  end.

Fixpoint lookupField (fields : list (string * JSON)) (key : string)
  : option JSON :=
  match fields with
  | [] => None
  | (k, v) :: rest => if String.eqb k key then Some v else lookupField rest key
  end.

(** [v.key] for a key that is no built-in property: reading it off [null]
    throws (the outer [None]); off an object it is the field, or
    [undefined]; off anything else it is [undefined].  The keys of a parsed
    object are distinct. *)
Definition getProperty (v : JSON) (key : string) : option (option JSON) :=
  match v with
  | JNull => None
  | JObject fields => Some (lookupField fields key)
  | _ => Some None
  end.

(** [x || fallback] *)
Definition JSON_or (v : option JSON) (fallback : JSON) : JSON :=
  match v with
  | Some x => if JSON_truthy v then x else fallback
  | None => fallback
  end.

Definition Storage : Type := string -> option string.

Definition getItem (storage : Storage) (key : string) : option string :=
  storage key.

Definition putItem (key value : string) (storage : Storage) : Storage :=
  fun k => if String.eqb k key then Some value else storage k.

Definition removeItem (key : string) (storage : Storage) : Storage :=
  fun k => if String.eqb k key then None else storage k.

(** [getItem(key) || fallback] *)
Definition item_or (item : option string) (fallback : string) : string :=
  match item with
  | Some s => if truthy s then s else fallback
  | None => fallback
  end.

(** The argument of the setter: a value, or a function of the current one. *)
Inductive SetStateAction :=
  | Plain (newValue : JSON)
  | Updater (f : JSON -> JSON).

Section PersistentStore.

Variable JSON_parse : string -> option JSON.       (* [None]: SyntaxError *)
Variable JSON_stringify : JSON -> string.
Variable JSON_stringify_pretty : JSON -> string.   (* [stringify(v, null, 2)] *)
Variable toISOString : Date -> string.
Variable accepts : Storage -> string -> string -> bool.

(** [localStorage.setItem]; [None] when it throws. *)
Definition setItem (storage : Storage) (key value : string) : option Storage :=
  if accepts storage key value then Some (putItem key value storage) else None.

(** The initial value of [useLocalStorage]. *)
Definition readStored (key : string) (initialValue : JSON) (storage : Storage)
  : JSON :=
  match getItem storage key with
  | Some item =>
      if truthy item
      then match JSON_parse item with
           | Some v => v
           | None => initialValue
           end
      else initialValue
  | None => initialValue
  end.

(** [setStoredValue]: the hook's value is set before the write is tried; a
    refused write is logged and nothing else happens. *)
Definition setStoredValue (key : string) (newValue : SetStateAction)
    (value : JSON) (storage : Storage) : JSON * Storage :=
  let valueToStore :=
    match newValue with
    | Plain v => v
    | Updater f => f value
    end in
  match setItem storage key (JSON_stringify valueToStore) with
  | Some storage' => (valueToStore, storage')
  | None => (valueToStore, storage)
  end.

(** The document [exportData] builds from the three stored texts. *)
Definition exportDocument (tasks categories settings : JSON) (now : Date)
  : JSON :=
  JObject [("tasks", tasks); ("categories", categories);
           ("settings", settings);
           ("exportedAt", JString (toISOString now));
           ("version", JString "1.0")].

(** [exportData]: the text of the downloaded file, or [None] when a stored
    text does not parse and the function throws.  The clock is read a
    second time for the name of the file. *)
Definition exportData (storage : Storage) : IO (option string) :=
  match JSON_parse (item_or (getItem storage "todo-tasks") "[]") with
  | None => ret None
  | Some tasks =>
      match JSON_parse (item_or (getItem storage "todo-categories") "[]") with
      | None => ret None
      | Some categories =>
          match JSON_parse (item_or (getItem storage "todo-settings") "{}") with
          | None => ret None
          | Some settings =>
              let! now := new_Date in
              let dataStr :=
                JSON_stringify_pretty
                  (exportDocument tasks categories settings now) in
              let! today := new_Date in
              ret (Some dataStr)
          end
      end
  end.

Definition importFailed : Outcome := Rejected "データのインポートに失敗しました".

(** [importData] on the text of the chosen file.  Every failure -- a text
    that does not parse, a document without an array under [tasks], a
    refused write -- ends in the same rejection; the writes made before a
    refused one stay. *)
Definition importData (text : string) (storage : Storage) : Outcome * Storage :=
  match JSON_parse text with
  | None => (importFailed, storage)
  | Some importData =>
      match getProperty importData "tasks" with
      | None => (importFailed, storage)
      | Some tasks =>
          if negb (JSON_truthy tasks) || negb (isArray tasks)
          then (importFailed, storage)
          else
            match tasks with
            | None => (importFailed, storage)
            | Some tasksValue =>
                match setItem storage "todo-tasks"
                        (JSON_stringify tasksValue) with
                | None => (importFailed, storage)
                | Some s1 =>
                    match setItem s1 "todo-categories"
                            (JSON_stringify
                               (JSON_or
                                  (default None
                                     (getProperty importData "categories"))
                                  (JArray []))) with
                    | None => (importFailed, s1)
                    | Some s2 =>
                        match setItem s2 "todo-settings"
                                (JSON_stringify
                                   (JSON_or
                                      (default None
                                         (getProperty importData "settings"))
                                      (JObject []))) with
                        | None => (importFailed, s2)
                        | Some s3 => (Resolved, s3)
                        end
                    end
                end
            end
      end
  end.

(** [clearAllData] *)
Definition clearAllData (storage : Storage) : Storage :=
  removeItem "todo-settings"
    (removeItem "todo-categories" (removeItem "todo-tasks" storage)).

End PersistentStore.

(** ** The forms and handlers of the components

    [s.length] counts UTF-16 code units.  On the UTF-8 text of a string
    that is one unit for each character of one to three bytes and two for
    each character of four. *)

Definition codeUnits (c : ascii) : nat :=
  let b := nat_of_ascii c in
  if (b <? 128)%nat then 1%nat
  else if (b <? 192)%nat then 0%nat
  else if (b <? 240)%nat then 1%nat
  else 2%nat.

Fixpoint jsLength (s : string) : nat :=
  match s with
  | EmptyString => 0%nat
  | String c s' => (codeUnits c + jsLength s')%nat
  end.

Module ValidationErrors.
Record t := mk {
  title : option string;
  description : option string;
  category : option string
}.
(** [Object.keys(newErrors).length === 0] *)
Definition none (e : t) : bool :=
  match title e, description e, category e with
  | None, None, None => true
  | _, _, _ => false
  end.
End ValidationErrors.
Abbreviation ValidationErrors := ValidationErrors.t.

Module TaskFormData.
Record t := mk {
  title : string;
  description : string;
  priority : Priority;
  category : string;
  tags : list string
}.
End TaskFormData.
Abbreviation TaskFormData := TaskFormData.t.

(** [TaskForm] ([src/components/TaskForm/TaskForm.tsx]) *)
Module TaskForm.

Definition validateForm (formData : TaskFormData) : ValidationErrors :=
  ValidationErrors.mk
    (if negb (truthy (trim (TaskFormData.title formData)))
     then Some "タイトルは必須です"
     else if (100 <? jsLength (TaskFormData.title formData))%nat
          then Some "タイトルは100文字以内で入力してください"
          else None)
    (if (500 <? jsLength (TaskFormData.description formData))%nat
     then Some "説明は500文字以内で入力してください"
     else None)
    (if negb (truthy (TaskFormData.category formData))
     then Some "カテゴリーを選択してください"
     else None).

(** [handleTagAdd]: the form data and the text of the tag input after a
    key press. *)
Definition handleTagAdd (key : string) (tagInput : string)
    (formData : TaskFormData) : TaskFormData * string :=
  if String.eqb key "Enter" || String.eqb key ","
  then
    let newTag := trim tagInput in
    if truthy newTag
       && negb (List.existsb (String.eqb newTag) (TaskFormData.tags formData))
       && (length (TaskFormData.tags formData) <? 10)%nat
    then (TaskFormData.mk (TaskFormData.title formData)
            (TaskFormData.description formData)
            (TaskFormData.priority formData)
            (TaskFormData.category formData)
            (TaskFormData.tags formData ++ [newTag]),
          "")
    else (formData, tagInput)
  else (formData, tagInput).

Definition handleTagRemove (tagToRemove : string) (formData : TaskFormData)
  : TaskFormData :=
  TaskFormData.mk (TaskFormData.title formData)
    (TaskFormData.description formData)
    (TaskFormData.priority formData)
    (TaskFormData.category formData)
    (List.filter (fun tag => negb (String.eqb tag tagToRemove))
                 (TaskFormData.tags formData)).

(** The [taskData] of [handleSubmit]. *)
Definition taskData (formData : TaskFormData) : CreateTaskInput :=
  CreateTaskInput.mk (trim (TaskFormData.title formData))
    (trim (TaskFormData.description formData))
    (TaskFormData.priority formData)
    (TaskFormData.category formData)
    todo "" (TaskFormData.tags formData).

(** A [CreateTaskInput] passed where an [UpdateTaskInput] is expected: every
    key it has is present. *)
Definition asUpdates (input : CreateTaskInput) : UpdateTaskInput :=
  UpdateTaskInput.mk
    (Some (CreateTaskInput.title input))
    (Some (CreateTaskInput.description input))
    (Some (CreateTaskInput.priority input))
    (Some (CreateTaskInput.category input))
    (Some (CreateTaskInput.status input))
    (Some (CreateTaskInput.completionComment input))
    None None None
    (Some (CreateTaskInput.tags input)).

(** [handleSubmit]; [task] is the task being edited, if any.  The errors
    returned are those shown; with errors nothing else happens. *)
Definition handleSubmit (task : option Task) (formData : TaskFormData)
    (sys : System) : IO (ValidationErrors * System) :=
  let errors := validateForm formData in
  if negb (ValidationErrors.none errors)
  then ret (errors, sys)
  else
    let! sys' :=
      match task with
      | Some t => useTasks.updateTask (Task.id t) (asUpdates (taskData formData)) sys
      | None =>
          let! r := useTasks.addTask (taskData formData) sys in
          ret (snd r)
      end in
    let! sys'' := useUI.closeTaskForm sys' in
    ret (errors, sys'').

End TaskForm.

(** [TaskItem] ([src/components/TaskItem/TaskItem.tsx]) *)
Module TaskItem.

(** [handleStatusChange]: for [completed] only the comment form opens (the
    flag returned); any other status is set at once, without a comment. *)
Definition handleStatusChange (task : Task) (newStatus : Status) (sys : System)
  : IO (bool * System) :=
  if Status_eqb newStatus completed
  then ret (true, sys)
  else
    let! sys' := useTasks.updateTaskStatus (Task.id task) newStatus None sys in
    ret (false, sys').

Definition handleComplete (task : Task) (completionComment : string)
    (sys : System) : IO System :=
  useTasks.updateTaskStatus (Task.id task) completed (Some completionComment) sys.

(** [handleDelete]; [confirmed] is the answer to [window.confirm]. *)
Definition handleDelete (task : Task) (confirmed : bool) (sys : System)
  : IO System :=
  if confirmed then useTasks.deleteTask (Task.id task) sys else ret sys.

End TaskItem.

Module CategoryFormData.
Record t := mk {
  name : string;
  color : string;
  description : string
}.
End CategoryFormData.
Abbreviation CategoryFormData := CategoryFormData.t.

(** [CategoryManager]
    ([src/components/CategoryManager/CategoryManager.tsx]) *)
Module CategoryManager.

(** [editingCategory?.id]: [None] is [undefined], which no id equals. *)
Definition isDuplicate (formData : CategoryFormData)
    (categories : list Category) (editingCategory : option Category) : bool :=
  List.existsb
    (fun category =>
       String.eqb (Category.name category) (trim (CategoryFormData.name formData))
       && match editingCategory with
          | Some e => negb (String.eqb (Category.id category) (Category.id e))
          | None => true
          end)
    categories.

(** The duplicate check comes after the checks of the name and replaces
    their message. *)
Definition validateForm (formData : CategoryFormData)
    (categories : list Category) (editingCategory : option Category)
  : ValidationErrors :=
  let title :=
    if negb (truthy (trim (CategoryFormData.name formData)))
    then Some "カテゴリー名は必須です"
    else if (50 <? jsLength (CategoryFormData.name formData))%nat
         then Some "カテゴリー名は50文字以内で入力してください"
         else None in
  let title :=
    if isDuplicate formData categories editingCategory
    then Some "このカテゴリー名は既に使用されています"
    else title in
  ValidationErrors.mk
    title
    (if (200 <? jsLength (CategoryFormData.description formData))%nat
     then Some "説明は200文字以内で入力してください"
     else None)
    None.

Definition handleSubmit (formData : CategoryFormData)
    (editingCategory : option Category) (sys : System)
  : IO (ValidationErrors * System) :=
  let errors :=
    validateForm formData (AppState.categories (appState sys)) editingCategory in
  if negb (ValidationErrors.none errors)
  then ret (errors, sys)
  else
    let name := trim (CategoryFormData.name formData) in
    let color := CategoryFormData.color formData in
    let description := trim (CategoryFormData.description formData) in
    match editingCategory with
    | Some e =>
        let! sys' :=
          useCategories_updateCategory
            (Category.mk (Category.id e) name color (Some description)
                         (Category.createdAt e) (Category.taskCount e))
            sys in
        ret (errors, sys')
    | None =>
        let! r := useCategories_addCategory
                    (CreateCategoryInput.mk name color (Some description)) sys in
        ret (errors, snd r)
    end.

(** [handleDelete]; [confirmed] is the answer to [window.confirm], asked
    only for a category other than the default one. *)
Definition handleDelete (category : Category) (confirmed : bool) (sys : System)
  : IO System :=
  if String.eqb (Category.id category) "default"
  then ret sys
  else if confirmed
       then let! r := useCategories.deleteCategory (Category.id category) sys in
            ret (snd r)
       else ret sys.

End CategoryManager.

(** [TodoContent] of [src/App.tsx] *)
Section App.

Variable toLowerCase : string -> string.
Variable localeCompare : string -> string -> Z.

(** [arrayMove] of [@dnd-kit/sortable] *)
Variable arrayMove : list Task -> nat -> nat -> list Task.

(** [handleDragEnd]; [over] is [null] when the task is dropped nowhere. *)
Definition handleDragEnd (active : string) (over : option string)
    (sys : System) : IO System :=
  match over with
  | Some overId =>
      if negb (String.eqb active overId)
      then
        let shown := filteredTasks toLowerCase localeCompare (appState sys) in
        match findIndex (fun task => String.eqb (Task.id task) active) shown,
              findIndex (fun task => String.eqb (Task.id task) overId) shown with
        | Some oldIndex, Some newIndex =>
            useTasks.reorderTaskList (arrayMove shown oldIndex newIndex) sys
        | _, _ => ret sys
        end
      else ret sys
  | None => ret sys
  end.

End App.

(** ** The other share texts ([src/hooks/useTwitterShare.ts]) *)

(** The lines [forEach] appends for the tasks shown, numbered from
    [index + 1]. *)
Fixpoint completionLines (index : nat) (tasksToShow : list Task) : string :=
  match tasksToShow with
  | [] => ""
  | task :: rest =>
      (Number.decimal (N.of_nat (index + 1)) ++ ". ✅ " ++ Task.title task ++ LF
       ++ completionLines (S index) rest)%string
  end.

(** The text [shareMultipleTasksCompletion] posts; [None] when the list is
    empty and the function returns [false] without posting. *)
Definition multipleTasksCompletionText (completedTasks : list Task)
  : option string :=
  if (length completedTasks =? 0)%nat
  then None
  else
    let text :=
      ("🎉 " ++ Number.decimal (N.of_nat (length completedTasks))
       ++ "件のタスクを完了しました！" ++ LF ++ LF)%string in
    let tasksToShow := firstn 3 completedTasks in
    let text := (text ++ completionLines 0 tasksToShow)%string in
    let text :=
      if (3 <? length completedTasks)%nat
      then (text ++ "... 他"
            ++ Number.decimal (N.of_nat (length completedTasks - 3))
            ++ "件" ++ LF)%string
      else text in
    Some (text ++ LF ++ "#TodoApp #生産性向上 #達成感")%string.

(** * The vocabulary of the properties *)

(** [completedAt] is non-null exactly when the status is [completed]. *)
Definition taskInvariant (t : Task) : Prop :=
  is_Some (Task.completedAt t) <-> Task.status t = completed.

Definition stateInvariant (s : AppState) : Prop :=
  Forall taskInvariant (AppState.tasks s).

(** A patch leaves the invariant alone when it sets neither [status] nor
    [completedAt], or sets both to values that agree. *)
Definition patchAgrees (u : UpdateTaskInput) : Prop :=
  match UpdateTaskInput.status u, UpdateTaskInput.completedAt u with
  | None, None => True
  | Some s, Some c => is_Some c <-> s = completed
  | _, _ => False
  end.

(** The tasks an action carries satisfy the invariant, and a patch agrees
    with it. *)
Definition payloadInvariant (a : AppAction) : Prop :=
  match a with
  | SET_TASKS payload | REORDER_TASKS payload => Forall taskInvariant payload
  | ADD_TASK payload => taskInvariant payload
  | UPDATE_TASK _ updates => patchAgrees updates
  | _ => True
  end.

(** What a status transition leaves on a task that was [t]: the new
    status; for [completed] a stamp and the given comment; for any other
    status no stamp and the comment [t] had. *)
Definition transitioned (t : Task) (status : Status) (comment : string)
    (t' : Task) : Prop :=
  Task.id t' = Task.id t /\
  Task.status t' = status /\
  (status = completed ->
     is_Some (Task.completedAt t') /\ Task.completionComment t' = comment) /\
  (status <> completed ->
     Task.completedAt t' = None /\
     Task.completionComment t' = Task.completionComment t).

(** The task the store's [reorderTasks] writes at place [index]. *)
Definition renumbered (task : Task) (index : nat) (now : Date) : Task :=
  Task.mk (Task.id task) (Task.title task) (Task.description task)
    (Task.priority task) (Task.category task) (Task.status task)
    (Task.completionComment task) (Task.createdAt task)
    now (Task.completedAt task) (Z.of_nat index) (Task.tags task).

(** The effect on a task [t] of the UPDATE_TASK actions that move the tasks
    with an id in [ids] to the default category. *)
Definition movedBy (ids : list string) (t t' : Task) : Prop :=
  Task.id t' = Task.id t /\
  (In (Task.id t) ids -> Task.category t' = "default") /\
  (~ In (Task.id t) ids -> t' = t).

Definition moveActions (ts : list Task) : list AppAction :=
  List.map (fun task => UPDATE_TASK (Task.id task) useCategories.moveToDefault) ts.

(** What the task form accepts ([validateForm] and the tag input of
    [TaskForm]): a title that is not blank and has at most 100 characters,
    a description of at most 500, a chosen category, at most 10 tags. *)
Definition validInput (input : CreateTaskInput) : Prop :=
  truthy (trim (CreateTaskInput.title input)) = true /\
  (String.length (CreateTaskInput.title input) <= 100)%nat /\
  (String.length (CreateTaskInput.description input) <= 500)%nat /\
  truthy (CreateTaskInput.category input) = true /\
  (length (CreateTaskInput.tags input) <= 10)%nat.

(** Swapping the two strings flips the sign of [localeCompare], as a
    consistent comparator does. *)
Definition antisymmetric (compare : string -> string -> Z) : Prop :=
  forall a b, Z.sgn (compare b a) = - Z.sgn (compare a b).

(** The parts of the share text, as the specification names them. *)
Definition shareHeader (task : Task) : string :=
  (statusConfig.emoji (Task.status task) ++ " " ++ Task.title task ++ " - "
   ++ statusConfig.label (Task.status task))%string.

Definition hashtag (tag : string) : string := ("#" ++ tag)%string.

(** One hashtag per tag, when there is a tag. *)
Definition hashtagBlock (tags : list string) : string :=
  match tags with
  | [] => ""
  | _ :: _ => (LF ++ LF ++ join " " (List.map hashtag tags))%string
  end.

(** The comment line, for a completed task with a non-empty comment. *)
Definition commentBlock (task : Task) : string :=
  match Task.status task, Task.completionComment task with
  | completed, String _ _ =>
      (LF ++ LF ++ "💭 " ++ Task.completionComment task)%string
  | _, _ => ""
  end.

(** The claim's round(completedTasks / totalTasks * 100) read over the
    rationals: the integer nearest to the exact percentage, a tie going up
    as in [Math.round].  Meant for [totalTasks > 0]. *)
Definition exactRate (totalTasks completedTasks : N) : Z :=
  (2 * (100 * Z.of_N completedTasks) + Z.of_N totalTasks)
  / (2 * Z.of_N totalTasks).

(** What is known of [Number::toString] here: a natural number below
    [2^53] is printed as its decimal numeral. *)
Definition printsNaturals (toString : spec_float -> string) : Prop :=
  forall n : N, (n < 2 ^ 53)%N -> toString (Number.of_N n) = Number.decimal n.

(** * Sample data *)

(** A printing function for the examples: the decimal numeral of an
    integer, the empty text for every other number. *)
Definition integerToString (x : spec_float) : string :=
  match Number.to_Z x with
  | Some v =>
      ((if (v <? 0)%Z then "-" else "")
       ++ Number.decimal (Z.to_N (Z.abs v)))%string
  | None => ""
  end.

(** A world whose clock starts at 1000 and ticks once per reading, and
    whose n-th token is n+1 letters x. *)
Definition world0 : World :=
  mkWorld (fun n => 1000 + Z.of_nat n) 0
          (fun n => utf8 (List.repeat 120%nat (S n))) 0.

(** A completed task. *)
Definition doneTask : Task :=
  Task.mk "t1" "Report" "" medium "default" completed "done early"
          10 20 (Some 20) 10 ["work"].

(** The patch the edit form submits ([handleSubmit] of [TaskForm]): the
    fields of the form, with [status: 'todo'] and an empty comment. *)
Definition formPatch : UpdateTaskInput :=
  UpdateTaskInput.mk (Some "Report v2") (Some "") (Some medium)
    (Some "default") (Some todo) (Some "") None None None (Some ["work"]).

Definition doneState : AppState :=
  AppState.mk [doneTask] [] defaultSettings initialUIState.

(** A system with two tasks in the category "work" and one in "default". *)
Definition workCategory : Category :=
  Category.mk "work" "Work" "#3742fa" None 5 2.

Definition defaultCategory : Category :=
  Category.mk "default" "未分類" "#a4b0be" (Some "デフォルトカテゴリー") 1 0.

Definition workTask (id : string) : Task :=
  Task.mk id "Report" "" high "work" todo "" 10 10 None 10 [].

Definition workSystem : System :=
  mkSystem
    (AppState.mk [workTask "a"; doneTask; workTask "b"]
                 [defaultCategory; workCategory] defaultSettings initialUIState)
    [workTask "a"; doneTask; workTask "b"]
    [defaultCategory; workCategory]
    [workTask "a"; doneTask; workTask "b"]
    [defaultCategory; workCategory].

(** A component whose own task list is behind: it mounted when only task
    "a" was stored; task "b" came later, through another component. *)
Definition staleSystem : System :=
  mkSystem
    (AppState.mk [workTask "a"; workTask "b"]
                 [defaultCategory; workCategory] defaultSettings initialUIState)
    [workTask "a"]
    [defaultCategory; workCategory]
    [workTask "a"; workTask "b"]
    [defaultCategory; workCategory].

(** An input the form's validation accepts, with status [completed]. *)
Definition doneInput : CreateTaskInput :=
  CreateTaskInput.mk "Report" "" medium "default" completed "done early"
                     ["work"].

(** A [localeCompare] for the examples: the code-unit order. *)
Definition ordinalCompare (a b : string) : Z :=
  match String.compare a b with
  | Eq => 0
  | Lt => -1
  | Gt => 1
  end.

(** The two tasks of the sorting example. *)
Definition taskA : Task :=
  Task.mk "id-a" "A" "" low "default" todo "" 1 1 None 0 [].

Definition taskB : Task :=
  Task.mk "id-b" "B" "" high "default" todo "" 2 2 None 1 [].

Definition prioritySettings (o : SortOrder) : Settings :=
  Settings.mk light medium by_priority o true true (mkNotifications false 60).

Definition abState (o : SortOrder) : AppState :=
  AppState.mk [taskA; taskB] [] (prioritySettings o) initialUIState.

(** * The vocabulary of the further properties *)

(** The component of the state an action is about. *)
Inductive Component := TasksPart | CategoriesPart | SettingsPart | UIPart.

Definition component (a : AppAction) : Component :=
  match a with
  | SET_TASKS _ | ADD_TASK _ | UPDATE_TASK _ _ | DELETE_TASK _
  | REORDER_TASKS _ | UPDATE_TASK_STATUS _ _ _ => TasksPart
  | SET_CATEGORIES _ | ADD_CATEGORY _ | UPDATE_CATEGORY _
  | DELETE_CATEGORY _ => CategoriesPart
  | SET_SETTINGS _ | UPDATE_SETTINGS _ => SettingsPart
  | SET_UI_STATE _ | OPEN_TASK_FORM _ | CLOSE_TASK_FORM
  | OPEN_CATEGORY_MANAGER | CLOSE_CATEGORY_MANAGER | SET_FILTER _ => UIPart
  end.

(** The actions whose reduction reads the clock. *)
Definition stamps (a : AppAction) : bool :=
  match a with
  | UPDATE_TASK _ _ | UPDATE_TASK_STATUS _ _ _ => true
  | _ => false
  end.

(** Two tasks that differ at most in their time stamps: [updatedAt], and
    the value (not the presence) of [completedAt]. *)
Definition sameButStamps (a b : Task) : Prop :=
  Task.id a = Task.id b /\
  Task.title a = Task.title b /\
  Task.description a = Task.description b /\
  Task.priority a = Task.priority b /\
  Task.category a = Task.category b /\
  Task.status a = Task.status b /\
  Task.completionComment a = Task.completionComment b /\
  Task.createdAt a = Task.createdAt b /\
  (is_Some (Task.completedAt a) <-> is_Some (Task.completedAt b)) /\
  Task.order a = Task.order b /\
  Task.tags a = Task.tags b.

(** A category with the reserved id is in the list. *)
Definition hasDefault (categories : list Category) : Prop :=
  exists c, In c categories /\ Category.id c = "default".

(** The tag list the tag input maintains: no tag twice, none empty, at most
    ten. *)
Definition wellTagged (tags : list string) : Prop :=
  NoDup tags /\ (length tags <= 10)%nat /\ ~ In "" tags.

(** * Further sample data *)

(** An [arrayMove] for the examples: the element at [from] is taken out and
    put back at [to]. *)
Definition moveElement (l : list Task) (from to : nat) : list Task :=
  match l !! from with
  | Some x => take to (delete from l) ++ x :: drop to (delete from l)
  | None => l
  end.

(** A system showing only the tasks still to do: the completed task is
    hidden by the status filter. *)
Definition todoOnlySystem : System :=
  mkSystem
    (AppState.mk [taskA; doneTask; taskB] [defaultCategory]
       (prioritySettings desc)
       (UIState.mk false false None (Filter.mk (Some todo) "all" None "")))
    [taskA; doneTask; taskB]
    [defaultCategory]
    [taskA; doneTask; taskB]
    [defaultCategory].

(** A toy JSON codec for the examples: it knows the two default texts and
    one document, and prints every value as that document's text. *)
Definition sampleDocument : JSON :=
  exportDocument (fun _ => "2025-01-01T00:00:00.000Z")
    (JArray []) (JArray []) (JObject []) 1000.

Definition sampleParse (s : string) : option JSON :=
  if String.eqb s "[]" then Some (JArray [])
  else if String.eqb s "{}" then Some (JObject [])
  else if String.eqb s "DOC" then Some sampleDocument
  else None.

Definition emptyStorage : Storage := fun _ => None.

(** * Properties *)

(** ** Running the world-passing computations *)

Lemma bind_run {A B} (m : IO A) (k : A -> IO B) (w : World) :
  bind m k w = k (fst (m w)) (snd (m w)).
Proof. unfold bind. destruct (m w); reflexivity. Qed.

Lemma ret_run {A} (a : A) (w : World) : ret a w = (a, w).
Proof. reflexivity. Qed.

Ltac run := repeat (rewrite ?bind_run, ?ret_run; cbn [fst snd]).

(** Every element of the result of [mapM] is the callback's result on the
    element at the same place, in some world. *)
Lemma mapM_Forall2 {A B} (f : A -> IO B) (l : list A) (w : World) :
  Forall2 (fun x y => exists w', y = fst (f x w')) l (fst (mapM f l w)).
Proof.
  revert w. induction l as [|x xs IH]; intros w; cbn [mapM].
  - constructor.
  - run. constructor; [eexists; reflexivity | apply IH].
Qed.

Lemma mapM_length {A B} (f : A -> IO B) (l : list A) (w : World) :
  length (fst (mapM f l w)) = length l.
Proof. symmetry. eapply Forall2_length, mapM_Forall2. Qed.

Lemma mapM_lookup {A B} (f : A -> IO B) (l : list A) (w : World) i x :
  l !! i = Some x ->
  exists w', fst (mapM f l w) !! i = Some (fst (f x w')).
Proof.
  intros Hx.
  destruct (Forall2_lookup_l _ _ _ _ _ (mapM_Forall2 f l w) Hx)
    as (y & Hy & w' & ->).
  eauto.
Qed.

Lemma mapM_Forall {A B} (P : A -> Prop) (Q : B -> Prop)
    (f : A -> IO B) (l : list A) (w : World) :
  (forall x w', P x -> Q (fst (f x w'))) ->
  Forall P l -> Forall Q (fst (mapM f l w)).
Proof.
  intros Hf Hl.
  pose proof (mapM_Forall2 f l w) as H2.
  induction H2 as [|x y xs ys (w' & ->) _ IH]; [constructor|].
  inversion Hl; subst. constructor; auto.
Qed.

(** ** The task invariant *)

Lemma patchTask_invariant (t : Task) (u : UpdateTaskInput) (w : World) :
  patchAgrees u -> taskInvariant t -> taskInvariant (fst (patchTask t u w)).
Proof.
  unfold patchAgrees, taskInvariant, patchTask. run.
  destruct (UpdateTaskInput.status u), (UpdateTaskInput.completedAt u);
    cbn; tauto.
Qed.

Lemma stampStatus_invariant (t : Task) (s : Status) (c : string) (w : World) :
  taskInvariant (fst (stampStatus t s c w)).
Proof.
  unfold taskInvariant, stampStatus. run.
  destruct s; cbn; run; cbn; split; intros H;
    try reflexivity; try discriminate; try (by eexists);
    by destruct H.
Qed.

Lemma Forall_filter_keep {A} (P : A -> Prop) (p : A -> bool) (l : list A) :
  Forall P l -> Forall P (List.filter p l).
Proof.
  induction 1 as [|x xs Hx _ IH]; cbn; [constructor|].
  destruct (p x); [constructor|]; assumption.
Qed.

(** C1, as stated, fails: the state holding one completed task satisfies the
    invariant, and after [UPDATE_TASK] with the patch of the edit form the
    task has status [todo] and still a [completedAt]. *)
Lemma appReducer_update_breaks_invariant :
  stateInvariant doneState /\
  ~ stateInvariant (fst (appReducer doneState (UPDATE_TASK "t1" formPatch) world0)).
Proof.
  split.
  - constructor; [|constructor].
    split; intros _; [reflexivity | by eexists].
  - intros H. unfold stateInvariant in H. cbn in H.
    apply Forall_inv in H. destruct H as [H _].
    cbn in H. discriminate H. by eexists.
Qed.

(** C1 (amended): the reducer keeps the invariant "completedAt is non-null
    iff status = completed" on every task, for every action whose payload
    satisfies it: task lists and tasks carried by SET_TASKS, REORDER_TASKS
    and ADD_TASK satisfy the invariant, and the patch of UPDATE_TASK sets
    neither status nor completedAt, or both to agreeing values.  All other
    actions, UPDATE_TASK_STATUS and DELETE_TASK among them, keep it
    unconditionally. *)
Theorem appReducer_preserves_invariant
    (state : AppState) (action : AppAction) (w : World) :
  stateInvariant state ->
  payloadInvariant action ->
  stateInvariant (fst (appReducer state action w)).
Proof.
  unfold stateInvariant. intros Hs Ha.
  destruct action; cbn [appReducer payloadInvariant] in *; run;
    cbn [with_tasks with_categories with_settings with_ui AppState.tasks];
    try assumption.
  - apply Forall_app; split; [assumption | by constructor].
  - eapply mapM_Forall; [|exact Hs]. intros x w' Hx. cbn beta.
    destruct (String.eqb (Task.id x) id); [by apply patchTask_invariant | exact Hx].
  - by apply Forall_filter_keep.
  - eapply mapM_Forall; [|exact Hs]. intros x w' Hx. cbn beta.
    destruct (String.eqb (Task.id x) id); [apply stampStatus_invariant | exact Hx].
Qed.

Lemma appReducer_preserves_invariant_witness :
  stateInvariant doneState /\
  stateInvariant
    (fst (appReducer doneState
            (UPDATE_TASK "t1" useCategories.moveToDefault) world0)).
Proof.
  assert (H : stateInvariant doneState).
  { constructor; [|constructor].
    split; intros _; [reflexivity | by eexists]. }
  split; [exact H|].
  apply (appReducer_preserves_invariant doneState
           (UPDATE_TASK "t1" useCategories.moveToDefault) world0 H).
  exact I.
Defined.

(** ** Status transitions *)

Lemma stampStatus_transitioned (t : Task) (s : Status) (c : string) (w : World) :
  transitioned t s c (fst (stampStatus t s c w)).
Proof.
  unfold transitioned, stampStatus.
  destruct s; cbn [Status_eqb]; run; cbn;
    repeat split; try congruence; try (by eexists).
Qed.

Lemma mapM_status_lookup (id : string) (s : Status) (c : option string)
    (tasks : list Task) (w : World) (i : nat) (t : Task) :
  tasks !! i = Some t ->
  exists t',
    fst (mapM (fun task =>
                 if String.eqb (Task.id task) id
                 then stampStatus task s (or_empty c)
                 else ret task) tasks w) !! i = Some t' /\
    (Task.id t = id -> transitioned t s (or_empty c) t') /\
    (Task.id t <> id -> t' = t).
Proof.
  intros Ht.
  destruct (mapM_lookup
              (fun task =>
                 if String.eqb (Task.id task) id
                 then stampStatus task s (or_empty c)
                 else ret task) tasks w i t Ht) as (w' & Hw').
  eexists; split; [exact Hw'|]. cbn beta.
  destruct (String.eqb_spec (Task.id t) id) as [He|Hne]; split; intros H;
    try contradiction; try reflexivity.
  apply stampStatus_transitioned.
Qed.

(** C2: for every task list, task in it with the given id, target status
    and provided comment, the status transition -- the store's
    updateTaskStatus and the reducer's UPDATE_TASK_STATUS alike -- leaves at
    that task's place a task with the target status; for [completed] its
    completedAt is non-null and its completionComment is the provided
    comment; for any other status its completedAt is null and its
    completionComment is unchanged. *)
Theorem status_transition_stamps
    (state : AppState) (stored : list Task) (id : string) (status : Status)
    (comment : string) (w : World) (i : nat) (t : Task) :
  Task.id t = id ->
  (stored !! i = Some t ->
   exists t',
     fst (TaskStorage.updateTaskStatus id status (Some comment) stored w) !! i
       = Some t' /\
     transitioned t status comment t') /\
  (AppState.tasks state !! i = Some t ->
   exists t',
     AppState.tasks
       (fst (appReducer state (UPDATE_TASK_STATUS id status (Some comment)) w))
       !! i = Some t' /\
     transitioned t status comment t').
Proof.
  intros Hid. split; intros Ht.
  - destruct (mapM_status_lookup id status (Some comment) stored w i t Ht)
      as (t' & Hl & Hyes & _).
    exists t'. split; [exact Hl | exact (Hyes Hid)].
  - destruct (mapM_status_lookup id status (Some comment)
                (AppState.tasks state) w i t Ht) as (t' & Hl & Hyes & _).
    exists t'. split; [|exact (Hyes Hid)].
    cbn [appReducer]. run. exact Hl.
Qed.

Lemma status_transition_stamps_witness :
  exists t',
    AppState.tasks
      (fst (appReducer doneState (UPDATE_TASK_STATUS "t1" todo (Some "x")) world0))
      !! 0%nat = Some t' /\
    transitioned doneTask todo "x" t'.
Proof.
  apply (status_transition_stamps doneState [doneTask] "t1" todo "x" world0
           0%nat doneTask); reflexivity.
Defined.

(** A task with another id is left as it is. *)
Lemma status_transition_frame
    (state : AppState) (id : string) (status : Status) (c : option string)
    (w : World) (i : nat) (t : Task) :
  AppState.tasks state !! i = Some t ->
  Task.id t <> id ->
  AppState.tasks (fst (appReducer state (UPDATE_TASK_STATUS id status c) w)) !! i
    = Some t.
Proof.
  intros Ht Hne.
  destruct (mapM_status_lookup id status c (AppState.tasks state) w i t Ht)
    as (t' & Hl & _ & Hno).
  cbn [appReducer]. run. cbn. rewrite Hl. f_equal. exact (Hno Hne).
Qed.

(** The hook runs both: the stored list and the state's list change
    alike. *)
Lemma useTasks_updateTaskStatus_transitions
    (sys : System) (id : string) (status : Status) (comment : string)
    (w : World) (i : nat) (t : Task) :
  Task.id t = id ->
  let sys' := fst (useTasks.updateTaskStatus id status (Some comment) sys w) in
  (taskStore sys !! i = Some t ->
   exists t', taskStore sys' !! i = Some t' /\
              transitioned t status comment t') /\
  (AppState.tasks (appState sys) !! i = Some t ->
   exists t', AppState.tasks (appState sys') !! i = Some t' /\
              transitioned t status comment t').
Proof.
  intros Hid. unfold useTasks.updateTaskStatus, dispatch.
  cbn [or_empty appReducer]. run.
  cbn [setTasks appState taskStore with_tasks AppState.tasks].
  split; intros Ht.
  - destruct (mapM_status_lookup id status (Some comment) (taskStore sys) w i t Ht)
      as (t' & Hl & Hyes & _).
    exists t'. split; [exact Hl | exact (Hyes Hid)].
  - match goal with
    | |- context [mapM ?f (AppState.tasks (appState sys)) ?w1] =>
        destruct (mapM_status_lookup id status (Some comment)
                    (AppState.tasks (appState sys)) w1 i t Ht)
          as (t' & Hl & Hyes & _)
    end.
    exists t'. split; [exact Hl | exact (Hyes Hid)].
Qed.

(** ** Reordering *)

(** C6: for every state and every task list l, REORDER_TASKS with payload l
    returns a state whose task list is exactly l and whose other components
    are those of the input state; nothing relates l to the previous list, so
    in particular the empty payload empties a non-empty task list. *)
Theorem reorder_replaces_tasks :
  (forall (state : AppState) (l : list Task) (w : World),
     appReducer state (REORDER_TASKS l) w
       = (AppState.mk l (AppState.categories state) (AppState.settings state)
                      (AppState.ui state), w)) /\
  AppState.tasks doneState = [doneTask] /\
  AppState.tasks (fst (appReducer doneState (REORDER_TASKS []) world0)) = [].
Proof. repeat split. Qed.

Lemma imapM_from_length {A B} (f : A -> nat -> IO B) (l : list A) k w :
  length (fst (imapM_from k f l w)) = length l.
Proof.
  revert k w. induction l as [|x xs IH]; intros k w; cbn [imapM_from].
  - reflexivity.
  - run. cbn. f_equal. apply IH.
Qed.

Lemma reorder_from_lookup (l : list Task) (k : nat) (w : World) (i : nat) (t : Task) :
  l !! i = Some t ->
  fst (imapM_from k
         (fun task index =>
            let! now := new_Date in ret (renumbered task index now)) l w) !! i
    = Some (renumbered t (k + i) (clock w (reads w + i))).
Proof.
  revert k w i. induction l as [|x xs IH]; intros k w i Hi; [discriminate|].
  cbn [imapM_from]. run. destruct i as [|i]; cbn in Hi |- *.
  - injection Hi as ->. by rewrite !Nat.add_0_r.
  - rewrite (IH _ _ _ Hi). cbn. do 2 f_equal; [lia | f_equal; lia].
Qed.

(** C10: for every task list l the store's reorderTasks yields a list of
    the same length whose element at place i is l[i] with order = i and
    updatedAt refreshed (the i-th clock reading taken by the call), so the
    order fields are 0..n-1; the reducer's REORDER_TASKS keeps the payload,
    order fields included, as it is. *)
Theorem reorderTasks_renumbers (l : list Task) (state : AppState) (w : World) :
  length (fst (TaskStorage.reorderTasks l w)) = length l /\
  (forall i t,
     l !! i = Some t ->
     fst (TaskStorage.reorderTasks l w) !! i
       = Some (renumbered t i (clock w (reads w + i)))) /\
  (forall i t',
     fst (TaskStorage.reorderTasks l w) !! i = Some t' ->
     Task.order t' = Z.of_nat i) /\
  AppState.tasks (fst (appReducer state (REORDER_TASKS l) w)) = l.
Proof.
  assert (Hlook : forall i t, l !! i = Some t ->
            fst (TaskStorage.reorderTasks l w) !! i
              = Some (renumbered t i (clock w (reads w + i)))).
  { intros i t Ht. exact (reorder_from_lookup l 0 w i t Ht). }
  assert (Hlen : length (fst (TaskStorage.reorderTasks l w)) = length l)
    by apply imapM_from_length.
  repeat split; [exact Hlen | exact Hlook |].
  intros i t' Ht'.
  destruct (lookup_lt_is_Some_2 l i) as [t Ht].
  { rewrite <- Hlen. eapply lookup_lt_Some, Ht'. }
  rewrite (Hlook i t Ht) in Ht'. injection Ht' as <-. reflexivity.
Qed.

(** After the hook the stored list is renumbered and the state's list is
    the payload: the two differ wherever a payload task's order is not its
    place. *)
Lemma useTasks_reorderTaskList_diverges
    (sys : System) (l : list Task) (w : World) (i : nat) (t : Task) :
  l !! i = Some t ->
  let sys' := fst (useTasks.reorderTaskList l sys w) in
  AppState.tasks (appState sys') !! i = Some t /\
  taskStore sys' !! i = Some (renumbered t i (clock w (reads w + i))).
Proof.
  intros Ht. unfold useTasks.reorderTaskList, dispatch. cbn [appReducer]. run.
  cbn [appState taskStore with_tasks AppState.tasks].
  split; [exact Ht|]. exact (reorder_from_lookup l 0 w i t Ht).
Qed.

(** ** Deleting a category *)

Lemma dispatch_move_lookup (id : string) (sys : System) (w : World) i t :
  AppState.tasks (appState sys) !! i = Some t ->
  exists t',
    AppState.tasks
      (appState (fst (dispatch (UPDATE_TASK id useCategories.moveToDefault) sys w)))
      !! i = Some t' /\
    movedBy [id] t t'.
Proof.
  intros Ht. unfold dispatch. cbn [appReducer]. run.
  cbn [appState with_tasks AppState.tasks].
  destruct (mapM_lookup
              (fun task =>
                 if String.eqb (Task.id task) id
                 then patchTask task useCategories.moveToDefault
                 else ret task) (AppState.tasks (appState sys)) w i t Ht)
    as (w' & Hw').
  eexists; split; [exact Hw'|]. cbn beta.
  destruct (String.eqb_spec (Task.id t) id) as [He|Hne].
  - unfold patchTask. run. cbn. repeat split. intros Hn. destruct Hn. by left.
  - cbn. repeat split. intros [H|[]]. by destruct Hne.
Qed.

Lemma dispatch_move_frame (id : string) (u : UpdateTaskInput)
    (sys : System) (w : World) :
  let sys' := fst (dispatch (UPDATE_TASK id u) sys w) in
  AppState.categories (appState sys') = AppState.categories (appState sys) /\
  AppState.settings (appState sys') = AppState.settings (appState sys) /\
  AppState.ui (appState sys') = AppState.ui (appState sys) /\
  taskStore sys' = taskStore sys /\
  categoryStore sys' = categoryStore sys /\
  length (AppState.tasks (appState sys')) = length (AppState.tasks (appState sys)).
Proof.
  unfold dispatch. cbn [appReducer]. run. cbn. repeat split.
  apply mapM_length.
Qed.

Lemma dispatchAll_moves (ts : list Task) (sys : System) (w : World) :
  let sys' := fst (dispatchAll (moveActions ts) sys w) in
  AppState.categories (appState sys') = AppState.categories (appState sys) /\
  taskStore sys' = taskStore sys /\
  categoryStore sys' = categoryStore sys /\
  length (AppState.tasks (appState sys')) = length (AppState.tasks (appState sys)) /\
  forall i t,
    AppState.tasks (appState sys) !! i = Some t ->
    exists t',
      AppState.tasks (appState sys') !! i = Some t' /\
      movedBy (List.map Task.id ts) t t'.
Proof.
  revert sys w. induction ts as [|x xs IH]; intros sys w; cbn [moveActions List.map dispatchAll].
  - cbn. repeat split. intros i t Ht. exists t. repeat split; [exact Ht | intros []].
  - run.
    destruct (dispatch_move_frame (Task.id x) useCategories.moveToDefault sys w)
      as (Hc & _ & _ & Hts & Hcs & Hlen).
    destruct (IH (fst (dispatch (UPDATE_TASK (Task.id x)
                                   useCategories.moveToDefault) sys w))
                 (snd (dispatch (UPDATE_TASK (Task.id x)
                                   useCategories.moveToDefault) sys w)))
      as (Hc' & Hts' & Hcs' & Hlen' & Hmv).
    fold (moveActions xs).
    split; [congruence|]. split; [congruence|]. split; [congruence|].
    split; [congruence|].
    intros i t Ht.
    destruct (dispatch_move_lookup (Task.id x) sys w i t Ht)
      as (t1 & Ht1 & Hid1 & Hin1 & Hout1).
    destruct (Hmv i t1 Ht1) as (t' & Ht' & Hid' & Hin' & Hout').
    exists t'. split; [exact Ht'|].
    rewrite Hid1 in *.
    repeat split; [congruence | |].
    + intros [Hx|Hrest].
      * destruct (in_dec string_dec (Task.id t) (List.map Task.id xs)) as [Hi|Hni].
        { by apply Hin'. }
        { rewrite (Hout' Hni). apply Hin1. by left. }
      * by apply Hin'.
    + intros Hn. rewrite Hout'; [apply Hout1|]; intros H; apply Hn.
      * destruct H as [H|[]]. by left.
      * by right.
Qed.

Lemma In_filter_ids (C : string) (tasks : list Task) i t :
  tasks !! i = Some t ->
  Task.category t = C ->
  In (Task.id t)
     (List.map Task.id
        (List.filter (fun task => String.eqb (Task.category task) C) tasks)).
Proof.
  intros Ht Hc. apply in_map, filter_In. split.
  - apply list_elem_of_In, list_elem_of_lookup. eauto.
  - by apply String.eqb_eq.
Qed.

(** C3: in every state, deleting a category C other than "default" resolves
    and leaves, at the place of each task that referenced C, that task with
    category "default"; the task list keeps its length, no task references
    C any more, and C is gone from the category list of the state and of the
    store (each is the old list without the entries with id C).  For
    C = "default" the call is rejected and state and stores are unchanged,
    and the store's own deleteCategory leaves the stored list as it is. *)
Theorem deleteCategory_reassigns (sys : System) (C : string) (w : World) :
  (C <> "default" ->
   let r := fst (useCategories.deleteCategory C sys w) in
   fst r = Resolved /\
   length (AppState.tasks (appState (snd r))) = length (AppState.tasks (appState sys)) /\
   (forall i t,
      AppState.tasks (appState sys) !! i = Some t ->
      Task.category t = C ->
      exists t',
        AppState.tasks (appState (snd r)) !! i = Some t' /\
        Task.id t' = Task.id t /\
        Task.category t' = "default") /\
   (forall t', In t' (AppState.tasks (appState (snd r))) -> Task.category t' <> C) /\
   AppState.categories (appState (snd r))
     = List.filter (fun c => negb (String.eqb (Category.id c) C))
                   (AppState.categories (appState sys)) /\
   categoryStore (snd r)
     = List.filter (fun c => negb (String.eqb (Category.id c) C))
                   (categoryStore sys) /\
   (forall c, In c (AppState.categories (appState (snd r))) -> Category.id c <> C) /\
   (forall c, In c (categoryStore (snd r)) -> Category.id c <> C)) /\
  (C = "default" ->
   (exists message,
      useCategories.deleteCategory C sys w = (Rejected message, sys, w)) /\
   CategoryStorage.deleteCategory C (categoryStore sys) = categoryStore sys).
Proof.
  split.
  - intros HC. unfold useCategories.deleteCategory.
    destruct (String.eqb_spec C "default") as [|_]; [contradiction|].
    run. fold (moveActions
                 (List.filter (fun task => String.eqb (Task.category task) C)
                              (AppState.tasks (appState sys)))).
    set (ts := List.filter _ (AppState.tasks (appState sys))).
    destruct (dispatchAll_moves ts sys w) as (Hc & Hts & Hcs & Hlen & Hmv).
    set (sys1 := fst (dispatchAll (moveActions ts) sys w)) in *.
    unfold dispatch. cbn [appReducer]. run.
    cbn [setCategories fst snd appState with_categories
         AppState.tasks AppState.categories categoryStore taskStore].
    assert (Hcat : CategoryStorage.deleteCategory C (categoryStore sys1)
                   = List.filter (fun c => negb (String.eqb (Category.id c) C))
                                 (categoryStore sys)).
    { unfold CategoryStorage.deleteCategory.
      destruct (String.eqb_spec C "default"); [contradiction|]. by rewrite Hcs. }
    assert (Hgone : forall l c,
              In c (List.filter (fun c => negb (String.eqb (Category.id c) C)) l) ->
              Category.id c <> C).
    { intros l c Hin%filter_In. destruct Hin as [_ Hin].
      apply negb_true_iff, String.eqb_neq in Hin. exact Hin. }
    repeat split.
    + exact Hlen.
    + intros i t Ht Hcat'.
      destruct (Hmv i t Ht) as (t' & Ht' & Hid & Hin & _).
      exists t'. repeat split; [exact Ht' | exact Hid |].
      apply Hin. by apply (In_filter_ids C _ i).
    + intros t' Hin'.
      apply list_elem_of_In, list_elem_of_lookup in Hin' as [i Ht'].
      destruct (lookup_lt_is_Some_2 (AppState.tasks (appState sys)) i) as [t Ht].
      { rewrite <- Hlen. eapply lookup_lt_Some, Ht'. }
      destruct (Hmv i t Ht) as (t'' & Ht'' & Hid & Hin & Hout).
      rewrite Ht' in Ht''. injection Ht'' as <-.
      destruct (in_dec string_dec (Task.id t) (List.map Task.id ts)) as [Hi|Hni].
      * rewrite (Hin Hi). congruence.
      * rewrite (Hout Hni). intros Hcat'. apply Hni.
        by apply (In_filter_ids C _ i).
    + by rewrite Hc.
    + exact Hcat.
    + rewrite Hc. apply Hgone.
    + rewrite Hcat. apply Hgone.
  - intros ->. split; [eexists; reflexivity | reflexivity].
Qed.

(** The persisted task list is not rewritten by the deletion: the tasks
    are moved in the application state only. *)
Lemma deleteCategory_keeps_task_store (sys : System) (C : string) (w : World) :
  taskStore (snd (fst (useCategories.deleteCategory C sys w))) = taskStore sys.
Proof.
  unfold useCategories.deleteCategory.
  destruct (String.eqb C "default"); [reflexivity|].
  run. unfold dispatch at 1. run. cbn [setCategories taskStore].
  fold (moveActions
          (List.filter (fun task => String.eqb (Task.category task) C)
                       (AppState.tasks (appState sys)))).
  apply dispatchAll_moves.
Qed.

Lemma deleteCategory_reassigns_witness :
  "work" <> "default" /\
  List.map Task.category
    (AppState.tasks
       (appState (snd (fst (useCategories.deleteCategory "work" workSystem world0)))))
  = ["default"; "default"; "default"] /\
  forall t',
    In t' (AppState.tasks
             (appState (snd (fst (useCategories.deleteCategory "work" workSystem
                               world0))))) ->
    Task.category t' <> "work".
Proof.
  assert (H : "work" <> "default") by discriminate.
  split; [exact H|]. split; [reflexivity|].
  apply (proj1 (deleteCategory_reassigns workSystem "work" world0) H).
Defined.

(** ** Creating a task *)

Lemma createTask_run (input : CreateTaskInput) (w : World) :
  createTask input w
  = (Task.mk (tokens w (draws w))
       (CreateTaskInput.title input) (CreateTaskInput.description input)
       (CreateTaskInput.priority input) (CreateTaskInput.category input)
       (CreateTaskInput.status input) (CreateTaskInput.completionComment input)
       (clock w (reads w)) (clock w (S (reads w))) None
       (clock w (S (S (reads w)))) (CreateTaskInput.tags input),
     mkWorld (clock w) (S (S (S (reads w)))) (tokens w) (S (draws w))).
Proof. reflexivity. Qed.

(** C4, as stated, fails: [createTask] copies the status of its input, and
    an input that passes the form's validation with status [completed]
    gives a task whose status is not [todo]. *)
Lemma createTask_copies_status :
  validInput doneInput /\
  Task.status (fst (createTask doneInput world0)) <> todo.
Proof.
  split.
  - unfold validInput. cbn. repeat split; lia.
  - discriminate.
Qed.

(** C4 (amended): for every CreateTaskInput, the task produced by
    createTask has the token drawn from the identifier generator as its id,
    the status of the input (so todo whenever the input says todo, as the
    form and the sample button do), and completedAt = null; when the
    generator never yields the empty token and never repeats one, the id is
    non-empty and differs from the id of every task created at an earlier
    draw. *)
Theorem createTask_fresh (input : CreateTaskInput) (w : World) :
  (forall n, tokens w n <> "") ->
  (forall m n, tokens w m = tokens w n -> m = n) ->
  let t := fst (createTask input w) in
  Task.id t = tokens w (draws w) /\
  Task.id t <> "" /\
  Task.status t = CreateTaskInput.status input /\
  (CreateTaskInput.status input = todo -> Task.status t = todo) /\
  Task.completedAt t = None /\
  draws (snd (createTask input w)) = S (draws w) /\
  forall input' w',
    tokens w' = tokens w ->
    (draws w' < draws w)%nat ->
    Task.id (fst (createTask input' w')) <> Task.id t.
Proof.
  intros Hne Hinj. rewrite createTask_run. cbn.
  repeat split; auto.
  intros input' w' Htok Hlt Heq. rewrite Htok in Heq.
  apply Hinj in Heq. lia.
Qed.

Lemma utf8_length (bytes : list nat) : String.length (utf8 bytes) = length bytes.
Proof.
  unfold utf8. induction bytes as [|b bs IH]; cbn; [reflexivity|].
  by rewrite IH.
Qed.

Lemma world0_tokens_inj (m n : nat) : tokens world0 m = tokens world0 n -> m = n.
Proof.
  intros H. apply (f_equal String.length) in H. cbn [tokens world0] in H.
  rewrite !utf8_length, !repeat_length in H. lia.
Qed.

Lemma createTask_fresh_witness :
  Task.id (fst (createTask doneInput world0)) <> "" /\
  Task.completedAt (fst (createTask doneInput world0)) = None.
Proof.
  assert (Hne : forall n, tokens world0 n <> "") by (intros n; discriminate).
  pose proof (createTask_fresh doneInput world0 Hne world0_tokens_inj) as H.
  split; [exact (proj1 (proj2 H)) | exact (proj1 (proj2 (proj2 (proj2 (proj2 H)))))].
Defined.

(** ** Sorting *)

Section SortFacts.
Context {A : Type}.
Variable comparefn : A -> A -> Z.

(** A list whose neighbours are in order is left as it is: the sort is
    stable, and nothing has to move. *)
Lemma sort_of_ordered (l : list A) :
  ordered comparefn l -> sort comparefn l = l.
Proof.
  induction l as [|x l IH]; [reflexivity|].
  intros [Hx Hl]. cbn [sort]. rewrite (IH Hl).
  destruct l as [|y l']; [reflexivity|].
  cbn [insertSorted]. apply Z.leb_le in Hx. by rewrite Hx.
Qed.

Lemma insertSorted_In (x y : A) (l : list A) :
  In y (insertSorted comparefn x l) <-> y = x \/ In y l.
Proof.
  induction l as [|z l IH]; cbn [insertSorted].
  - cbn. intuition congruence.
  - destruct (comparefn x z <=? 0); cbn in *; intuition congruence.
Qed.

Lemma sort_In (y : A) (l : list A) : In y (sort comparefn l) <-> In y l.
Proof.
  induction l as [|x l IH]; [reflexivity|].
  cbn [sort]. rewrite insertSorted_In. cbn. intuition congruence.
Qed.

Lemma insertSorted_Permutation (x : A) (l : list A) :
  Permutation (insertSorted comparefn x l) (x :: l).
Proof.
  induction l as [|z l IH]; cbn [insertSorted]; [reflexivity|].
  destruct (comparefn x z <=? 0); [reflexivity|].
  rewrite IH. apply perm_swap.
Qed.

(** The sort rearranges; it neither adds nor drops an element. *)
Lemma sort_Permutation (l : list A) : Permutation (sort comparefn l) l.
Proof.
  induction l as [|x l IH]; [reflexivity|].
  cbn [sort]. rewrite insertSorted_Permutation. by constructor.
Qed.

(** The comparator never puts two elements each strictly after the
    other. *)
Hypothesis comparefn_total : forall x y, 0 < comparefn x y -> comparefn y x <= 0.

Lemma insertSorted_ordered (x : A) (l : list A) :
  ordered comparefn l -> ordered comparefn (insertSorted comparefn x l).
Proof.
  induction l as [|y l IH]; intros Hl.
  - cbn. tauto.
  - cbn [insertSorted]. destruct (Z.leb_spec (comparefn x y) 0) as [Hle|Hgt].
    + split; [exact Hle | exact Hl].
    + destruct Hl as [Hy Hl]. specialize (IH Hl).
      split; [|exact IH].
      destruct l as [|z l']; cbn [insertSorted].
      * by apply comparefn_total.
      * destruct (comparefn x z <=? 0); [by apply comparefn_total | exact Hy].
Qed.

Lemma sort_ordered (l : list A) : ordered comparefn (sort comparefn l).
Proof.
  induction l as [|x l IH]; [exact I|].
  cbn [sort]. by apply insertSorted_ordered.
Qed.

Lemma sort_idempotent (l : list A) :
  sort comparefn (sort comparefn l) = sort comparefn l.
Proof. apply sort_of_ordered, sort_ordered. Qed.

End SortFacts.

(** ** Filters *)

Lemma filter_fuse {A} (p q : A -> bool) (l : list A) :
  List.filter p (List.filter q l) = List.filter (fun x => q x && p x) l.
Proof.
  induction l as [|x l IH]; [reflexivity|].
  cbn. destruct (q x); cbn; [destruct (p x)|]; by rewrite IH.
Qed.

Lemma filter_if {A} (c : bool) (p : A -> bool) (l : list A) :
  (if c then List.filter p l else l)
  = List.filter (fun x => if c then p x else true) l.
Proof.
  destruct c; [reflexivity|].
  induction l as [|x l IH]; [reflexivity|]. cbn. by rewrite <- IH.
Qed.

Lemma filter_all {A} (p : A -> bool) (l : list A) :
  (forall x, In x l -> p x = true) -> List.filter p l = l.
Proof.
  induction l as [|x l IH]; intros H; [reflexivity|].
  cbn. rewrite (H x) by (by left). f_equal. apply IH.
  intros y Hy. apply H. by right.
Qed.

(** ** The derived view *)

Section DerivedViewFacts.

Variable toLowerCase : string -> string.
Variable localeCompare : string -> string -> Z.

(** The view is the stable sort of the visible tasks. *)
Lemma filteredTasks_visible (state : AppState) :
  filteredTasks toLowerCase localeCompare state
  = sort (compareTasks localeCompare (AppState.settings state))
         (List.filter (visible toLowerCase (UIState.filter (AppState.ui state))
                               (AppState.settings state))
                      (AppState.tasks state)).
Proof.
  unfold filteredTasks, visible. f_equal.
  rewrite !filter_if.
  destruct (Filter.status (UIState.filter (AppState.ui state))) as [s|],
           (Filter.priority (UIState.filter (AppState.ui state))) as [p|];
    rewrite ?filter_fuse; apply filter_ext; intros x; cbn beta;
    rewrite ?andb_true_r, ?andb_true_l, <- ?andb_assoc; reflexivity.
Qed.

End DerivedViewFacts.

Section DerivedViewClaims.

Variable toLowerCase : string -> string.
Variable localeCompare : string -> string -> Z.

Lemma compareTasks_total (settings : Settings) (x y : Task) :
  antisymmetric localeCompare ->
  0 < compareTasks localeCompare settings x y ->
  compareTasks localeCompare settings y x <= 0.
Proof.
  intros Hanti. unfold compareTasks.
  pose proof (Hanti (Task.title x) (Task.title y)) as H.
  destruct (Settings.sortBy settings), (Settings.sortOrder settings); lia.
Qed.

(** C5: for every task list, filter criteria and settings, the derived
    view is a function of the task list, the filter and the settings alone
    (running it again on equal inputs gives the same sequence), and running
    it on its own output with the same filter and settings gives that
    output back, in the same order.  [localeCompare] is assumed to flip its
    sign when its arguments are swapped. *)
Theorem filteredTasks_idempotent (state : AppState) :
  antisymmetric localeCompare ->
  (forall state',
     AppState.tasks state' = AppState.tasks state ->
     UIState.filter (AppState.ui state') = UIState.filter (AppState.ui state) ->
     AppState.settings state' = AppState.settings state ->
     filteredTasks toLowerCase localeCompare state'
     = filteredTasks toLowerCase localeCompare state) /\
  filteredTasks toLowerCase localeCompare
    (with_tasks state (filteredTasks toLowerCase localeCompare state))
  = filteredTasks toLowerCase localeCompare state.
Proof.
  intros Hanti. split.
  - intros state' Ht Hf Hs. rewrite !filteredTasks_visible.
    by rewrite Ht, Hf, Hs.
  - rewrite (filteredTasks_visible _ _ (with_tasks state _)).
    cbn [with_tasks AppState.tasks AppState.ui AppState.settings].
    rewrite filteredTasks_visible.
    rewrite filter_all.
    + apply sort_idempotent. intros x y. by apply compareTasks_total.
    + intros x Hx. apply sort_In, filter_In in Hx. tauto.
Qed.

(** C7: with the two tasks A (priority low, order 0) and B (priority high,
    order 1) in that order, no filter, showCompleted = true and
    sortBy = priority, the view is [B, A] for sortOrder = desc and [A, B]
    for sortOrder = asc. *)
Theorem priority_sort_example (a b : Task) (state : AppState) :
  Task.title a = "A" -> Task.priority a = low -> Task.order a = 0 ->
  Task.title b = "B" -> Task.priority b = high -> Task.order b = 1 ->
  AppState.tasks state = [a; b] ->
  UIState.filter (AppState.ui state) = Filter.mk None "all" None "" ->
  Settings.showCompleted (AppState.settings state) = true ->
  Settings.sortBy (AppState.settings state) = by_priority ->
  (Settings.sortOrder (AppState.settings state) = desc ->
   filteredTasks toLowerCase localeCompare state = [b; a]) /\
  (Settings.sortOrder (AppState.settings state) = asc ->
   filteredTasks toLowerCase localeCompare state = [a; b]).
Proof.
  intros _ Hpa _ _ Hpb _ Ht Hf Hshow Hby.
  split; intros Hord; unfold filteredTasks, compareTasks;
    rewrite Ht, Hf, Hshow, Hby, Hord; cbn; rewrite Hpa, Hpb; reflexivity.
Qed.

End DerivedViewClaims.

Lemma ordinalCompare_antisymmetric : antisymmetric ordinalCompare.
Proof.
  intros a b. unfold ordinalCompare. rewrite (String.compare_antisym a b).
  destruct (String.compare b a); reflexivity.
Qed.

Lemma filteredTasks_idempotent_witness :
  filteredTasks (fun s => s) ordinalCompare
    (with_tasks (abState desc)
       (filteredTasks (fun s => s) ordinalCompare (abState desc)))
  = filteredTasks (fun s => s) ordinalCompare (abState desc).
Proof.
  apply (filteredTasks_idempotent (fun s => s) ordinalCompare (abState desc)
           ordinalCompare_antisymmetric).
Defined.

Lemma priority_sort_example_witness :
  filteredTasks (fun s => s) ordinalCompare (abState desc) = [taskB; taskA] /\
  filteredTasks (fun s => s) ordinalCompare (abState asc) = [taskA; taskB].
Proof.
  split.
  - apply (priority_sort_example (fun s => s) ordinalCompare taskA taskB
             (abState desc)); reflexivity.
  - apply (priority_sort_example (fun s => s) ordinalCompare taskA taskB
             (abState asc)); reflexivity.
Defined.

(** ** Strings: concatenation and containment *)

Lemma append_assoc (a b c : string) :
  ((a ++ b) ++ c)%string = (a ++ (b ++ c))%string.
Proof. induction a as [|x a IH]; cbn; [reflexivity | by rewrite IH]. Qed.

Lemma append_empty_r (a : string) : (a ++ "")%string = a.
Proof. induction a as [|x a IH]; cbn; [reflexivity | by rewrite IH]. Qed.

Lemma prefix_empty (t : string) : String.prefix "" t = true.
Proof. destruct t; reflexivity. Qed.

Lemma prefix_append (q t : string) : String.prefix q (q ++ t) = true.
Proof.
  induction q as [|x q IH]; cbn [String.append]; [apply prefix_empty|].
  cbn. destruct (ascii_dec x x); [exact IH | contradiction].
Qed.

Lemma prefix_refl (s : string) : String.prefix s s = true.
Proof. rewrite <- (append_empty_r s) at 2. apply prefix_append. Qed.

Lemma prefix_append_l (q s t : string) :
  String.prefix q s = true -> String.prefix q (s ++ t) = true.
Proof.
  revert s. induction q as [|x q IH]; intros s H; [apply prefix_empty|].
  destruct s as [|y s]; cbn in *; [discriminate|].
  destruct (ascii_dec x y); [by apply IH | discriminate].
Qed.

Lemma includes_unfold (s q : string) :
  includes s q
  = String.prefix q s
    || match s with
       | EmptyString => false
       | String _ s' => includes s' q
       end.
Proof. destruct s; reflexivity. Qed.

Lemma includes_prefix (s q : string) :
  String.prefix q s = true -> includes s q = true.
Proof. intros H. rewrite includes_unfold, H. reflexivity. Qed.

Lemma includes_append_r (s t q : string) :
  includes t q = true -> includes (s ++ t) q = true.
Proof.
  intros H. induction s as [|x s IH]; [exact H|].
  cbn [String.append]. rewrite includes_unfold, IH. apply orb_true_r.
Qed.

Lemma includes_append_l (s t q : string) :
  includes s q = true -> includes (s ++ t) q = true.
Proof.
  induction s as [|x s IH]; intros H.
  - rewrite includes_unfold in H. rewrite orb_false_r in H.
    apply includes_prefix. by apply (prefix_append_l q "" t).
  - rewrite includes_unfold in H. apply orb_true_iff in H as [H|H].
    + apply includes_prefix. by apply prefix_append_l.
    + cbn [String.append]. rewrite includes_unfold, (IH H). apply orb_true_r.
Qed.

(** A part of a concatenation is contained in it. *)
Lemma includes_middle (a q b : string) : includes (a ++ q ++ b) q = true.
Proof. apply includes_append_r, includes_prefix, prefix_append. Qed.

Lemma includes_join (sep : string) (l : list string) (x : string) :
  In x l -> includes (join sep l) x = true.
Proof.
  unfold join. induction l as [|y l IH]; intros Hin; [destruct Hin|].
  cbn [String.concat]. destruct l as [|z l'].
  - destruct Hin as [->|[]]. apply includes_prefix, prefix_refl.
  - destruct Hin as [->|Hin].
    + apply includes_prefix, prefix_append.
    + apply includes_append_r, includes_append_r, IH, Hin.
Qed.

(** ** The share text *)

Lemma formatTaskForShare_parts (task : Task) :
  formatTaskForShare task
  = (shareHeader task ++ hashtagBlock (Task.tags task) ++ commentBlock task
     ++ appHashtags)%string.
Proof.
  unfold formatTaskForShare, shareHeader, hashtagBlock, commentBlock, truthy.
  destruct (Task.tags task) as [|tag tags]; cbn [length Nat.ltb Nat.leb];
    destruct (Task.status task); cbn [Status_eqb andb];
    destruct (Task.completionComment task); cbn [String.eqb negb];
    rewrite ?append_assoc; reflexivity.
Qed.

(** C8: for every task the share text is the header
    "<statusEmoji> <title> - <statusLabel>", followed by a block of one
    "#tag" per tag exactly when there are tags, followed by the comment line
    exactly when the status is completed and the comment is non-empty,
    followed by the fixed hashtag suffix.  So it begins with the header and
    ends with the suffix, and it contains every "#tag", the whole title, and
    (when the comment line is there) the whole comment.  A completed task
    titled "Report" with comment "done early" and tag "work" gives a text in
    which "✅ Report", "#work" and "done early" occur in that order. *)
Theorem formatTaskForShare_shape (task : Task) :
  let text := formatTaskForShare task in
  text = (shareHeader task ++ hashtagBlock (Task.tags task)
          ++ commentBlock task ++ appHashtags)%string /\
  String.prefix (shareHeader task) text = true /\
  (exists before, text = (before ++ appHashtags)%string) /\
  (Task.tags task = [] <-> hashtagBlock (Task.tags task) = "") /\
  (forall tag, In tag (Task.tags task) -> includes text (hashtag tag) = true) /\
  (commentBlock task <> ""
   <-> Task.status task = completed /\ Task.completionComment task <> "") /\
  includes text (Task.title task) = true /\
  (Task.status task = completed ->
   includes text (Task.completionComment task) = true) /\
  (forall id description priority category createdAt updatedAt completedAt order,
     formatTaskForShare
       (Task.mk id "Report" description priority category completed
                "done early" createdAt updatedAt completedAt order ["work"])
     = ("✅ Report" ++ (" - 完了" ++ LF ++ LF) ++ "#work"
        ++ (LF ++ LF ++ "💭 ") ++ "done early" ++ appHashtags)%string).
Proof.
  cbn zeta. rewrite formatTaskForShare_parts.
  split; [reflexivity|]. split; [apply prefix_append|].
  split.
  { exists (shareHeader task ++ hashtagBlock (Task.tags task)
            ++ commentBlock task)%string.
    by rewrite !append_assoc. }
  split.
  { unfold hashtagBlock. destruct (Task.tags task); split; try reflexivity;
      discriminate. }
  split.
  { intros tag Hin. apply includes_append_r, includes_append_l.
    unfold hashtagBlock. destruct (Task.tags task) as [|t0 ts]; [destruct Hin|].
    apply includes_append_r, includes_append_r, includes_join.
    by apply in_map. }
  split.
  { unfold commentBlock.
    destruct (Task.status task), (Task.completionComment task);
      split; intros H; try (by destruct H); try (by destruct H as [? ?]);
      try discriminate; split; [reflexivity | discriminate]. }
  split.
  { apply includes_append_l. unfold shareHeader.
    apply includes_append_r, includes_middle. }
  split.
  { intros Hdone. apply includes_append_r, includes_append_r.
    unfold commentBlock. rewrite Hdone.
    destruct (Task.completionComment task) as [|c s].
    - reflexivity.
    - apply includes_append_l.
      do 3 apply includes_append_r. apply includes_prefix, prefix_refl. }
  reflexivity.
Qed.

(** ** Numbers: where a NaN can and cannot come from *)

Section Binary.
Variable prec emax : Z.

Lemma shr_1_nonneg (mrs : shr_record) :
  0 <= shr_m mrs -> 0 <= shr_m (shr_1 mrs).
Proof.
  destruct mrs as [m r s]. destruct m as [|p|p]; cbn; intros H;
    try destruct p; cbn; lia.
Qed.

Lemma iter_pos_invariant {A} (P : A -> Prop) (f : A -> A) :
  (forall x, P x -> P (f x)) ->
  forall p x, P x -> P (SpecFloat.iter_pos f p x).
Proof.
  intros Hf. induction p as [p IH|p IH|]; intros x Hx; cbn; auto.
Qed.

Lemma shr_nonneg (mrs : shr_record) (e n : Z) :
  0 <= shr_m mrs -> 0 <= shr_m (fst (shr mrs e n)).
Proof.
  intros H. destruct n as [|p|p]; cbn; try exact H.
  by apply (iter_pos_invariant (fun r => 0 <= shr_m r) shr_1 shr_1_nonneg).
Qed.

Lemma shr_fexp_nonneg (m e : Z) (l : location) :
  0 <= m -> 0 <= shr_m (fst (shr_fexp prec emax m e l)).
Proof.
  intros H. unfold shr_fexp. apply shr_nonneg.
  destruct l as [|[]]; exact H.
Qed.

Lemma round_nearest_even_nonneg (m : Z) (l : location) :
  0 <= m -> 0 <= round_nearest_even m l.
Proof.
  intros H. destruct l as [|[]]; cbn; try destruct (Z.even m); lia.
Qed.

(** Rounding a non-negative mantissa gives a zero, a finite number or an
    infinity. *)
Lemma binary_round_aux_not_nan (sx : bool) (mx ex : Z) (lx : location) :
  0 <= mx -> binary_round_aux prec emax sx mx ex lx <> S754_nan.
Proof.
  intros H. unfold binary_round_aux.
  pose proof (shr_fexp_nonneg mx ex lx H) as H1.
  destruct (shr_fexp prec emax mx ex lx) as [mrs' e']. cbn [fst] in H1.
  pose proof (shr_fexp_nonneg _ e' loc_Exact
                (round_nearest_even_nonneg _ (loc_of_shr_record mrs') H1)) as H2.
  destruct (shr_fexp prec emax _ e' loc_Exact) as [mrs'' e'']. cbn [fst] in H2.
  destruct (shr_m mrs'') as [|m|m]; [discriminate | | lia].
  destruct (e'' <=? emax - prec); discriminate.
Qed.

Lemma binary_round_not_nan (sx : bool) (mx : positive) (ex : Z) :
  binary_round prec emax sx mx ex <> S754_nan.
Proof.
  unfold binary_round. destruct (shl_align _ _ _) as [mz ez].
  by apply binary_round_aux_not_nan.
Qed.

Lemma binary_normalize_not_nan (m e : Z) (szero : bool) :
  binary_normalize prec emax m e szero <> S754_nan.
Proof.
  destruct m; cbn; [discriminate | apply binary_round_not_nan ..].
Qed.

(** A quotient is NaN only for 0/0, ∞/∞ or a NaN operand. *)
Lemma SFdiv_finite_not_nan (x : spec_float) (sy : bool) (my : positive) (ey : Z) :
  x <> S754_nan ->
  (forall s, x <> S754_infinity s) ->
  SFdiv prec emax x (S754_finite sy my ey) <> S754_nan.
Proof.
  intros Hnan Hinf. destruct x as [s|s| |sx mx ex]; cbn [SFdiv].
  - discriminate.
  - by destruct (Hinf s).
  - by destruct Hnan.
  - unfold SFdiv_core_binary.
    destruct (Z.div_eucl _ (Z.pos my)) as [q r] eqn:Hqr.
    apply binary_round_aux_not_nan.
    assert (Hq : q = fst (Z.div_eucl
                match (ex - ey - Z.min (fexp prec emax
                         (Zdigits2 (Z.pos mx) + ex - (Zdigits2 (Z.pos my) + ey)))
                         (ex - ey))
                with
                | Z0 => Z.pos mx
                | Zpos _ => Z.shiftl (Z.pos mx)
                    (ex - ey - Z.min (fexp prec emax
                         (Zdigits2 (Z.pos mx) + ex - (Zdigits2 (Z.pos my) + ey)))
                         (ex - ey))
                | Zneg _ => 0
                end (Z.pos my))) by (by rewrite Hqr).
    rewrite Hq. change (fst (Z.div_eucl ?a ?b)) with (a / b).
    apply Z.div_pos; [|lia].
    destruct (ex - ey - _) eqn:Hs; try lia.
    apply Z.shiftl_nonneg. lia.
Qed.

(** A product with a finite number is NaN only for a NaN operand. *)
Lemma SFmul_finite_not_nan (x : spec_float) (sy : bool) (my : positive) (ey : Z) :
  x <> S754_nan ->
  SFmul prec emax x (S754_finite sy my ey) <> S754_nan.
Proof.
  intros Hnan. destruct x as [s|s| |sx mx ex]; cbn [SFmul].
  - discriminate.
  - discriminate.
  - by destruct Hnan.
  - apply binary_round_aux_not_nan. lia.
Qed.

End Binary.

(** *** Naturals below [2^53] are finite numbers *)

Lemma digits2_pos_size (p : positive) : digits2_pos p = Pos.size p.
Proof. induction p; cbn; congruence. Qed.

Lemma digits2_pos_bound (p : positive) :
  Z.pos p < 2 ^ 53 -> Z.pos (digits2_pos p) <= 53.
Proof.
  intros H. rewrite digits2_pos_size.
  destruct (Z.le_gt_cases (Z.pos (Pos.size p)) 53) as [Hle|Hgt]; [exact Hle|].
  exfalso.
  assert (H1 : 2 ^ 54 <= 2 ^ Z.pos (Pos.size p)) by (apply Z.pow_le_mono_r; lia).
  pose proof (Pos.size_le p) as H2.
  apply Pos2Z.pos_le_pos in H2. rewrite Pos2Z.inj_pow in H2.
  change (Z.pos p~0) with (2 * Z.pos p) in H2.
  change (2 ^ 54) with (2 * 2 ^ 53) in H1. lia.
Qed.

Lemma digits2_pos_iter_xO (p k : positive) :
  digits2_pos (Pos.iter xO p k) = (digits2_pos p + k)%positive.
Proof.
  induction k as [|k IH] using Pos.peano_ind.
  - cbn. lia.
  - rewrite Pos.iter_succ. cbn [digits2_pos]. rewrite IH. lia.
Qed.

(** A mantissa of exactly 53 bits with an exponent in range is kept. *)
Lemma binary_round_aux_canonical (mz : positive) (ez : Z) :
  Z.pos (digits2_pos mz) = 53 ->
  -1074 <= ez <= 971 ->
  binary_round_aux 53 1024 false (Z.pos mz) ez loc_Exact
  = S754_finite false mz ez.
Proof.
  intros Hd He. unfold binary_round_aux, shr_fexp, fexp, emin.
  cbn [Zdigits2 shr_record_of_loc]. rewrite Hd.
  replace (Z.max (53 + ez - 53) (3 - 1024 - 53) - ez) with 0 by lia.
  cbn [shr shr_m loc_of_shr_record round_nearest_even Zdigits2 shr_record_of_loc].
  rewrite Hd.
  replace (Z.max (53 + ez - 53) (3 - 1024 - 53) - ez) with 0 by lia.
  cbn [shr shr_m].
  replace (ez <=? 1024 - 53) with true by (symmetry; apply Z.leb_le; lia).
  reflexivity.
Qed.

Lemma iter_xO_pow (p k : positive) : Pos.iter xO p k = (p * 2 ^ k)%positive.
Proof.
  induction k as [|k IH] using Pos.peano_ind.
  - cbn. lia.
  - rewrite Pos.iter_succ, IH, Pos.pow_succ_r. lia.
Qed.

(** The number of a positive integer below [2^53]: the integer itself, or
    the integer shifted left to 53 bits with the matching exponent. *)
Lemma of_N_pos (p : positive) :
  Z.pos p < 2 ^ 53 ->
  Number.of_N (N.pos p) = S754_finite false p 0 \/
  exists k, Number.of_N (N.pos p) = S754_finite false (Pos.iter xO p k) (Z.neg k).
Proof.
  intros Hp. pose proof (digits2_pos_bound p Hp) as Hd.
  unfold Number.of_N, Number.prec, Number.emax.
  cbn [Z.of_N binary_normalize]. unfold binary_round, shl_align, fexp, emin.
  replace (Z.max (Z.pos (digits2_pos p) + 0 - 53) (3 - 1024 - 53))
    with (Z.pos (digits2_pos p) - 53) by lia.
  destruct (Z.pos (digits2_pos p) - 53 - 0) as [|k|k] eqn:Hk; [| lia |].
  - left. apply binary_round_aux_canonical; lia.
  - right. exists k. replace (Z.pos (digits2_pos p) - 53) with (Z.neg k) by lia.
    apply binary_round_aux_canonical; [|lia].
    rewrite digits2_pos_iter_xO. lia.
Qed.

Lemma of_N_finite (n : N) :
  (0 < n < 2 ^ 53)%N ->
  exists m e, Number.of_N n = S754_finite false m e.
Proof.
  intros [Hpos Hlt]. destruct n as [|p]; [lia|].
  destruct (of_N_pos p) as [->|[k ->]]; [lia | eauto ..].
Qed.

(** A natural number below [2^53] is a number, exactly. *)
Lemma of_N_exact (n : N) :
  (n < 2 ^ 53)%N -> Number.to_Z (Number.of_N n) = Some (Z.of_N n).
Proof.
  intros Hlt. destruct n as [|p]; [reflexivity|].
  destruct (of_N_pos p) as [->|[k ->]]; [lia | |]; cbn [Number.to_Z Z.of_N].
  - f_equal. cbn. lia.
  - cbn [Z.leb Z.compare Z.opp]. rewrite iter_xO_pow, Pos2Z.inj_mul, Pos2Z.inj_pow.
    rewrite Z.mod_mul by lia. cbn [Z.eqb]. f_equal. apply Z.div_mul. lia.
Qed.

Lemma of_N_not_nan (n : N) : Number.of_N n <> S754_nan.
Proof. apply binary_normalize_not_nan. Qed.

Lemma of_N_not_infinity (n : N) (s : bool) :
  (n < 2 ^ 53)%N -> Number.of_N n <> S754_infinity s.
Proof.
  intros Hlt. destruct (N.eq_dec n 0%N) as [->|Hn]; [discriminate|].
  destruct (of_N_finite n) as (m & e & ->); [lia | discriminate].
Qed.

Lemma round_not_nan (x : spec_float) :
  x <> S754_nan -> Number.round x <> S754_nan.
Proof.
  intros H. destruct x as [s|s| |s m e]; cbn [Number.round]; try exact H.
  destruct (0 <=? e); [exact H|].
  destruct (_ =? 0); [discriminate | apply binary_normalize_not_nan].
Qed.

(** Without the guard the rate of an empty list would be NaN. *)
Lemma zero_by_zero_is_nan :
  Number.div (Number.of_N 0) (Number.of_N 0) = S754_nan.
Proof. reflexivity. Qed.

(** A positive natural number below [2^53] is a number with a mantissa of
    53 bits. *)
Lemma of_N_canonical (n : N) :
  (0 < n < 2 ^ 53)%N ->
  exists m e, Number.of_N n = S754_finite false m e /\
              Z.pos (digits2_pos m) = 53.
Proof.
  intros [Hpos Hlt]. destruct n as [|p]; [lia|].
  assert (Hp : Z.pos p < 2 ^ 53) by lia.
  pose proof (digits2_pos_bound p Hp) as Hd.
  unfold Number.of_N, Number.prec, Number.emax.
  cbn [Z.of_N binary_normalize]. unfold binary_round, shl_align, fexp, emin.
  replace (Z.max (Z.pos (digits2_pos p) + 0 - 53) (3 - 1024 - 53))
    with (Z.pos (digits2_pos p) - 53) by lia.
  destruct (Z.pos (digits2_pos p) - 53 - 0) as [|k|k] eqn:Hk; [| lia |].
  - exists p, 0. split; [|lia].
    apply binary_round_aux_canonical; lia.
  - exists (Pos.iter xO p k), (Z.neg k).
    replace (Z.pos (digits2_pos p) - 53) with (Z.neg k) by lia.
    assert (Hk' : Z.pos (digits2_pos (Pos.iter xO p k)) = 53)
      by (rewrite digits2_pos_iter_xO; lia).
    split; [|exact Hk']. apply binary_round_aux_canonical; [exact Hk' | lia].
Qed.

Lemma gt_of_N (n : N) :
  (n < 2 ^ 53)%N ->
  Number.gt (Number.of_N n) (Number.of_N 0) = (0 <? n)%N.
Proof.
  intros Hlt. destruct (N.ltb_spec 0 n) as [Hpos|Hz].
  - destruct (of_N_finite n) as (m & e & ->); [lia | reflexivity].
  - replace n with 0%N by lia. reflexivity.
Qed.

(** A number divided by itself is one. *)
Lemma div_self (m : positive) (e : Z) :
  Z.pos (digits2_pos m) = 53 ->
  Number.div (S754_finite false m e) (S754_finite false m e) = Number.of_N 1.
Proof.
  intros Hd. unfold Number.div, Number.prec, Number.emax.
  cbn [SFdiv]. unfold SFdiv_core_binary. cbn [Zdigits2]. rewrite Hd.
  replace (53 + e - (53 + e)) with 0 by lia.
  replace (e - e) with 0 by lia.
  change (Z.min (fexp 53 1024 0) 0) with (-53).
  change (0 - -53) with 53.
  cbv iota beta zeta.
  replace (Z.div_eucl (Z.shiftl (Z.pos m) 53) (Z.pos m))
    with (2 ^ 53, 0).
  - replace (new_location (Z.pos m) 0) with loc_Exact; [reflexivity|].
    unfold new_location, new_location_even, new_location_odd.
    by destruct (Z.even (Z.pos m)).
  - rewrite Z.shiftl_mul_pow2 by lia.
    pose proof (Z.div_eucl_eq (Z.pos m * 2 ^ 53) (Z.pos m)) as Heq.
    pose proof (Z.mod_pos_bound (Z.pos m * 2 ^ 53) (Z.pos m)) as Hb.
    unfold Z.modulo in Hb.
    destruct (Z.div_eucl (Z.pos m * 2 ^ 53) (Z.pos m)) as [q r].
    specialize (Heq ltac:(lia)). specialize (Hb ltac:(lia)).
    cbn [snd] in Hb. generalize dependent (2 ^ 53). intros K Heq.
    assert (Hq : q = K).
    { destruct (Z.lt_trichotomy q K) as [Hlt|[Heq'|Hgt]]; [|exact Heq'|]; nia. }
    subst q. f_equal. lia.
Qed.

(** C9, as stated, fails when its round(completedTasks / totalTasks * 100)
    is the rounding of the exact percentage: 23 of 40 is 57.5 percent, which
    rounds to 58; the product computed in binary64 is 57.49999999999999, the
    rate is 57 and the report reads "57%". *)
Lemma completionRate_tie_falls_short :
  exactRate 40 23 = 58 /\
  Number.to_Z (completionRate (Number.of_N 40) (Number.of_N 23)) = Some 57 /\
  includes
    (formatProgressReport integerToString
       (Number.of_N 40) (Number.of_N 23) (Number.of_N 5))
    "🎯 達成率: 57%" = true.
Proof. repeat split; vm_compute; reflexivity. Qed.

Section ProgressReportFacts.

Variable Number_toString : spec_float -> string.

Local Abbreviation report := (formatProgressReport Number_toString).

Lemma report_shows_rate (total done doing : spec_float) :
  includes (report total done doing)
    ("🎯 達成率: " ++ Number_toString (completionRate total done) ++ "%" ++ LF)
  = true.
Proof.
  unfold formatProgressReport.
  do 14 apply includes_append_r. apply includes_prefix.
  match goal with
  | |- String.prefix ?q ?t = true =>
      replace t with (q ++ LF ++ "#TodoApp #生産性向上 #進捗報告")%string
        by (rewrite !append_assoc; reflexivity)
  end.
  apply prefix_append.
Qed.

(** C9: for natural numbers totalTasks, completedTasks and inProgressTasks
    the progress report is produced, and its rate line shows the rate the
    formatter computes.  When totalTasks = 0 no division takes place: the
    rate is 0 and the report reads "0%".  When totalTasks > 0 the rate is
    Math.round of the number (completedTasks / totalTasks) * 100, the
    operations being those of binary64: it is never NaN, the report reads
    "0%" when nothing is completed and "100%" when everything is, where it
    agrees with the rounding of the exact percentage.  The counts are
    below 2^53, where every natural number is a number, and
    [Number::toString] prints such a number as its decimal numeral. *)
Theorem completionRate_guarded (totalTasks completedTasks inProgressTasks : N) :
  let total := Number.of_N totalTasks in
  let done := Number.of_N completedTasks in
  let doing := Number.of_N inProgressTasks in
  let rate := completionRate total done in
  printsNaturals Number_toString ->
  (totalTasks < 2 ^ 53)%N ->
  (completedTasks < 2 ^ 53)%N ->
  includes (report total done doing)
    ("🎯 達成率: " ++ Number_toString rate ++ "%" ++ LF) = true /\
  rate <> S754_nan /\
  (totalTasks = 0%N ->
   rate = Number.of_N 0 /\
   includes (report total done doing) "🎯 達成率: 0%" = true) /\
  ((0 < totalTasks)%N ->
   rate = Number.round (Number.mul (Number.div done total) (Number.of_N 100)) /\
   (completedTasks = 0%N ->
    exactRate totalTasks completedTasks = 0 /\
    includes (report total done doing) "🎯 達成率: 0%" = true) /\
   (completedTasks = totalTasks ->
    exactRate totalTasks completedTasks = 100 /\
    includes (report total done doing) "🎯 達成率: 100%" = true)).
Proof.
  cbn zeta. intros Hprint Ht Hc.
  assert (Hline : forall n : N,
            (n < 2 ^ 53)%N ->
            completionRate (Number.of_N totalTasks) (Number.of_N completedTasks)
              = Number.of_N n ->
            includes (report (Number.of_N totalTasks) (Number.of_N completedTasks)
                             (Number.of_N inProgressTasks))
                     ("🎯 達成率: " ++ Number.decimal n ++ "%") = true).
  { intros n Hn Hrate.
    unfold formatProgressReport. rewrite Hrate, (Hprint n Hn).
    do 14 apply includes_append_r. apply includes_prefix.
    match goal with
    | |- String.prefix ?q ?t = true =>
        replace t with (q ++ LF ++ LF ++ "#TodoApp #生産性向上 #進捗報告")%string
          by (rewrite !append_assoc; reflexivity)
    end.
    apply prefix_append. }
  split; [apply report_shows_rate|]. split; [|split].
  - unfold completionRate. rewrite gt_of_N by exact Ht.
    destruct (N.ltb_spec 0 totalTasks) as [Hpos|Hz]; [|discriminate].
    apply round_not_nan.
    change (Number.of_N 100) with (S754_finite false 7036874417766400 (-46)).
    apply SFmul_finite_not_nan.
    destruct (of_N_finite totalTasks) as (m & e & ->); [lia|].
    apply SFdiv_finite_not_nan; [apply of_N_not_nan|].
    intros s. by apply of_N_not_infinity.
  - intros ->. split; [reflexivity|]. by apply (Hline 0%N).
  - intros Hpos.
    assert (Hgt : Number.gt (Number.of_N totalTasks) (Number.of_N 0) = true).
    { rewrite gt_of_N by exact Ht. by apply N.ltb_lt. }
    unfold completionRate at 1. rewrite Hgt. split; [reflexivity|]. split.
    + intros ->. split.
      * unfold exactRate. apply Z.div_small. lia.
      * apply (Hline 0%N); [reflexivity|].
        unfold completionRate. rewrite Hgt.
        destruct (of_N_finite totalTasks) as (m & e & ->); [lia | reflexivity].
    + intros ->. split.
      * unfold exactRate.
        replace (2 * (100 * Z.of_N totalTasks) + Z.of_N totalTasks)
          with (Z.of_N totalTasks + 100 * (2 * Z.of_N totalTasks)) by lia.
        rewrite Z.div_add by lia. rewrite Z.div_small by lia. reflexivity.
      * apply (Hline 100%N); [reflexivity|].
        unfold completionRate. rewrite Hgt.
        destruct (of_N_canonical totalTasks) as (m & e & -> & Hd); [lia|].
        rewrite (div_self m e Hd). reflexivity.
Qed.

End ProgressReportFacts.

Lemma integerToString_printsNaturals : printsNaturals integerToString.
Proof.
  intros n Hn. unfold integerToString. rewrite of_N_exact by exact Hn.
  destruct (Z.ltb_spec (Z.of_N n) 0) as [Hneg|_]; [lia|].
  cbn [String.append]. by rewrite Z.abs_eq, N2Z.id by lia.
Qed.

Lemma completionRate_guarded_witness :
  includes
    (formatProgressReport integerToString
       (Number.of_N 3) (Number.of_N 2) (Number.of_N 1))
    ("🎯 達成率: "
     ++ integerToString (completionRate (Number.of_N 3) (Number.of_N 2))
     ++ "%" ++ LF) = true
  /\ completionRate (Number.of_N 3) (Number.of_N 2) <> S754_nan
  /\ integerToString (completionRate (Number.of_N 3) (Number.of_N 2)) = "67".
Proof.
  destruct (completionRate_guarded integerToString 3 2 1
              integerToString_printsNaturals eq_refl eq_refl)
    as (Hshow & Hnan & _).
  split; [exact Hshow|]. split; [exact Hnan | reflexivity].
Defined.

(** * Further properties *)

(** ** The reducer *)

(** X1: an action changes only the component it is about -- the task list,
    the category list, the settings or the UI state -- and leaves the other
    three as they are; and only UPDATE_TASK and UPDATE_TASK_STATUS read the
    clock, no action draws a token. *)
Theorem appReducer_frame (state : AppState) (action : AppAction) (w : World) :
  let state' := fst (appReducer state action w) in
  (component action <> TasksPart ->
   AppState.tasks state' = AppState.tasks state) /\
  (component action <> CategoriesPart ->
   AppState.categories state' = AppState.categories state) /\
  (component action <> SettingsPart ->
   AppState.settings state' = AppState.settings state) /\
  (component action <> UIPart -> AppState.ui state' = AppState.ui state) /\
  (stamps action = false -> snd (appReducer state action w) = w) /\
  draws (snd (appReducer state action w)) = draws w.
Proof.
  assert (Hdraws : forall (f : Task -> IO Task) l w0,
            (forall x w1, draws (snd (f x w1)) = draws w1) ->
            draws (snd (mapM f l w0)) = draws w0).
  { intros f l. induction l as [|x xs IH]; intros w0 Hf; cbn [mapM];
      [reflexivity|]. run. rewrite IH by exact Hf. apply Hf. }
  destruct action; cbn [appReducer component stamps]; run;
    cbn [with_tasks with_categories with_settings with_ui AppState.tasks
         AppState.categories AppState.settings AppState.ui];
    repeat split; try reflexivity; try congruence; try discriminate.
  - apply Hdraws. intros x w1.
    destruct (String.eqb (Task.id x) id); reflexivity.
  - apply Hdraws. intros x w1.
    destruct (String.eqb (Task.id x) id); [|reflexivity].
    unfold stampStatus. destruct (Status_eqb status completed); reflexivity.
Qed.

Lemma mapM_map_keep {A B C} (g : A -> C) (g' : B -> C) (f : A -> IO B)
    (l : list A) (w : World) :
  (forall x w', g' (fst (f x w')) = g x) ->
  List.map g' (fst (mapM f l w)) = List.map g l.
Proof.
  intros Hf. revert w. induction l as [|x xs IH]; intros w; cbn [mapM];
    [reflexivity|].
  run. cbn. by rewrite Hf, IH.
Qed.

(** X2: UPDATE_TASK, whatever the patch, and UPDATE_TASK_STATUS change
    neither the number of tasks, nor the id or the creation time of any
    task, nor the order of the list: the sequences of ids and of createdAt
    are those before. *)
Theorem task_updates_keep_identity
    (state : AppState) (id : string) (updates : UpdateTaskInput)
    (status : Status) (comment : option string) (w : World) :
  let patched := fst (appReducer state (UPDATE_TASK id updates) w) in
  let moved := fst (appReducer state (UPDATE_TASK_STATUS id status comment) w) in
  List.map Task.id (AppState.tasks patched)
    = List.map Task.id (AppState.tasks state) /\
  List.map Task.createdAt (AppState.tasks patched)
    = List.map Task.createdAt (AppState.tasks state) /\
  List.map Task.id (AppState.tasks moved)
    = List.map Task.id (AppState.tasks state) /\
  List.map Task.createdAt (AppState.tasks moved)
    = List.map Task.createdAt (AppState.tasks state).
Proof.
  cbn [appReducer]. run. cbn [with_tasks AppState.tasks].
  repeat split; apply mapM_map_keep; intros x w';
    destruct (String.eqb (Task.id x) id); try reflexivity;
    unfold stampStatus; destruct (Status_eqb status completed); reflexivity.
Qed.

(** ** The task hooks *)

Lemma findIndex_None {A} (p : A -> bool) (l : list A) :
  (forall x, In x l -> p x = false) -> findIndex p l = None.
Proof.
  induction l as [|x xs IH]; intros H; [reflexivity|].
  cbn. rewrite (H x) by (by left). rewrite IH; [reflexivity|].
  intros y Hy. apply H. by right.
Qed.

Lemma findIndex_Some {A} (p : A -> bool) (l : list A) (i : nat) :
  findIndex p l = Some i ->
  exists x, l !! i = Some x /\ p x = true /\
            forall j y, (j < i)%nat -> l !! j = Some y -> p y = false.
Proof.
  revert i. induction l as [|x xs IH]; intros i H; [discriminate|].
  cbn in H. destruct (p x) eqn:Hx.
  - injection H as <-. exists x. repeat split; [exact Hx|]. intros j y Hj. lia.
  - destruct (findIndex p xs) as [k|] eqn:Hk; [|discriminate].
    injection H as <-. destruct (IH k eq_refl) as (y & Hy & Hpy & Hbefore).
    exists y. repeat split; [exact Hy | exact Hpy |].
    intros [|j] z Hj Hz; cbn in Hz.
    + by injection Hz as <-.
    + apply (Hbefore j z); [lia | exact Hz].
Qed.




Lemma useTasks_addTask_shape (input : CreateTaskInput) (sys : System)
    (w : World) :
  fst (fst (useTasks.addTask input sys w)) = fst (createTask input w) /\
  AppState.tasks (appState (snd (fst (useTasks.addTask input sys w))))
  = AppState.tasks (appState sys) ++ [fst (createTask input w)].
Proof.
  unfold useTasks.addTask, dispatch. cbn [appReducer]. run. by split.
Qed.






(** A component whose list is behind writes it over localStorage: the
    stored tasks agreed with the state, and after the component starts task
    "a" the stored list has lost task "b". *)
Lemma stale_component_overwrites :
  let sys' :=
    fst (useTasks.updateTaskStatus "a" in_progress None staleSystem world0) in
  savedTasks staleSystem = AppState.tasks (appState staleSystem) /\
  List.map Task.id (savedTasks sys') = ["a"] /\
  List.map Task.id (AppState.tasks (appState sys')) = ["a"; "b"].
Proof. repeat split. Qed.

Lemma sameButStamps_refl (t : Task) : sameButStamps t t.
Proof. unfold sameButStamps. tauto. Qed.


(** X6: the handlers of a task item -- a status change, the completion
    with its comment, the deletion -- keep the task invariant (completedAt
    is non-null iff the status is completed) on every task of the state and
    of the store: of the calling component's own list and, when it held
    there before, of the list localStorage holds. *)
Theorem TaskItem_handlers_keep_invariant
    (task : Task) (newStatus : Status) (comment : string) (confirmed : bool)
    (sys : System) (w : World) :
  Forall taskInvariant (AppState.tasks (appState sys)) ->
  Forall taskInvariant (taskStore sys) ->
  let after (sys' : System) :=
    Forall taskInvariant (AppState.tasks (appState sys')) /\
    Forall taskInvariant (taskStore sys') /\
    (Forall taskInvariant (savedTasks sys) ->
     Forall taskInvariant (savedTasks sys')) in
  after (snd (fst (TaskItem.handleStatusChange task newStatus sys w))) /\
  after (fst (TaskItem.handleComplete task comment sys w)) /\
  after (fst (TaskItem.handleDelete task confirmed sys w)).
Proof.
  intros Hs Hst.
  assert (Hupd : forall status c w0,
            Forall taskInvariant
              (AppState.tasks
                 (appState (fst (useTasks.updateTaskStatus (Task.id task)
                                   status c sys w0)))) /\
            Forall taskInvariant
              (taskStore (fst (useTasks.updateTaskStatus (Task.id task)
                                 status c sys w0))) /\
            savedTasks (fst (useTasks.updateTaskStatus (Task.id task)
                               status c sys w0))
            = taskStore (fst (useTasks.updateTaskStatus (Task.id task)
                                status c sys w0))).
  { intros status c w0.
    unfold useTasks.updateTaskStatus, dispatch, TaskStorage.updateTaskStatus.
    cbn [appReducer]. run.
    cbn [setTasks appState taskStore savedTasks with_tasks AppState.tasks].
    split; [|split; [|reflexivity]];
      (eapply mapM_Forall; [|eassumption]); intros x w1 Hx; cbn beta;
      destruct (String.eqb (Task.id x) (Task.id task));
      try apply stampStatus_invariant; exact Hx. }
  assert (Hupd' : forall status c w0,
            Forall taskInvariant
              (AppState.tasks
                 (appState (fst (useTasks.updateTaskStatus (Task.id task)
                                   status c sys w0)))) /\
            Forall taskInvariant
              (taskStore (fst (useTasks.updateTaskStatus (Task.id task)
                                 status c sys w0))) /\
            (Forall taskInvariant (savedTasks sys) ->
             Forall taskInvariant
               (savedTasks (fst (useTasks.updateTaskStatus (Task.id task)
                                   status c sys w0))))).
  { intros status c w0. destruct (Hupd status c w0) as (H1 & H2 & ->).
    by repeat split. }
  cbn zeta. split; [|split].
  - unfold TaskItem.handleStatusChange.
    destruct (Status_eqb newStatus completed); [by repeat split|].
    run. apply Hupd'.
  - apply Hupd'.
  - unfold TaskItem.handleDelete. destruct confirmed; [|by repeat split].
    unfold useTasks.deleteTask, dispatch. cbn [appReducer]. run.
    cbn. repeat split; try intros _; by apply Forall_filter_keep.
Qed.

Lemma TaskItem_handlers_keep_invariant_witness :
  Forall taskInvariant
    (AppState.tasks
       (appState (fst (TaskItem.handleComplete (workTask "a") "ok"
                         workSystem world0)))).
Proof.
  assert (H : Forall taskInvariant [workTask "a"; doneTask; workTask "b"]).
  { repeat constructor; cbn; try (intros [? ?]; discriminate);
      try discriminate; try (by eexists). }
  apply (proj1 (proj1 (proj2
           (TaskItem_handlers_keep_invariant (workTask "a") todo "ok" true
              workSystem world0 H H)))).
Defined.

(** ** Categories *)

(** X7: DELETE_CATEGORY in the reducer removes every category with the
    given id -- the reserved "default" too, the refusal lives in the hooks
    -- and leaves the task list, the tasks of that category included, as it
    is; after ADD_CATEGORY of a category whose id is new it gives back the
    category list from before the addition. *)
Theorem reducer_delete_category
    (state : AppState) (id : string) (c : Category) (w : World) :
  let deleted := fst (appReducer state (DELETE_CATEGORY id) w) in
  (forall x, In x (AppState.categories deleted) -> Category.id x <> id) /\
  AppState.tasks deleted = AppState.tasks state /\
  ((forall x, In x (AppState.categories state) -> Category.id x <> Category.id c) ->
   AppState.categories
     (fst (appReducer (fst (appReducer state (ADD_CATEGORY c) w))
                      (DELETE_CATEGORY (Category.id c)) w))
   = AppState.categories state).
Proof.
  cbn [appReducer]. run. cbn [with_categories AppState.categories AppState.tasks].
  repeat split.
  - intros x Hx. apply filter_In in Hx as [_ Hx].
    by apply negb_true_iff, String.eqb_neq in Hx.
  - intros Hnew. rewrite List.filter_app. cbn.
    rewrite String.eqb_refl. cbn. rewrite app_nil_r.
    apply filter_all. intros x Hx. apply negb_true_iff, String.eqb_neq.
    by apply Hnew.
Qed.

Lemma reducer_delete_category_witness :
  AppState.categories
    (fst (appReducer (fst (appReducer (appState workSystem)
                             (ADD_CATEGORY
                                (Category.mk "home" "Home" "#26de81" None 7 0))
                             world0))
                     (DELETE_CATEGORY "home") world0))
  = AppState.categories (appState workSystem).
Proof.
  apply (reducer_delete_category (appState workSystem) "x"
           (Category.mk "home" "Home" "#26de81" None 7 0) world0).
  intros x [<-|[<-|[]]]; discriminate.
Defined.

Lemma find_insert_found {A} (p : A -> bool) (c : A) (l : list A) (i : nat) :
  findIndex p l = Some i -> p c = true -> List.find p (<[i:=c]> l) = Some c.
Proof.
  revert i. induction l as [|x xs IH]; intros i H Hc; [discriminate|].
  cbn in H. destruct (p x) eqn:Hx.
  - injection H as <-. cbn. by rewrite Hc.
  - destruct (findIndex p xs) as [k|]; [|discriminate]. injection H as <-.
    cbn. rewrite Hx. by apply IH.
Qed.

Lemma find_insert_other {A} (q : A -> bool) (c x : A) (l : list A) (i : nat) :
  l !! i = Some x -> q x = false -> q c = false ->
  List.find q (<[i:=c]> l) = List.find q l.
Proof.
  revert i. induction l as [|y ys IH]; intros i Hi Hx Hc; [discriminate|].
  destruct i as [|i]; cbn in Hi |- *.
  - injection Hi as ->. by rewrite Hx, Hc.
  - destruct (q y); [reflexivity|]. by apply IH.
Qed.

Lemma find_app_last {A} (q : A -> bool) (c : A) (l : list A) :
  List.find q (l ++ [c])
  = match List.find q l with
    | Some x => Some x
    | None => if q c then Some c else None
    end.
Proof.
  induction l as [|y ys IH]; cbn; [reflexivity|].
  destruct (q y); [reflexivity | exact IH].
Qed.

Lemma find_None_findIndex {A} (p : A -> bool) (l : list A) :
  findIndex p l = None -> List.find p l = None.
Proof.
  induction l as [|x xs IH]; [reflexivity|]. cbn.
  destruct (p x); [discriminate|].
  destruct (findIndex p xs); [discriminate|]. intros _. by apply IH.
Qed.

(** X8: the category store is a map by id.  After saveCategory of a
    category, getCategoryById of its id returns that category, and
    getCategoryById of any other id returns what it returned before; the
    list grows by one when the id was absent and keeps its length when it
    was present. *)
Theorem saveCategory_getCategoryById (category : Category)
    (categories : list Category) (other : string) :
  let saved := CategoryStorage.saveCategory category categories in
  CategoryStorage_getCategoryById saved (Category.id category) = Some category /\
  (other <> Category.id category ->
   CategoryStorage_getCategoryById saved other
   = CategoryStorage_getCategoryById categories other) /\
  length saved
  = match CategoryStorage_getCategoryById categories (Category.id category) with
    | Some _ => length categories
    | None => S (length categories)
    end.
Proof.
  unfold CategoryStorage.saveCategory, CategoryStorage_getCategoryById.
  cbn zeta.
  destruct (findIndex _ categories) as [i|] eqn:Hi.
  - destruct (findIndex_Some _ _ _ Hi) as (x & Hx & Hpx & _).
    split; [|split].
    + apply find_insert_found; [exact Hi | apply String.eqb_refl].
    + intros Hne. apply (find_insert_other _ _ x); [exact Hx | |].
      * apply String.eqb_eq in Hpx. rewrite Hpx. by apply String.eqb_neq.
      * apply String.eqb_neq. congruence.
    + rewrite length_insert.
      destruct (List.find _ categories) eqn:Hf; [reflexivity|].
      exfalso. assert (Hin : In x categories).
      { apply list_elem_of_In, list_elem_of_lookup. eauto. }
      pose proof (find_none _ _ Hf x Hin) as Hno. cbn beta in Hno. congruence.
  - pose proof (find_None_findIndex _ _ Hi) as Hnone.
    split; [|split].
    + rewrite find_app_last, Hnone. by rewrite String.eqb_refl.
    + intros Hne. rewrite find_app_last.
      destruct (List.find (fun x => String.eqb (Category.id x) other)
                          categories); [reflexivity|].
      replace (String.eqb (Category.id category) other) with false;
        [reflexivity|]. symmetry. apply String.eqb_neq. congruence.
    + rewrite Hnone, length_app. cbn. lia.
Qed.

Lemma map_replace_absent {A} (p : A -> bool) (u : A) (l : list A) :
  (forall x, In x l -> p x = false) ->
  List.map (fun c => if p c then u else c) l = l.
Proof.
  induction l as [|x xs IH]; intros H; [reflexivity|]. cbn.
  rewrite (H x) by (by left). f_equal. apply IH. intros y Hy. apply H. by right.
Qed.

Lemma map_replace_unique (u : Category) (l : list Category) (i : nat) :
  NoDup (List.map Category.id l) ->
  findIndex (fun c => String.eqb (Category.id c) (Category.id u)) l = Some i ->
  List.map (fun c => if String.eqb (Category.id c) (Category.id u) then u else c) l
  = <[i:=u]> l.
Proof.
  revert i. induction l as [|x xs IH]; intros i Hnd Hi; [discriminate|].
  cbn in Hi, Hnd |- *. apply NoDup_cons in Hnd as [Hx Hnd].
  destruct (String.eqb_spec (Category.id x) (Category.id u)) as [He|Hne].
  - injection Hi as <-. cbn. f_equal. apply map_replace_absent.
    intros y Hy. apply String.eqb_neq. intros Hyu. apply Hx.
    rewrite He, <- Hyu. apply list_elem_of_In, in_map, Hy.
  - destruct (findIndex _ xs) as [k|]; [|discriminate]. injection Hi as <-.
    cbn. f_equal. by apply IH.
Qed.

(** X9: updateCategory of the category hook never changes the ids of the
    state's categories or their order.  For an id the state does not know
    the state is left as it is, while a store that does not know it gains
    the category; for ids that are pairwise distinct a store that agreed
    with the state still agrees. *)
Theorem useCategories_updateCategory_effect (updated : Category)
    (sys : System) (w : World) :
  let sys' := fst (useCategories_updateCategory updated sys w) in
  List.map Category.id (AppState.categories (appState sys'))
    = List.map Category.id (AppState.categories (appState sys)) /\
  ((forall c, In c (AppState.categories (appState sys)) ->
              Category.id c <> Category.id updated) ->
   AppState.categories (appState sys') = AppState.categories (appState sys)) /\
  ((forall c, In c (categoryStore sys) -> Category.id c <> Category.id updated) ->
   categoryStore sys' = categoryStore sys ++ [updated]) /\
  (NoDup (List.map Category.id (categoryStore sys)) ->
   categoryStore sys = AppState.categories (appState sys) ->
   In (Category.id updated) (List.map Category.id (categoryStore sys)) ->
   categoryStore sys' = AppState.categories (appState sys')).
Proof.
  unfold useCategories_updateCategory, dispatch. cbn [appReducer]. run.
  cbn [setCategories appState categoryStore with_categories AppState.categories].
  split; [|split; [|split]].
  - rewrite List.map_map. apply List.map_ext. intros c.
    destruct (String.eqb_spec (Category.id c) (Category.id updated));
      congruence.
  - intros Habsent. apply map_replace_absent.
    intros c Hc. apply String.eqb_neq. by apply Habsent.
  - intros Habsent. unfold CategoryStorage.saveCategory.
    rewrite findIndex_None; [reflexivity|].
    intros c Hc. apply String.eqb_neq. by apply Habsent.
  - intros Hnd Heq Hin. rewrite <- Heq.
    unfold CategoryStorage.saveCategory.
    destruct (findIndex _ (categoryStore sys)) as [i|] eqn:Hi.
    + symmetry. by apply map_replace_unique.
    + exfalso. apply in_map_iff in Hin as (c & Hc & Hin).
      assert (Hall : forall x, In x (categoryStore sys) ->
                String.eqb (Category.id x) (Category.id updated) = false).
      { intros x Hx.
        destruct (String.eqb (Category.id x) (Category.id updated)) eqn:E;
          [|reflexivity].
        exfalso. clear -Hi Hx E.
        induction (categoryStore sys) as [|y ys IH]; [destruct Hx|].
        cbn in Hi. destruct Hx as [->|Hx].
        - by rewrite E in Hi.
        - destruct (String.eqb (Category.id y) (Category.id updated));
            [discriminate|].
          destruct (findIndex _ ys); [discriminate|]. by apply IH. }
      specialize (Hall c Hin). rewrite Hc, String.eqb_refl in Hall.
      discriminate.
Qed.

Lemma useCategories_updateCategory_effect_witness :
  categoryStore
    (fst (useCategories_updateCategory
            (Category.mk "work" "Office" "#3742fa" None 5 2) workSystem world0))
  = AppState.categories
      (appState
         (fst (useCategories_updateCategory
                 (Category.mk "work" "Office" "#3742fa" None 5 2) workSystem
                 world0))).
Proof.
  apply (proj2 (proj2 (proj2
           (useCategories_updateCategory_effect
              (Category.mk "work" "Office" "#3742fa" None 5 2) workSystem
              world0)))).
  - repeat constructor; cbn; intros H; inversion H as [|? ? ? H']; subst;
      try discriminate; inversion H'.
  - reflexivity.
  - cbn. tauto.
Defined.

(** X10: addCategory of the category hook makes a category with the drawn
    token as id and no tasks counted, appends it to the state's categories
    and -- when no stored category has its id -- to the store; the tasks are
    untouched. *)
Theorem useCategories_addCategory_appends (data : CreateCategoryInput)
    (sys : System) (w : World) :
  let r := fst (useCategories_addCategory data sys w) in
  let c := fst r in
  let sys' := snd r in
  Category.id c = tokens w (draws w) /\
  Category.taskCount c = 0 /\
  Category.name c = CreateCategoryInput.name data /\
  AppState.categories (appState sys') = AppState.categories (appState sys) ++ [c] /\
  ((forall x, In x (categoryStore sys) -> Category.id x <> Category.id c) ->
   categoryStore sys' = categoryStore sys ++ [c]) /\
  AppState.tasks (appState sys') = AppState.tasks (appState sys) /\
  taskStore sys' = taskStore sys.
Proof.
  unfold useCategories_addCategory, dispatch, createCategory.
  cbn [appReducer]. run.
  cbn [appState taskStore categoryStore with_categories AppState.categories
       AppState.tasks Category.id Category.taskCount Category.name].
  repeat split.
  intros Hfresh. unfold CategoryStorage.saveCategory.
  rewrite findIndex_None; [reflexivity|].
  intros x Hx. apply String.eqb_neq. by apply Hfresh.
Qed.

Lemma hasDefault_insert (c : Category) (l : list Category) (i : nat) (x : Category) :
  l !! i = Some x -> Category.id x = Category.id c ->
  hasDefault l -> hasDefault (<[i:=c]> l).
Proof.
  intros Hx Hid (d & Hd & Hdef).
  apply list_elem_of_In, list_elem_of_lookup in Hd as [j Hj].
  destruct (decide (i = j)) as [->|Hne].
  - exists c. split.
    + apply list_elem_of_In, list_elem_of_lookup. exists j.
      apply list_lookup_insert_eq. eapply lookup_lt_Some, Hj.
    + rewrite Hj in Hx. injection Hx as <-. congruence.
  - exists d. split; [|exact Hdef].
    apply list_elem_of_In, list_elem_of_lookup. exists j.
    by rewrite list_lookup_insert_ne.
Qed.

Lemma hasDefault_saveCategory (c : Category) (l : list Category) :
  hasDefault l -> hasDefault (CategoryStorage.saveCategory c l).
Proof.
  intros H. unfold CategoryStorage.saveCategory.
  destruct (findIndex _ l) as [i|] eqn:Hi.
  - destruct (findIndex_Some _ _ _ Hi) as (x & Hx & Hpx & _).
    apply (hasDefault_insert c l i x); [exact Hx | | exact H].
    by apply String.eqb_eq.
  - destruct H as (d & Hd & Hdef). exists d. split; [|exact Hdef].
    apply in_or_app. by left.
Qed.

(** X11: the operations of the category hook -- addCategory, updateCategory,
    deleteCategory -- never lose the reserved category: when the state's
    category list and the store each hold a category with id "default",
    they still do afterwards, whatever the arguments. *)
Theorem useCategories_keep_default
    (data : CreateCategoryInput) (updated : Category) (id : string)
    (sys : System) (w : World) :
  hasDefault (AppState.categories (appState sys)) ->
  hasDefault (categoryStore sys) ->
  let kept (sys' : System) :=
    hasDefault (AppState.categories (appState sys')) /\
    hasDefault (categoryStore sys') in
  kept (snd (fst (useCategories_addCategory data sys w))) /\
  kept (fst (useCategories_updateCategory updated sys w)) /\
  kept (snd (fst (useCategories.deleteCategory id sys w))).
Proof.
  intros Hs Hst. cbn zeta. split; [|split].
  - unfold useCategories_addCategory, dispatch. cbn [appReducer]. run.
    cbn [appState categoryStore with_categories AppState.categories].
    split; [|by apply hasDefault_saveCategory].
    destruct Hs as (d & Hd & Hdef). exists d. split; [|exact Hdef].
    apply in_or_app. by left.
  - unfold useCategories_updateCategory, dispatch. cbn [appReducer]. run.
    cbn [appState categoryStore with_categories AppState.categories].
    split; [|by apply hasDefault_saveCategory].
    destruct Hs as (d & Hd & Hdef).
    destruct (String.eqb_spec (Category.id d) (Category.id updated)) as [He|Hne].
    + exists updated. split; [|congruence].
      apply in_map_iff. exists d. split; [|exact Hd].
      by rewrite He, String.eqb_refl.
    + exists d. split; [|exact Hdef].
      apply in_map_iff. exists d. split; [|exact Hd].
      apply String.eqb_neq in Hne. by rewrite Hne.
  - unfold useCategories.deleteCategory.
    destruct (String.eqb_spec id "default") as [->|Hne]; [by split|].
    run. fold (moveActions
                 (List.filter (fun task => String.eqb (Task.category task) id)
                              (AppState.tasks (appState sys)))).
    destruct (dispatchAll_moves
                (List.filter (fun task => String.eqb (Task.category task) id)
                             (AppState.tasks (appState sys))) sys w)
      as (Hc & _ & Hcs & _).
    unfold dispatch. cbn [appReducer]. run.
    cbn [setCategories appState categoryStore with_categories AppState.categories].
    rewrite Hc, Hcs. unfold CategoryStorage.deleteCategory.
    destruct (String.eqb_spec id "default") as [|_]; [contradiction|].
    assert (Hkeep : forall l, hasDefault l ->
              hasDefault (List.filter
                            (fun c => negb (String.eqb (Category.id c) id)) l)).
    { intros l (d & Hd & Hdef). exists d. split; [|exact Hdef].
      apply filter_In. split; [exact Hd|].
      apply negb_true_iff, String.eqb_neq. congruence. }
    split; by apply Hkeep.
Qed.

Lemma useCategories_keep_default_witness :
  hasDefault
    (AppState.categories
       (appState (snd (fst (useCategories.deleteCategory "default" workSystem
                               world0))))).
Proof.
  assert (H : hasDefault [defaultCategory; workCategory]).
  { exists defaultCategory. split; [by left | reflexivity]. }
  apply (useCategories_keep_default
           (CreateCategoryInput.mk "Home" "#26de81" None) workCategory
           "default" workSystem world0 H H).
Defined.

(** ** The task counts of the categories *)

Lemma somei_map_false {A B} (f : A -> B) (p : B -> nat -> bool)
    (l : list A) (i : nat) :
  TodoProvider.somei_from i p (List.map f l) = false <->
  forall j x, l !! j = Some x -> p (f x) (i + j)%nat = false.
Proof.
  revert i. induction l as [|y ys IH]; intros i; cbn.
  - split; [intros _ j x H; discriminate | reflexivity].
  - rewrite orb_false_iff, IH. split.
    + intros [Hy Hys] [|j] x Hx; cbn in Hx.
      * injection Hx as <-. by rewrite Nat.add_0_r.
      * rewrite <- Nat.add_succ_comm. by apply Hys.
    + intros H. split.
      * specialize (H 0%nat y eq_refl). by rewrite Nat.add_0_r in H.
      * intros j x Hx. rewrite Nat.add_succ_comm. by apply (H (S j)).
Qed.

Lemma hasChanges_false (state : AppState) :
  TodoProvider.hasChanges state = false <->
  forall j c, AppState.categories state !! j = Some c ->
              Category.taskCount c
              = TodoProvider.taskCountOf (AppState.tasks state) (Category.id c).
Proof.
  unfold TodoProvider.hasChanges, TodoProvider.updatedCategories.
  rewrite somei_map_false. split; intros H j c Hc; specialize (H j c Hc);
    cbn in H |- *; rewrite Hc in *.
  - apply negb_false_iff, Z.eqb_eq in H. cbn in H. congruence.
  - apply negb_false_iff, Z.eqb_eq. cbn. congruence.
Qed.

Lemma updatedCategories_lookup (state : AppState) (j : nat) (c' : Category) :
  TodoProvider.updatedCategories state !! j = Some c' ->
  exists c, AppState.categories state !! j = Some c /\
            Category.id c' = Category.id c /\
            Category.name c' = Category.name c /\
            Category.taskCount c'
            = TodoProvider.taskCountOf (AppState.tasks state) (Category.id c).
Proof.
  unfold TodoProvider.updatedCategories.
  revert j. induction (AppState.categories state) as [|x xs IH]; intros j H;
    [discriminate|].
  destruct j as [|j]; cbn in H.
  - injection H as <-. exists x. repeat split.
  - destruct (IH j H) as (c & Hc & Hrest). exists c. split; [exact Hc | exact Hrest].
Qed.

(** X12: one run of the provider's task-count effect leaves every category
    with taskCount equal to the number of tasks whose category is its id,
    and changes nothing else: the tasks, and the ids and names of the
    categories in their order, are as before.  The effect then has nothing
    more to do (a second run finds no change), so it cannot loop. *)
Theorem syncTaskCounts_settles (state : AppState) (w : World) :
  let state' := fst (TodoProvider.syncTaskCounts state w) in
  AppState.tasks state' = AppState.tasks state /\
  List.map Category.id (AppState.categories state')
    = List.map Category.id (AppState.categories state) /\
  List.map Category.name (AppState.categories state')
    = List.map Category.name (AppState.categories state) /\
  (forall c, In c (AppState.categories state') ->
     Category.taskCount c
     = Z.of_nat (length (List.filter
                           (fun task => String.eqb (Task.category task)
                                                   (Category.id c))
                           (AppState.tasks state')))) /\
  TodoProvider.hasChanges state' = false /\
  TodoProvider.syncTaskCounts state' w = (state', w).
Proof.
  cbn zeta.
  assert (Hgoal :
    AppState.tasks (fst (TodoProvider.syncTaskCounts state w)) = AppState.tasks state /\
    List.map Category.id (AppState.categories (fst (TodoProvider.syncTaskCounts state w)))
      = List.map Category.id (AppState.categories state) /\
    List.map Category.name (AppState.categories (fst (TodoProvider.syncTaskCounts state w)))
      = List.map Category.name (AppState.categories state) /\
    TodoProvider.hasChanges (fst (TodoProvider.syncTaskCounts state w)) = false).
  { unfold TodoProvider.syncTaskCounts.
    destruct (TodoProvider.hasChanges state) eqn:Hch.
    - cbn [appReducer]. run. cbn [with_categories AppState.tasks AppState.categories].
      split; [reflexivity|].
      split; [unfold TodoProvider.updatedCategories; rewrite List.map_map;
              reflexivity|].
      split; [unfold TodoProvider.updatedCategories; rewrite List.map_map;
              reflexivity|].
      apply hasChanges_false. cbn [with_categories AppState.tasks AppState.categories].
      intros j c' Hc'.
      destruct (updatedCategories_lookup state j c' Hc') as (c & _ & Hid & _ & Hn).
      by rewrite Hn, Hid.
    - run. repeat split. exact Hch. }
  destruct Hgoal as (Ht & Hids & Hnames & Hsettled).
  split; [exact Ht|]. split; [exact Hids|]. split; [exact Hnames|].
  split; [|split; [exact Hsettled|]].
  - intros c Hc.
    apply list_elem_of_In, list_elem_of_lookup in Hc as [j Hj].
    apply (proj1 (hasChanges_false _) Hsettled j c Hj).
  - unfold TodoProvider.syncTaskCounts at 1. by rewrite Hsettled.
Qed.

(** ** The counts of the task list *)

(** X13: the three status counts shown in the header add up to the total:
    every task is counted under exactly one of todo, in-progress and
    completed. *)
Theorem status_counts_partition (state : AppState) :
  (useFilteredTasks.todoTasks state + useFilteredTasks.inProgressTasks state
   + useFilteredTasks.completedTasks state)%nat
  = useFilteredTasks.totalTasks state.
Proof.
  unfold useFilteredTasks.todoTasks, useFilteredTasks.inProgressTasks,
    useFilteredTasks.completedTasks, useFilteredTasks.totalTasks,
    useFilteredTasks.countStatus.
  induction (AppState.tasks state) as [|t ts IH]; [reflexivity|].
  cbn [List.filter length]. destruct (Task.status t); cbn; lia.
Qed.

(** ** The derived view, further *)

Section SortStability.
Context {A : Type}.
Variable comparefn : A -> A -> Z.

Lemma ordered_neighbours (l : list A) (i : nat) (a b : A) :
  ordered comparefn l -> l !! i = Some a -> l !! S i = Some b ->
  comparefn a b <= 0.
Proof.
  revert i. induction l as [|x xs IH]; intros i Hord Ha Hb; [discriminate|].
  destruct Hord as [Hx Hl]. destruct i as [|i]; cbn in Ha, Hb.
  - injection Ha as ->. destruct xs as [|y ys]; [discriminate|].
    cbn in Hb. injection Hb as ->. exact Hx.
  - by apply (IH i).
Qed.

(** Elements the comparator never puts strictly after one another are not
    moved past each other. *)
Lemma insertSorted_filter (P : A -> bool) (x : A) (l : list A) :
  (forall y, In y l -> P x = true -> P y = true -> comparefn x y <= 0) ->
  List.filter P (insertSorted comparefn x l) = List.filter P (x :: l).
Proof.
  induction l as [|y l IH]; intros H; [reflexivity|].
  cbn [insertSorted]. destruct (Z.leb_spec (comparefn x y) 0) as [Hle|Hgt];
    [reflexivity|].
  assert (IH' : List.filter P (insertSorted comparefn x l) = List.filter P (x :: l)).
  { apply IH. intros z Hz. apply H. by right. }
  cbn [List.filter] in IH' |- *. rewrite IH'.
  destruct (P x) eqn:Hx, (P y) eqn:Hy; try reflexivity.
  specialize (H y (or_introl eq_refl) eq_refl Hy). lia.
Qed.

Lemma sort_filter (P : A -> bool) (l : list A) :
  (forall x y, P x = true -> P y = true -> comparefn x y <= 0) ->
  List.filter P (sort comparefn l) = List.filter P l.
Proof.
  intros H. induction l as [|x l IH]; [reflexivity|].
  cbn [sort]. rewrite insertSorted_filter by (intros y _; apply H).
  cbn [List.filter]. by rewrite IH.
Qed.

End SortStability.

Lemma findIndex_In {A} (p : A -> bool) (l : list A) (x : A) :
  In x l -> p x = true -> exists i, findIndex p l = Some i.
Proof.
  induction l as [|y ys IH]; intros Hin Hp; [destruct Hin|].
  cbn. destruct (p y) eqn:Hy; [eauto|].
  destruct Hin as [->|Hin]; [congruence|].
  destruct (IH Hin Hp) as [i ->]. eauto.
Qed.

Section DerivedViewMore.

Variable toLowerCase : string -> string.
Variable localeCompare : string -> string -> Z.

Local Abbreviation view := (filteredTasks toLowerCase localeCompare).
Local Abbreviation shown state :=
  (visible toLowerCase (UIState.filter (AppState.ui state))
           (AppState.settings state)).

Lemma view_In (state : AppState) (t : Task) :
  In t (view state) <-> In t (AppState.tasks state) /\ shown state t = true.
Proof. rewrite filteredTasks_visible, sort_In, filter_In. tauto. Qed.

(** X14: the derived view shows exactly the tasks of the state that pass
    every active criterion, each as often as it is in the task list (it is
    a rearrangement of them): with showCompleted off no completed task is
    shown, with a status, category or priority filter only tasks of that
    status, category or priority; and every task that passes is shown. *)
Theorem filteredTasks_exact (state : AppState) :
  Permutation (view state) (List.filter (shown state) (AppState.tasks state)) /\
  (forall t, In t (view state)
             <-> In t (AppState.tasks state) /\ shown state t = true) /\
  (length (view state) <= length (AppState.tasks state))%nat /\
  (forall t, In t (view state) ->
     (Settings.showCompleted (AppState.settings state) = false ->
      Task.status t <> completed) /\
     (forall s, Filter.status (UIState.filter (AppState.ui state)) = Some s ->
                Task.status t = s) /\
     (Filter.category (UIState.filter (AppState.ui state)) <> "all" ->
      Task.category t = Filter.category (UIState.filter (AppState.ui state))) /\
     (forall p, Filter.priority (UIState.filter (AppState.ui state)) = Some p ->
                Task.priority t = p)).
Proof.
  rewrite filteredTasks_visible.
  assert (Hperm := sort_Permutation
            (compareTasks localeCompare (AppState.settings state))
            (List.filter (shown state) (AppState.tasks state))).
  assert (Hin : forall t,
            In t (sort (compareTasks localeCompare (AppState.settings state))
                       (List.filter (shown state) (AppState.tasks state)))
            <-> In t (AppState.tasks state) /\ shown state t = true).
  { intros t. rewrite sort_In, filter_In. tauto. }
  split; [exact Hperm|]. split; [exact Hin|]. split.
  - rewrite (Permutation_length Hperm). apply List.filter_length_le.
  - intros t Ht. apply Hin in Ht as [_ Hv]. unfold visible in Hv.
    apply andb_true_iff in Hv as [Hv Hdone].
    apply andb_true_iff in Hv as [Hv Hquery].
    apply andb_true_iff in Hv as [Hv Hprio].
    apply andb_true_iff in Hv as [Hstatus Hcat].
    repeat split.
    + intros Hoff Hc. rewrite Hoff, Hc in Hdone. discriminate.
    + intros s Hs. rewrite Hs in Hstatus. by destruct (Task.status t), s.
    + intros Hne.
      destruct (String.eqb_spec
                  (Filter.category (UIState.filter (AppState.ui state))) "all");
        [contradiction|].
      cbn in Hcat. by apply String.eqb_eq.
    + intros p Hp. rewrite Hp in Hprio. by destruct (Task.priority t), p.
Qed.

(** X15: the view is in the order the settings ask for: of two neighbours
    the first is never strictly after the second.  For sortBy = priority
    and sortOrder = desc the priorities fall (high first), for asc they
    rise; for sortBy = createdAt and desc the newest is first; and for the
    remaining key (dueDate, sorted by the order field) desc gives rising
    order values and asc falling ones.  [localeCompare] is assumed to flip
    its sign when its arguments are swapped. *)
Theorem filteredTasks_ordered (state : AppState) (i : nat) (a b : Task) :
  antisymmetric localeCompare ->
  view state !! i = Some a ->
  view state !! S i = Some b ->
  let settings := AppState.settings state in
  compareTasks localeCompare settings a b <= 0 /\
  (Settings.sortBy settings = by_priority ->
   Settings.sortOrder settings = desc ->
   priorityOrder (Task.priority b) <= priorityOrder (Task.priority a)) /\
  (Settings.sortBy settings = by_priority ->
   Settings.sortOrder settings = asc ->
   priorityOrder (Task.priority a) <= priorityOrder (Task.priority b)) /\
  (Settings.sortBy settings = by_createdAt ->
   Settings.sortOrder settings = desc ->
   Task.createdAt b <= Task.createdAt a) /\
  (Settings.sortBy settings = by_dueDate ->
   Settings.sortOrder settings = desc ->
   Task.order a <= Task.order b) /\
  (Settings.sortBy settings = by_dueDate ->
   Settings.sortOrder settings = asc ->
   Task.order b <= Task.order a).
Proof.
  intros Hanti Ha Hb. cbn zeta.
  assert (H : compareTasks localeCompare (AppState.settings state) a b <= 0).
  { apply (ordered_neighbours _ (view state) i); [|exact Ha | exact Hb].
    rewrite filteredTasks_visible. apply sort_ordered.
    intros x y. by apply compareTasks_total. }
  split; [exact H|]. unfold compareTasks in H.
  repeat split; intros Hby Hord; rewrite Hby, Hord in H; lia.
Qed.

(** X16: the view is stable: tasks that the comparator does not order
    strictly -- tasks of the same priority when sorting by priority, of the
    same creation time when sorting by createdAt -- appear in the order they
    have in the task list.  Stated for any group [P] of tasks no two of
    which the comparator orders strictly. *)
Theorem filteredTasks_stable (state : AppState) (P : Task -> bool) :
  (forall x y, P x = true -> P y = true ->
     compareTasks localeCompare (AppState.settings state) x y <= 0) ->
  List.filter P (view state)
  = List.filter P (List.filter (shown state) (AppState.tasks state)).
Proof.
  intros H. rewrite filteredTasks_visible. by apply sort_filter.
Qed.

(** The groups of equal priority are such groups when sorting by
    priority. *)
Lemma same_priority_unordered (settings : Settings) (p : Priority) (x y : Task) :
  Settings.sortBy settings = by_priority ->
  Priority_eqb (Task.priority x) p = true ->
  Priority_eqb (Task.priority y) p = true ->
  compareTasks localeCompare settings x y <= 0.
Proof.
  intros Hby Hx Hy. unfold compareTasks. rewrite Hby.
  destruct (Task.priority x), (Task.priority y), p; try discriminate;
    destruct (Settings.sortOrder settings); cbn; lia.
Qed.

(** X17: clearFilters resets the four filter criteria whatever they were,
    leaves the tasks alone, and the view then shows all tasks when
    showCompleted is on and all but the completed ones when it is off. *)
Theorem clearFilters_shows_all (sys : System) (w : World) :
  let sys' := fst (useUI.clearFilters sys w) in
  UIState.filter (AppState.ui (appState sys')) = Filter.mk None "all" None "" /\
  AppState.tasks (appState sys') = AppState.tasks (appState sys) /\
  AppState.settings (appState sys') = AppState.settings (appState sys) /\
  (Settings.showCompleted (AppState.settings (appState sys)) = true ->
   Permutation (view (appState sys')) (AppState.tasks (appState sys))) /\
  (Settings.showCompleted (AppState.settings (appState sys)) = false ->
   Permutation (view (appState sys'))
     (List.filter (fun task => negb (Status_eqb (Task.status task) completed))
                  (AppState.tasks (appState sys)))).
Proof.
  unfold useUI.clearFilters, dispatch. cbn [appReducer]. run.
  cbn [appState with_ui AppState.ui AppState.tasks AppState.settings
       UIState.filter patchFilter spread PartialFilter.status
       PartialFilter.category PartialFilter.priority PartialFilter.searchQuery].
  split; [reflexivity|]. split; [reflexivity|]. split; [reflexivity|].
  split; intros Hshow; rewrite filteredTasks_visible;
    cbn [with_ui AppState.ui AppState.tasks AppState.settings UIState.filter];
    rewrite sort_Permutation.
  - rewrite filter_all; [reflexivity|].
    intros t _. unfold visible. cbn. by rewrite Hshow.
  - erewrite List.filter_ext; [reflexivity|].
    intros t. unfold visible. cbn. by rewrite Hshow.
Qed.

(** [arrayMove] of [@dnd-kit/sortable] *)
Variable arrayMove : list Task -> nat -> nat -> list Task.

(** X18: a drag that ends on another shown task replaces the task list of
    the state by a rearrangement of the tasks shown, not of all tasks: a
    task hidden by the filter or by showCompleted is in the state no more,
    and the store is overwritten with as many tasks as were shown.  A drag
    that ends nowhere or on the dragged task itself changes nothing.
    [arrayMove] is assumed to return a rearrangement of its argument. *)
Theorem handleDragEnd_keeps_shown_only
    (active overId : string) (sys : System) (w : World) (a o : Task) :
  (forall l i j, Permutation (arrayMove l i j) l) ->
  active <> overId ->
  In a (view (appState sys)) -> Task.id a = active ->
  In o (view (appState sys)) -> Task.id o = overId ->
  let sys' := fst (handleDragEnd toLowerCase localeCompare arrayMove
                     active (Some overId) sys w) in
  Permutation (AppState.tasks (appState sys')) (view (appState sys)) /\
  (forall t, In t (AppState.tasks (appState sys)) ->
             shown (appState sys) t = false ->
             ~ In t (AppState.tasks (appState sys'))) /\
  length (taskStore sys') = length (view (appState sys)) /\
  fst (handleDragEnd toLowerCase localeCompare arrayMove active None sys w) = sys /\
  fst (handleDragEnd toLowerCase localeCompare arrayMove active (Some active)
         sys w) = sys.
Proof.
  intros Hperm Hne Ha Hida Ho Hido. cbn zeta.
  assert (Hnone : fst (handleDragEnd toLowerCase localeCompare arrayMove
                         active None sys w) = sys) by reflexivity.
  assert (Hself : fst (handleDragEnd toLowerCase localeCompare arrayMove
                         active (Some active) sys w) = sys).
  { unfold handleDragEnd. by rewrite String.eqb_refl. }
  unfold handleDragEnd at 1 2 3.
  apply String.eqb_neq in Hne. rewrite Hne. cbn [negb].
  destruct (findIndex_In (fun task => String.eqb (Task.id task) active)
              (view (appState sys)) a Ha) as [i Hi];
    [by apply String.eqb_eq|].
  destruct (findIndex_In (fun task => String.eqb (Task.id task) overId)
              (view (appState sys)) o Ho) as [j Hj];
    [by apply String.eqb_eq|].
  rewrite Hi, Hj.
  unfold useTasks.reorderTaskList, dispatch. cbn [appReducer]. run.
  cbn [setTasks appState taskStore with_tasks AppState.tasks].
  split; [apply Hperm|]. split; [|split; [|split; [exact Hnone | exact Hself]]].
  - intros t Ht Hhidden Hin.
    apply (Permutation_in _ (Hperm _ i j)) in Hin.
    apply view_In in Hin as [_ Hv]. congruence.
  - unfold TaskStorage.reorderTasks, imapM. rewrite imapM_from_length.
    apply Permutation_length, Hperm.
Qed.

End DerivedViewMore.

Lemma moveElement_Permutation (l : list Task) (i j : nat) :
  Permutation (moveElement l i j) l.
Proof.
  unfold moveElement. destruct (l !! i) as [x|] eqn:Hx; [|reflexivity].
  rewrite (delete_Permutation l i x Hx) at 3.
  rewrite <- Permutation_middle. by rewrite take_drop.
Qed.

Lemma filteredTasks_ordered_witness :
  priorityOrder (Task.priority taskA) <= priorityOrder (Task.priority taskB).
Proof.
  destruct (filteredTasks_ordered (fun s => s) ordinalCompare (abState desc)
              0%nat taskB taskA ordinalCompare_antisymmetric eq_refl eq_refl)
    as (_ & Hdesc & _).
  apply Hdesc; reflexivity.
Defined.

Lemma filteredTasks_stable_witness :
  List.filter (fun t => Priority_eqb (Task.priority t) high)
    (filteredTasks (fun s => s) ordinalCompare (abState asc))
  = List.filter (fun t => Priority_eqb (Task.priority t) high)
      (List.filter
         (visible (fun s => s) (UIState.filter (AppState.ui (abState asc)))
                  (AppState.settings (abState asc)))
         (AppState.tasks (abState asc))).
Proof.
  apply (filteredTasks_stable (fun s => s) ordinalCompare (abState asc)
           (fun t => Priority_eqb (Task.priority t) high)).
  intros x y. by apply same_priority_unordered.
Defined.

Lemma handleDragEnd_keeps_shown_only_witness :
  ~ In doneTask
      (AppState.tasks
         (appState (fst (handleDragEnd (fun s => s) ordinalCompare moveElement
                           "id-a" (Some "id-b") todoOnlySystem world0)))).
Proof.
  assert (Hne : "id-a" <> "id-b") by discriminate.
  assert (Ha : In taskA (filteredTasks (fun s => s) ordinalCompare
                           (appState todoOnlySystem))) by (right; by left).
  assert (Hb : In taskB (filteredTasks (fun s => s) ordinalCompare
                           (appState todoOnlySystem))) by (by left).
  destruct (handleDragEnd_keeps_shown_only (fun s => s) ordinalCompare
              moveElement "id-a" "id-b" todoOnlySystem world0 taskA taskB
              moveElement_Permutation Hne Ha eq_refl Hb eq_refl)
    as (_ & Hhidden & _).
  apply Hhidden; [right; by left | reflexivity].
Defined.

(** ** The task form *)

(** X19: the tag input keeps the tag list well formed: if no tag occurs
    twice, none is empty and there are at most ten, the same holds after
    any key press in the tag input and after any removal; a removed tag is
    gone, and neither operation touches the other fields of the form
    (title, description, priority, category). *)
Theorem TaskForm_tags_stay_well_formed
    (key tagInput tagToRemove : string) (formData : TaskFormData) :
  wellTagged (TaskFormData.tags formData) ->
  let added := fst (TaskForm.handleTagAdd key tagInput formData) in
  let removed := TaskForm.handleTagRemove tagToRemove formData in
  let sameOtherFields (formData' : TaskFormData) :=
    TaskFormData.title formData' = TaskFormData.title formData /\
    TaskFormData.description formData' = TaskFormData.description formData /\
    TaskFormData.priority formData' = TaskFormData.priority formData /\
    TaskFormData.category formData' = TaskFormData.category formData in
  wellTagged (TaskFormData.tags added) /\
  wellTagged (TaskFormData.tags removed) /\
  ~ In tagToRemove (TaskFormData.tags removed) /\
  sameOtherFields added /\
  sameOtherFields removed.
Proof.
  intros (Hnd & Hlen & Hne). cbn zeta.
  split; [|split; [|split; [|split]]].
  - unfold TaskForm.handleTagAdd.
    destruct (String.eqb key "Enter" || String.eqb key ",");
      [|by repeat split].
    destruct (truthy (trim tagInput)) eqn:Htr; cbn [andb]; [|by repeat split].
    destruct (List.existsb _ _) eqn:Hex; cbn [negb andb]; [by repeat split|].
    destruct (Nat.ltb_spec (length (TaskFormData.tags formData)) 10) as [Hlt|];
      [|by repeat split].
    cbn [fst TaskFormData.tags].
    assert (Hnew : ~ In (trim tagInput) (TaskFormData.tags formData)).
    { intros Hin. apply not_true_iff_false in Hex. apply Hex.
      apply existsb_exists. exists (trim tagInput). split; [exact Hin|].
      apply String.eqb_refl. }
    repeat split.
    + apply NoDup_app. repeat split; [exact Hnd | | apply NoDup_singleton].
      intros x Hx Hx'. apply list_elem_of_In in Hx.
      apply list_elem_of_singleton in Hx'. subst. contradiction.
    + rewrite length_app. cbn. lia.
    + intros Hin. apply in_app_or in Hin as [Hin|[Hin|[]]]; [contradiction|].
      rewrite Hin in Htr. discriminate.
  - unfold TaskForm.handleTagRemove. cbn [TaskFormData.tags]. repeat split.
    + apply NoDup_ListNoDup, List.NoDup_filter, NoDup_ListNoDup, Hnd.
    + etransitivity; [apply List.filter_length_le | exact Hlen].
    + intros Hin. apply filter_In in Hin. tauto.
  - unfold TaskForm.handleTagRemove. cbn [TaskFormData.tags].
    intros Hin. apply filter_In in Hin as [_ Hin].
    by rewrite String.eqb_refl in Hin.
  - unfold TaskForm.handleTagAdd.
    repeat match goal with |- context [if ?b then _ else _] => destruct b end;
      by repeat split.
  - by repeat split.
Qed.

Lemma TaskForm_tags_stay_well_formed_witness :
  wellTagged
    (TaskFormData.tags
       (fst (TaskForm.handleTagAdd "Enter" " urgent "
               (TaskFormData.mk "Report" "" medium "default" ["work"])))).
Proof.
  apply (TaskForm_tags_stay_well_formed "Enter" " urgent " "work"
           (TaskFormData.mk "Report" "" medium "default" ["work"])).
  repeat split.
  - apply NoDup_singleton.
  - cbn. lia.
  - intros [H|[]]. discriminate.
Defined.

Lemma closeTaskForm_tasks (sys : System) (w : World) :
  AppState.tasks (appState (fst (useUI.closeTaskForm sys w)))
    = AppState.tasks (appState sys) /\
  UIState.isTaskFormOpen (AppState.ui (appState (fst (useUI.closeTaskForm sys w))))
    = false /\
  UIState.editingTask (AppState.ui (appState (fst (useUI.closeTaskForm sys w))))
    = None.
Proof. repeat split. Qed.

(** X20: a submission of the task form that is not an edit.  When the form
    has an error (a blank title, a title of more than 100 or a description
    of more than 500 code units, no category) nothing is created and the
    system is left as it is.  Otherwise one task is appended to the task
    list of the state, with the trimmed title (not empty), status todo, an
    empty completion comment, no completedAt, the trimmed description and
    the form's priority, category (not empty) and tags; the form is closed;
    and a state that satisfied the task invariant still does. *)
Theorem TaskForm_submit_creates (formData : TaskFormData) (sys : System)
    (w : World) :
  let r := fst (TaskForm.handleSubmit None formData sys w) in
  (ValidationErrors.none (TaskForm.validateForm formData) = false ->
   snd r = sys) /\
  (ValidationErrors.none (TaskForm.validateForm formData) = true ->
   exists t,
     AppState.tasks (appState (snd r)) = AppState.tasks (appState sys) ++ [t] /\
     Task.title t = trim (TaskFormData.title formData) /\
     Task.title t <> "" /\
     (jsLength (TaskFormData.title formData) <= 100)%nat /\
     (jsLength (TaskFormData.description formData) <= 500)%nat /\
     Task.description t = trim (TaskFormData.description formData) /\
     Task.category t = TaskFormData.category formData /\
     Task.category t <> "" /\
     Task.status t = todo /\
     Task.completionComment t = "" /\
     Task.completedAt t = None /\
     Task.priority t = TaskFormData.priority formData /\
     Task.tags t = TaskFormData.tags formData /\
     UIState.isTaskFormOpen (AppState.ui (appState (snd r))) = false /\
     (stateInvariant (appState sys) -> stateInvariant (appState (snd r)))).
Proof.
  cbn zeta. unfold TaskForm.handleSubmit.
  destruct (ValidationErrors.none (TaskForm.validateForm formData)) eqn:Hok;
    cbn [negb]; split; try discriminate; try reflexivity.
  intros _. run.
  destruct (useTasks_addTask_shape (TaskForm.taskData formData) sys w)
    as (Ht & Hstate).
  exists (fst (fst (useTasks.addTask (TaskForm.taskData formData) sys w))).
  destruct (closeTaskForm_tasks
              (snd (fst (useTasks.addTask (TaskForm.taskData formData) sys w)))
              (snd (useTasks.addTask (TaskForm.taskData formData) sys w)))
    as (Htasks & Hclosed & _).
  unfold stateInvariant.
  rewrite Htasks, Hstate, Ht, createTask_run.
  cbn [fst Task.title Task.description Task.category Task.status
       Task.completionComment Task.completedAt Task.priority Task.tags
       TaskForm.taskData CreateTaskInput.title CreateTaskInput.description
       CreateTaskInput.category CreateTaskInput.status
       CreateTaskInput.completionComment CreateTaskInput.priority
       CreateTaskInput.tags].
  unfold TaskForm.validateForm, ValidationErrors.none in Hok.
  cbn [ValidationErrors.title ValidationErrors.description
       ValidationErrors.category] in Hok.
  destruct (truthy (trim (TaskFormData.title formData))) eqn:Htitle;
    cbn [negb] in Hok; [|discriminate].
  destruct (Nat.ltb_spec 100 (jsLength (TaskFormData.title formData)));
    [discriminate|].
  destruct (Nat.ltb_spec 500 (jsLength (TaskFormData.description formData)));
    [discriminate|].
  destruct (truthy (TaskFormData.category formData)) eqn:Hcat;
    cbn [negb] in Hok; [|discriminate].
  repeat split; try assumption.
  - intros He. unfold truthy in Htitle. by rewrite He in Htitle.
  - intros He. unfold truthy in Hcat. by rewrite He in Hcat.
  - intros Hinv. apply Forall_app. split; [exact Hinv|].
    constructor; [|constructor]. split; [intros [? ?]|]; discriminate.
Qed.

Lemma TaskForm_submit_creates_witness :
  exists t,
    AppState.tasks
      (appState (snd (fst (TaskForm.handleSubmit None
                             (TaskFormData.mk " Report " "" high "work" ["q3"])
                             workSystem world0))))
    = AppState.tasks (appState workSystem) ++ [t] /\
    Task.title t = "Report" /\ Task.status t = todo.
Proof.
  destruct (proj2 (TaskForm_submit_creates
                     (TaskFormData.mk " Report " "" high "work" ["q3"])
                     workSystem world0) eq_refl)
    as (t & Htasks & Htitle & _ & _ & _ & _ & _ & _ & Hstatus & _).
  exists t. split; [exact Htasks|]. split; [exact Htitle | exact Hstatus].
Defined.

Lemma updateTask_tasks (id : string) (updates : UpdateTaskInput) (sys : System)
    (w : World) :
  AppState.tasks (appState (fst (useTasks.updateTask id updates sys w)))
  = AppState.tasks (fst (appReducer (appState sys) (UPDATE_TASK id updates) w)).
Proof.
  unfold useTasks.updateTask, dispatch. run.
  destruct (List.find _ _); run; reflexivity.
Qed.

(** X21: a submission of the task form that edits a task.  With a form
    without errors, every task of the state with the edited task's id takes
    the form's trimmed title and description, its priority, category and
    tags -- and also status todo and an empty completion comment, which the
    form sends along; id, createdAt, order and completedAt stay.  So a task
    that had a completedAt keeps it while its status becomes todo, and no
    longer satisfies the task invariant. *)
Theorem TaskForm_submit_edit_resets_status
    (task : Task) (formData : TaskFormData) (sys : System) (w : World)
    (i : nat) (t0 : Task) :
  ValidationErrors.none (TaskForm.validateForm formData) = true ->
  AppState.tasks (appState sys) !! i = Some t0 ->
  Task.id t0 = Task.id task ->
  exists t',
    AppState.tasks
      (appState (snd (fst (TaskForm.handleSubmit (Some task) formData sys w))))
      !! i = Some t' /\
    Task.id t' = Task.id t0 /\
    Task.title t' = trim (TaskFormData.title formData) /\
    Task.description t' = trim (TaskFormData.description formData) /\
    Task.priority t' = TaskFormData.priority formData /\
    Task.category t' = TaskFormData.category formData /\
    Task.tags t' = TaskFormData.tags formData /\
    Task.status t' = todo /\
    Task.completionComment t' = "" /\
    Task.completedAt t' = Task.completedAt t0 /\
    Task.createdAt t' = Task.createdAt t0 /\
    Task.order t' = Task.order t0 /\
    (is_Some (Task.completedAt t0) -> ~ taskInvariant t').
Proof.
  intros Hok Ht0 Hid. unfold TaskForm.handleSubmit. rewrite Hok. cbn [negb]. run.
  destruct (closeTaskForm_tasks
              (fst (useTasks.updateTask (Task.id task)
                      (TaskForm.asUpdates (TaskForm.taskData formData)) sys w))
              (snd (useTasks.updateTask (Task.id task)
                      (TaskForm.asUpdates (TaskForm.taskData formData)) sys w)))
    as (Htasks & _).
  rewrite Htasks, updateTask_tasks. cbn [appReducer]. run.
  cbn [with_tasks AppState.tasks].
  destruct (mapM_lookup
              (fun x => if String.eqb (Task.id x) (Task.id task)
                        then patchTask x (TaskForm.asUpdates
                                            (TaskForm.taskData formData))
                        else ret x)
              (AppState.tasks (appState sys)) w i t0 Ht0) as (w' & Hw').
  eexists. split; [exact Hw'|]. cbn beta.
  rewrite Hid, String.eqb_refl. unfold patchTask. run. cbn.
  repeat split; try congruence.
  intros Hsome [Hinv _]. cbn in Hinv. specialize (Hinv Hsome). discriminate.
Qed.

Lemma TaskForm_submit_edit_resets_status_witness :
  exists t',
    AppState.tasks
      (appState (snd (fst (TaskForm.handleSubmit (Some doneTask)
                             (TaskFormData.mk "Report v2" "" medium "default"
                                              ["work"])
                             workSystem world0))))
      !! 1%nat = Some t' /\
    Task.status t' = todo /\
    Task.completedAt t' = Some 20 /\
    ~ taskInvariant t'.
Proof.
  destruct (TaskForm_submit_edit_resets_status doneTask
              (TaskFormData.mk "Report v2" "" medium "default" ["work"])
              workSystem world0 1%nat doneTask eq_refl eq_refl eq_refl)
    as (t' & Hl & _ & _ & _ & _ & _ & _ & Hst & _ & Hdone & _ & _ & Hbreak).
  exists t'. split; [exact Hl|]. split; [exact Hst|]. split; [exact Hdone|].
  apply Hbreak. by eexists.
Defined.

(** ** The category manager *)

Lemma isDuplicate_false (formData : CategoryFormData)
    (categories : list Category) (editing : option Category) (c : Category) :
  CategoryManager.isDuplicate formData categories editing = false ->
  In c categories ->
  Category.name c = trim (CategoryFormData.name formData) ->
  exists e, editing = Some e /\ Category.id c = Category.id e.
Proof.
  unfold CategoryManager.isDuplicate. intros Hdup Hin Hname.
  assert (H : (String.eqb (Category.name c) (trim (CategoryFormData.name formData))
               && match editing with
                  | Some e => negb (String.eqb (Category.id c) (Category.id e))
                  | None => true
                  end) = false).
  { destruct (_ && _) eqn:E; [|reflexivity].
    exfalso. apply not_true_iff_false in Hdup. apply Hdup.
    apply existsb_exists. exists c. by split. }
  rewrite Hname, String.eqb_refl in H. cbn in H.
  destruct editing as [e|]; [|discriminate].
  exists e. split; [reflexivity|].
  apply negb_false_iff in H. by apply String.eqb_eq.
Qed.

Lemma validate_no_duplicate (formData : CategoryFormData)
    (categories : list Category) (editing : option Category) :
  ValidationErrors.none
    (CategoryManager.validateForm formData categories editing) = true ->
  CategoryManager.isDuplicate formData categories editing = false /\
  truthy (trim (CategoryFormData.name formData)) = true.
Proof.
  unfold CategoryManager.validateForm, ValidationErrors.none.
  cbn [ValidationErrors.title ValidationErrors.description
       ValidationErrors.category].
  destruct (CategoryManager.isDuplicate formData categories editing);
    [discriminate|].
  destruct (truthy (trim (CategoryFormData.name formData)));
    [by split | discriminate].
Qed.

Lemma NoDup_names_replace (e u : Category) (l : list Category) :
  Category.id u = Category.id e ->
  (forall c, In c l -> Category.name c = Category.name u ->
             Category.id c = Category.id e) ->
  NoDup (List.map Category.id l) ->
  NoDup (List.map Category.name l) ->
  NoDup (List.map Category.name
           (List.map (fun c => if String.eqb (Category.id c) (Category.id u)
                               then u else c) l)).
Proof.
  intros Hu. induction l as [|x xs IH]; intros Hname Hids Hnames; [constructor|].
  cbn in Hids, Hnames |- *.
  apply NoDup_cons in Hids as [Hx Hids]. apply NoDup_cons in Hnames as [Hnx Hnames].
  apply NoDup_cons. split.
  - rewrite List.map_map. intros Hin.
    apply list_elem_of_In, in_map_iff in Hin as (y & Hy & Hyin).
    assert (Hxy : Category.id y <> Category.id x).
    { intros E. apply Hx. rewrite <- E. apply list_elem_of_In, in_map, Hyin. }
    destruct (String.eqb_spec (Category.id x) (Category.id u)) as [Ex|Ex];
      destruct (String.eqb_spec (Category.id y) (Category.id u)) as [Ey|Ey].
    + congruence.
    + apply Ey. rewrite Hu. apply Hname; [by right | exact Hy].
    + apply Ex. rewrite Hu. apply Hname; [by left | by symmetry].
    + apply Hnx. rewrite <- Hy. apply list_elem_of_In, in_map, Hyin.
  - apply IH; [|exact Hids | exact Hnames].
    intros c Hc. apply Hname. by right.
Qed.

(** X22: the category manager keeps the names of the state's categories
    pairwise distinct.  If names and ids are pairwise distinct before a
    submission of the form -- an addition or an edit, with any form data --
    the names are pairwise distinct after it: a name in use by another
    category is refused, and a refused submission changes nothing. *)
Theorem CategoryManager_names_stay_distinct
    (formData : CategoryFormData) (editing : option Category)
    (sys : System) (w : World) :
  NoDup (List.map Category.name (AppState.categories (appState sys))) ->
  NoDup (List.map Category.id (AppState.categories (appState sys))) ->
  let r := fst (CategoryManager.handleSubmit formData editing sys w) in
  NoDup (List.map Category.name (AppState.categories (appState (snd r)))) /\
  (ValidationErrors.none (fst r) = false -> snd r = sys).
Proof.
  intros Hnames Hids. cbn zeta. unfold CategoryManager.handleSubmit.
  destruct (ValidationErrors.none _) eqn:Hok; cbn [negb].
  2:{ run. cbn [fst snd]. split; [exact Hnames | reflexivity]. }
  destruct (validate_no_duplicate _ _ _ Hok) as (Hdup & Hname).
  destruct editing as [e|]; run; cbn [fst snd];
    (split; [|rewrite Hok; discriminate]).
  - unfold useCategories_updateCategory, dispatch. cbn [appReducer]. run.
    cbn [appState with_categories AppState.categories].
    apply (NoDup_names_replace e); [reflexivity | | exact Hids | exact Hnames].
    intros c Hc Hcn. cbn in Hcn.
    destruct (isDuplicate_false _ _ _ c Hdup Hc Hcn) as (e' & He' & Hid).
    injection He' as <-. exact Hid.
  - unfold useCategories_addCategory, dispatch, createCategory.
    cbn [appReducer]. run.
    cbn [appState with_categories AppState.categories].
    rewrite List.map_app. cbn. apply NoDup_app.
    repeat split; [exact Hnames | | apply NoDup_singleton].
    intros n Hn Hn'. apply list_elem_of_singleton in Hn'. subst n.
    apply list_elem_of_In, in_map_iff in Hn as (c & Hcn & Hc).
    destruct (isDuplicate_false _ _ _ c Hdup Hc Hcn) as (e' & He' & _).
    discriminate.
Qed.

Lemma CategoryManager_names_stay_distinct_witness :
  NoDup
    (List.map Category.name
       (AppState.categories
          (appState (snd (fst (CategoryManager.handleSubmit
                                 (CategoryFormData.mk " Home " "#26de81" "")
                                 None workSystem world0)))))).
Proof.
  apply (CategoryManager_names_stay_distinct
           (CategoryFormData.mk " Home " "#26de81" "") None workSystem world0).
  - apply NoDup_cons. split; [|apply NoDup_singleton].
    intros H. apply list_elem_of_singleton in H. discriminate.
  - apply NoDup_cons. split; [|apply NoDup_singleton].
    intros H. apply list_elem_of_singleton in H. discriminate.
Defined.

(** ** The task store *)

Lemma findIndex_insert_same {A} (p : A -> bool) (c : A) (l : list A) (i : nat) :
  findIndex p l = Some i -> p c = true -> findIndex p (<[i:=c]> l) = Some i.
Proof.
  revert i. induction l as [|x xs IH]; intros i H Hc; [discriminate|].
  cbn in H. destruct (p x) eqn:Hx.
  - injection H as <-. cbn. by rewrite Hc.
  - destruct (findIndex p xs) as [k|] eqn:Hk; [|discriminate].
    injection H as <-. pose proof (IH k eq_refl Hc) as E.
    change (<[S k:=c]> (x :: xs)) with (x :: <[k:=c]> xs).
    cbn [findIndex]. by rewrite Hx, E.
Qed.

Lemma findIndex_app_absent {A} (p : A -> bool) (c : A) (l : list A) :
  findIndex p l = None -> p c = true -> findIndex p (l ++ [c]) = Some (length l).
Proof.
  induction l as [|x xs IH]; intros H Hc; cbn.
  - by rewrite Hc.
  - cbn in H. destruct (p x); [discriminate|].
    destruct (findIndex p xs); [discriminate|]. by rewrite IH.
Qed.

(** X23: saveTask of the task store inserts or updates by id.  Afterwards the
    first stored task with the saved task's id is the saved task, up to its
    updatedAt (refreshed when the id was already stored); the list is one
    longer when the id was absent and as long as before when it was present,
    and every other place holds what it held. *)
Theorem saveTask_upserts (task : Task) (currentTasks : list Task) (w : World) :
  let p := fun t => String.eqb (Task.id t) (Task.id task) in
  let saved := fst (TaskStorage.saveTask task currentTasks w) in
  exists i t',
    findIndex p saved = Some i /\
    saved !! i = Some t' /\
    sameButStamps t' task /\
    Task.completedAt t' = Task.completedAt task /\
    (findIndex p currentTasks = None ->
     t' = task /\ i = length currentTasks /\
     length saved = S (length currentTasks)) /\
    (findIndex p currentTasks <> None ->
     findIndex p currentTasks = Some i /\
     Task.updatedAt t' = clock w (reads w) /\
     length saved = length currentTasks) /\
    (forall j, j <> i -> (j < length currentTasks)%nat ->
               saved !! j = currentTasks !! j).
Proof.
  cbn zeta. unfold TaskStorage.saveTask.
  destruct (findIndex _ currentTasks) as [i|] eqn:Hi.
  - run.
    destruct (findIndex_Some _ _ _ Hi) as (x & Hx & _).
    eexists i, _. split; [|split].
    + apply findIndex_insert_same; [exact Hi | apply String.eqb_refl].
    + apply list_lookup_insert_eq. eapply lookup_lt_Some, Hx.
    + cbn. repeat split; try congruence; try tauto.
      * apply length_insert.
      * intros j Hj _. by apply list_lookup_insert_ne.
  - run. exists (length currentTasks), task. split; [|split].
    + apply findIndex_app_absent; [exact Hi | apply String.eqb_refl].
    + rewrite lookup_app_r by lia. by rewrite Nat.sub_diag.
    + split; [apply sameButStamps_refl|]. split; [reflexivity|].
      split; [|split].
      * intros _. rewrite length_app. cbn. repeat split. lia.
      * intros H. by destruct H.
      * intros j _ Hj. by apply lookup_app_l.
Qed.

(** ** The persistent store *)

Section PersistentStoreFacts.

Variable JSON_parse : string -> option JSON.
Variable JSON_stringify : JSON -> string.
Variable JSON_stringify_pretty : JSON -> string.
Variable toISOString : Date -> string.
Variable accepts : Storage -> string -> string -> bool.

Local Abbreviation read := (readStored JSON_parse).
Local Abbreviation write := (setStoredValue JSON_stringify accepts).
Local Abbreviation import := (importData JSON_parse JSON_stringify accepts).

(** X24: the contract of the persistent store.  A key that is absent, holds
    the empty text, or holds a text that does not parse reads as the
    caller's initial value.  setStoredValue always makes the new value the
    hook's value; when the browser takes the write (and the text written is
    not empty and parses back to the value) a fresh read of the key gives
    that value and every other key is as before; when the browser refuses
    it the stored texts are unchanged.  After clearAllData the three keys
    of the application read as their initial values. *)
Theorem persistent_store_contract
    (key : string) (newValue : SetStateAction) (value initial : JSON)
    (storage : Storage) :
  let v := match newValue with Plain x => x | Updater f => f value end in
  let r := write key newValue value storage in
  (getItem storage key = None \/ getItem storage key = Some "" \/
   (exists s, getItem storage key = Some s /\ JSON_parse s = None) ->
   read key initial storage = initial) /\
  fst r = v /\
  (accepts storage key (JSON_stringify v) = true ->
   truthy (JSON_stringify v) = true ->
   JSON_parse (JSON_stringify v) = Some v ->
   read key initial (snd r) = v /\
   forall k, k <> key -> getItem (snd r) k = getItem storage k) /\
  (accepts storage key (JSON_stringify v) = false -> snd r = storage) /\
  (In key ["todo-tasks"; "todo-categories"; "todo-settings"] ->
   read key initial (clearAllData storage) = initial).
Proof.
  cbn zeta. unfold setStoredValue, readStored, setItem, getItem.
  split; [|split; [|split; [|split]]].
  - intros [H|[H|(s & H & Hs)]]; rewrite H; try reflexivity.
    destruct (truthy s); [by rewrite Hs | reflexivity].
  - by destruct (accepts _ _ _).
  - intros Hacc Htruthy Hparse. rewrite Hacc. cbn [snd]. unfold putItem.
    split.
    + by rewrite String.eqb_refl, Htruthy, Hparse.
    + intros k Hk. apply String.eqb_neq in Hk. by rewrite Hk.
  - intros Hacc. by rewrite Hacc.
  - intros [<-|[<-|[<-|[]]]]; reflexivity.
Qed.

(** X25: export then import.  When the three stored texts (or, for an
    absent or empty one, its default "[]" or "{}") parse, the tasks to an
    array and the categories and the settings to truthy values, exportData
    yields a text; and if that text parses back to the exported document,
    importing it into any storage that takes the writes resolves and leaves
    under the three keys the texts of the same tasks, categories and
    settings, every other key untouched. *)
Theorem export_import_round_trip
    (storage target : Storage) (w : World)
    (items : list JSON) (categories settings : JSON) :
  JSON_parse (item_or (getItem storage "todo-tasks") "[]") = Some (JArray items) ->
  JSON_parse (item_or (getItem storage "todo-categories") "[]") = Some categories ->
  JSON_parse (item_or (getItem storage "todo-settings") "{}") = Some settings ->
  JSON_truthy (Some categories) = true ->
  JSON_truthy (Some settings) = true ->
  (let doc := exportDocument toISOString (JArray items) categories settings
                (clock w (reads w)) in
   JSON_parse (JSON_stringify_pretty doc) = Some doc) ->
  (forall s k v, accepts s k v = true) ->
  exists text,
    fst (exportData JSON_parse JSON_stringify_pretty toISOString storage w)
      = Some text /\
    fst (import text target) = Resolved /\
    getItem (snd (import text target)) "todo-tasks"
      = Some (JSON_stringify (JArray items)) /\
    getItem (snd (import text target)) "todo-categories"
      = Some (JSON_stringify categories) /\
    getItem (snd (import text target)) "todo-settings"
      = Some (JSON_stringify settings) /\
    forall k, ~ In k ["todo-tasks"; "todo-categories"; "todo-settings"] ->
              getItem (snd (import text target)) k = getItem target k.
Proof.
  intros Ht Hc Hs Hct Hst Hdoc Hacc. cbn zeta in Hdoc.
  unfold exportData. rewrite Ht, Hc, Hs. run.
  change (fst (new_Date w)) with (clock w (reads w)).
  eexists. split; [reflexivity|].
  assert (import
            (JSON_stringify_pretty
               (exportDocument toISOString (JArray items) categories settings
                  (clock w (reads w)))) target
          = (Resolved,
             putItem "todo-settings" (JSON_stringify settings)
               (putItem "todo-categories" (JSON_stringify categories)
                  (putItem "todo-tasks" (JSON_stringify (JArray items))
                     target)))) as ->.
  { unfold importData. rewrite Hdoc.
    cbn [exportDocument getProperty lookupField String.eqb Ascii.eqb Bool.eqb].
    change (JSON_truthy (Some (JArray items))) with true.
    cbn [isArray negb orb].
    unfold setItem. rewrite !Hacc.
    unfold default, id, JSON_or. by rewrite Hct, Hst. }
  cbn [fst snd]. unfold getItem, putItem. repeat split.
  intros k Hk.
  destruct (String.eqb_spec k "todo-settings") as [->|_];
    [exfalso; apply Hk; cbn; tauto|].
  destruct (String.eqb_spec k "todo-categories") as [->|_];
    [exfalso; apply Hk; cbn; tauto|].
  destruct (String.eqb_spec k "todo-tasks") as [->|_];
    [exfalso; apply Hk; cbn; tauto|].
  reflexivity.
Qed.

(** X26: importData resolves only for a text that parses to a document with
    an array under "tasks"; for a text that does not parse, or a document
    whose "tasks" is missing or is no array (null, a number, a text, an
    object), it is rejected and the storage is left exactly as it was. *)
Theorem importData_validates (text : string) (storage : Storage) :
  (fst (import text storage) = Resolved ->
   exists doc items,
     JSON_parse text = Some doc /\
     getProperty doc "tasks" = Some (Some (JArray items))) /\
  ((JSON_parse text = None \/
    exists doc, JSON_parse text = Some doc /\
                forall items, getProperty doc "tasks" <> Some (Some (JArray items))) ->
   import text storage = (importFailed, storage)).
Proof.
  unfold importData. split.
  - destruct (JSON_parse text) as [doc|]; [|discriminate].
    destruct (getProperty doc "tasks") as [[tasks|]|] eqn:Hp; try discriminate.
    destruct tasks; try discriminate.
    + destruct b; discriminate.
    + destruct x; discriminate.
    + cbn. destruct (truthy s); discriminate.
    + intros _. eauto.
  - intros [->|(doc & -> & Hno)]; [reflexivity|].
    destruct (getProperty doc "tasks") as [[tasks|]|] eqn:Hp; try reflexivity.
    destruct tasks; cbn; rewrite ?orb_true_r; try reflexivity.
    by destruct (Hno items).
Qed.

(** X27: importData is not atomic.  When the browser takes the write of the
    tasks and refuses the next one, the import is rejected like any other
    failed import, but the stored tasks have already been replaced by the
    imported ones. *)
Theorem importData_partial_write
    (text : string) (storage : Storage) (doc : JSON) (items : list JSON) :
  JSON_parse text = Some doc ->
  getProperty doc "tasks" = Some (Some (JArray items)) ->
  accepts storage "todo-tasks" (JSON_stringify (JArray items)) = true ->
  (forall v, accepts (putItem "todo-tasks" (JSON_stringify (JArray items)) storage)
                     "todo-categories" v = false) ->
  fst (import text storage) = importFailed /\
  getItem (snd (import text storage)) "todo-tasks"
    = Some (JSON_stringify (JArray items)).
Proof.
  intros Hparse Htasks Hacc Hrefuse.
  unfold importData, setItem. rewrite Hparse, Htasks. cbn [JSON_truthy isArray negb orb].
  rewrite Hacc, Hrefuse. by split.
Qed.

End PersistentStoreFacts.

Lemma export_import_round_trip_witness :
  fst (importData sampleParse (fun _ => "[]") (fun _ _ _ => true) "DOC"
         emptyStorage) = Resolved.
Proof.
  destruct (export_import_round_trip sampleParse (fun _ => "[]")
              (fun _ => "DOC") (fun _ => "2025-01-01T00:00:00.000Z")
              (fun _ _ _ => true) emptyStorage emptyStorage world0
              [] (JArray []) (JObject [])
              eq_refl eq_refl eq_refl eq_refl eq_refl eq_refl
              (fun _ _ _ => eq_refl))
    as (text & Htext & Hres & _).
  injection Htext as <-. exact Hres.
Defined.

Lemma importData_partial_write_witness :
  getItem
    (snd (importData sampleParse (fun _ => "[]")
            (fun _ k _ => String.eqb k "todo-tasks") "DOC" emptyStorage))
    "todo-tasks"
  = Some "[]".
Proof.
  apply (importData_partial_write sampleParse (fun _ => "[]")
           (fun _ k _ => String.eqb k "todo-tasks") "DOC" emptyStorage
           sampleDocument []); reflexivity.
Defined.

Lemma persistent_store_contract_witness :
  readStored sampleParse "todo-tasks" JNull
    (snd (setStoredValue (fun _ => "[]") (fun _ _ _ => true) "todo-tasks"
            (Plain (JArray [])) JNull emptyStorage))
  = JArray [].
Proof.
  destruct (persistent_store_contract sampleParse (fun _ => "[]")
              (fun _ _ _ => true) "todo-tasks" (Plain (JArray [])) JNull JNull
              emptyStorage) as (_ & _ & H & _).
  exact (proj1 (H eq_refl eq_refl eq_refl)).
Defined.

Lemma importData_validates_witness :
  importData sampleParse (fun _ => "[]") (fun _ _ _ => true) "{}" emptyStorage
  = (importFailed, emptyStorage).
Proof.
  apply (importData_validates sampleParse (fun _ => "[]") (fun _ _ _ => true)).
  right. exists (JObject []). split; [reflexivity | discriminate].
Defined.

(** ** The category manager's delete button *)

Lemma deleteCategory_categories (id : string) (sys : System) (w : World) :
  id <> "default" ->
  let sys' := snd (fst (useCategories.deleteCategory id sys w)) in
  AppState.categories (appState sys')
    = List.filter (fun c => negb (String.eqb (Category.id c) id))
                  (AppState.categories (appState sys)) /\
  categoryStore sys'
    = List.filter (fun c => negb (String.eqb (Category.id c) id))
                  (categoryStore sys).
Proof.
  intros Hne. cbn zeta. unfold useCategories.deleteCategory.
  destruct (String.eqb_spec id "default") as [|_]; [contradiction|].
  run. fold (moveActions
               (List.filter (fun task => String.eqb (Task.category task) id)
                            (AppState.tasks (appState sys)))).
  destruct (dispatchAll_moves
              (List.filter (fun task => String.eqb (Task.category task) id)
                           (AppState.tasks (appState sys))) sys w)
    as (Hc & _ & Hcs & _).
  unfold dispatch. cbn [appReducer]. run.
  cbn [setCategories appState categoryStore with_categories AppState.categories].
  rewrite Hc, Hcs. unfold CategoryStorage.deleteCategory.
  destruct (String.eqb_spec id "default") as [|_]; [contradiction|].
  by split.
Qed.

(** X28: the delete button of the category manager.  For the default
    category, or when the user does not confirm, nothing happens: the
    system and the world are as before.  For any other category, once
    confirmed, the state and the store keep exactly the categories with
    another id; the default category, if there was one, is among them. *)
Theorem CategoryManager_handleDelete_guarded
    (category : Category) (confirmed : bool) (sys : System) (w : World) :
  let r := CategoryManager.handleDelete category confirmed sys w in
  (Category.id category = "default" \/ confirmed = false -> r = (sys, w)) /\
  (Category.id category <> "default" -> confirmed = true ->
   (forall c, In c (AppState.categories (appState (fst r))) <->
              In c (AppState.categories (appState sys)) /\
              Category.id c <> Category.id category) /\
   (forall c, In c (categoryStore (fst r)) <->
              In c (categoryStore sys) /\
              Category.id c <> Category.id category) /\
   (hasDefault (AppState.categories (appState sys)) ->
    hasDefault (AppState.categories (appState (fst r))))).
Proof.
  cbn zeta. unfold CategoryManager.handleDelete. split.
  - intros [H| ->].
    + by rewrite H.
    + by destruct (String.eqb (Category.id category) "default").
  - intros Hne ->. pose proof Hne as Hne'.
    apply String.eqb_neq in Hne'. rewrite Hne'. run.
    destruct (deleteCategory_categories (Category.id category) sys w Hne)
      as [-> ->].
    assert (Hin : forall l c,
              In c (List.filter
                      (fun c => negb (String.eqb (Category.id c)
                                                 (Category.id category))) l)
              <-> In c l /\ Category.id c <> Category.id category).
    { intros l c. rewrite filter_In, negb_true_iff, String.eqb_neq. tauto. }
    split; [intros c; apply Hin|]. split; [intros c; apply Hin|].
    intros (d & Hd & Hdef). exists d. split; [|exact Hdef].
    apply Hin. split; [exact Hd | congruence].
Qed.

Lemma CategoryManager_handleDelete_guarded_witness :
  fst (CategoryManager.handleDelete defaultCategory true workSystem world0)
  = workSystem.
Proof.
  pose proof (proj1 (CategoryManager_handleDelete_guarded defaultCategory true
                       workSystem world0) (or_introl eq_refl)) as H.
  cbn zeta in H. by rewrite H.
Defined.

(** ** Narrowing the filter *)

Section Narrowing.

Variable toLowerCase : string -> string.
Variable localeCompare : string -> string -> Z.

(** X29: setFilter with criteria that were switched off can only hide
    tasks.  When every criterion the update sets was inactive before (status
    and priority "all", category "all", a blank search text), each task of the
    new view was in the old view; the tasks of the state are untouched. *)
Theorem setFilter_narrows
    (filterUpdates : PartialFilter.t) (sys : System) (w : World) :
  let f := UIState.filter (AppState.ui (appState sys)) in
  let sys' := fst (useUI.setFilter filterUpdates sys w) in
  (PartialFilter.status filterUpdates <> None -> Filter.status f = None) ->
  (PartialFilter.category filterUpdates <> None -> Filter.category f = "all") ->
  (PartialFilter.priority filterUpdates <> None -> Filter.priority f = None) ->
  (PartialFilter.searchQuery filterUpdates <> None ->
   truthy (trim (Filter.searchQuery f)) = false) ->
  AppState.tasks (appState sys') = AppState.tasks (appState sys) /\
  forall t, In t (filteredTasks toLowerCase localeCompare (appState sys')) ->
            In t (filteredTasks toLowerCase localeCompare (appState sys)).
Proof.
  cbn zeta. intros Hs Hc Hp Hq.
  unfold useUI.setFilter, dispatch. cbn [appReducer]. run.
  cbn [appState with_ui AppState.tasks]. split; [reflexivity|].
  intros t. rewrite !view_In.
  cbn [with_ui AppState.ui AppState.tasks AppState.settings UIState.filter].
  intros [Hin Hv]. split; [exact Hin|].
  revert Hv. unfold visible, patchFilter.
  cbn [Filter.status Filter.category Filter.priority Filter.searchQuery].
  destruct filterUpdates as [ps pc pp pq].
  cbn [PartialFilter.status PartialFilter.category PartialFilter.priority
       PartialFilter.searchQuery] in *.
  intros Hv.
  apply andb_true_iff in Hv as [Hv H5].
  apply andb_true_iff in Hv as [Hv H4].
  apply andb_true_iff in Hv as [Hv H3].
  apply andb_true_iff in Hv as [H1 H2].
  rewrite H5, andb_true_r.
  repeat (apply andb_true_iff; split).
  - destruct ps as [s|]; [|exact H1]. by rewrite Hs.
  - destruct pc as [c|]; [|exact H2]. rewrite Hc by discriminate. reflexivity.
  - destruct pp as [p|]; [|exact H3]. by rewrite Hp.
  - destruct pq as [q|]; [|exact H4]. rewrite Hq by discriminate. reflexivity.
Qed.

End Narrowing.

Lemma setFilter_narrows_witness :
  AppState.tasks
    (appState (fst (useUI.setFilter
                      (PartialFilter.mk (Some (Some completed)) None None None)
                      workSystem world0)))
  = AppState.tasks (appState workSystem).
Proof.
  apply (setFilter_narrows id ordinalCompare
           (PartialFilter.mk (Some (Some completed)) None None None)
           workSystem world0);
    cbn; intros H; try reflexivity; by destruct H.
Defined.

(** ** The report of several completed tasks *)

Lemma completionLines_titles (index : nat) (l l' : list Task) :
  List.map Task.title l = List.map Task.title l' ->
  completionLines index l = completionLines index l'.
Proof.
  revert index l'. induction l as [|x xs IH]; intros index [|y ys] H;
    try discriminate; [reflexivity|].
  cbn in H. injection H as Hxy Hrest. cbn [completionLines].
  by rewrite Hxy, (IH (S index) ys Hrest).
Qed.

Lemma completionLines_includes (index i : nat) (l : list Task) (t : Task) :
  l !! i = Some t ->
  includes (completionLines index l)
           (Number.decimal (N.of_nat (index + i + 1)) ++ ". ✅ "
            ++ Task.title t ++ LF)%string = true.
Proof.
  revert index i. induction l as [|x xs IH]; intros index i H; [discriminate|].
  destruct i as [|i]; cbn in H.
  - injection H as ->. cbn [completionLines]. rewrite Nat.add_0_r.
    apply includes_prefix.
    rewrite <- !append_assoc. apply prefix_append.
  - cbn [completionLines].
    do 4 apply includes_append_r.
    replace (index + S i + 1)%nat with (S index + i + 1)%nat by lia.
    by apply IH.
Qed.

(** X30: the report of several completed tasks.  Nothing is posted for an
    empty list and a text for every other.  The text begins with the number
    of tasks, holds the numbered line of each of the first three tasks, and,
    when there are more than three, the line that counts the rest.  It
    depends on the tasks only through their number and the titles of the
    first three. *)
Theorem multipleTasksCompletionText_shape (completedTasks : list Task) :
  (multipleTasksCompletionText completedTasks = None <-> completedTasks = []) /\
  (forall text, multipleTasksCompletionText completedTasks = Some text ->
     String.prefix
       ("🎉 " ++ Number.decimal (N.of_nat (length completedTasks))
        ++ "件のタスクを完了しました！") text = true /\
     (forall i t, (i < 3)%nat -> completedTasks !! i = Some t ->
        includes text
          (Number.decimal (N.of_nat (i + 1)) ++ ". ✅ " ++ Task.title t ++ LF)
        = true) /\
     ((3 < length completedTasks)%nat ->
      includes text
        ("... 他" ++ Number.decimal (N.of_nat (length completedTasks - 3))
         ++ "件" ++ LF) = true)) /\
  (forall others,
     length others = length completedTasks ->
     List.map Task.title (firstn 3 others)
       = List.map Task.title (firstn 3 completedTasks) ->
     multipleTasksCompletionText others
       = multipleTasksCompletionText completedTasks).
Proof.
  split; [|split].
  - unfold multipleTasksCompletionText.
    destruct completedTasks; cbn [length Nat.eqb]; split; try discriminate;
      reflexivity.
  - intros text. unfold multipleTasksCompletionText.
    destruct (length completedTasks =? 0)%nat; [discriminate|].
    intros H. apply (inj Some) in H. subst text. split; [|split].
    + assert (Hh : forall d,
                ("🎉 " ++ d ++ "件のタスクを完了しました！" ++ LF ++ LF)%string
                = (("🎉 " ++ d ++ "件のタスクを完了しました！") ++ LF ++ LF)%string)
        by (intros d; by rewrite !append_assoc).
      rewrite Hh.
      set (q := ("🎉 " ++ _ ++ "件のタスクを完了しました！")%string).
      destruct (3 <? length completedTasks)%nat;
        rewrite !append_assoc; apply prefix_append.
    + intros i t Hi Ht.
      assert (Hl : includes (completionLines 0 (firstn 3 completedTasks))
                     (Number.decimal (N.of_nat (i + 1)) ++ ". ✅ "
                      ++ Task.title t ++ LF)%string = true).
      { apply (completionLines_includes 0 i).
        by rewrite lookup_take_lt. }
      destruct (3 <? length completedTasks)%nat.
      * apply includes_append_l, includes_append_l, includes_append_r, Hl.
      * apply includes_append_l, includes_append_r, Hl.
    + intros Hlen. apply Nat.ltb_lt in Hlen. rewrite Hlen.
      apply includes_append_l, includes_append_r.
      apply includes_prefix, prefix_refl.
  - intros others Hlen Htitles. unfold multipleTasksCompletionText.
    by rewrite Hlen, (completionLines_titles 0 _ _ Htitles).
Qed.
